(** * wtf: configuration bootstrap ([cfg]) and firewall probe ([security])

    A shallow embedding of [cfg/config_files.go] and of the stealth-state
    half of [modules/security/firewall.go].

    Go strings are byte strings and are modelled by [string]; a Go function
    returning [(T, error)] returns a pair [T * option error] ([None] is
    [nil]); the file system is an explicit tree that the procedures thread
    through a small state monad whose outcomes also cover [os.Exit] and
    [panic].  The operating system is the POSIX one (separator [/]). *)

From stdpp Require Import gmap strings list fin_maps.
From Stdlib Require Import ZArith NArith Ascii String Lia.

#[local] Set Warnings "-register-all".
#[local] Open Scope string_scope.

(** ** Go's [error] values *)

(** The [syscall.Errno] values that the modelled system calls can report. *)
Inductive errno :=
| ENOENT | ENOTDIR | EEXIST | EISDIR | EBUSY | EACCES | EPERM | EIO | EROFS
| EINVAL | ENAMETOOLONG.

Inductive error :=
| errorString (msg : string)                    (* errors.New(msg) *)
| PathError (op path : string) (err : errno).   (* *os.PathError *)

Definition errors_New (msg : string) : error := errorString msg.

(** [os.IsNotExist]. *)
Definition os_IsNotExist (err : option error) : bool :=
  match err with
  | Some (PathError _ _ ENOENT) => true
  | _ => false
  end.

(** Result of a library call whose value is unusable when it fails. *)
Inductive result (A : Type) :=
| Ok (a : A)
| Err (e : error).
Arguments Ok {A} a.
Arguments Err {A} e.

(** ** Package [path/filepath] (POSIX) *)

Module filepath.

Definition Separator : ascii := "/"%char.

Definition IsPathSeparator (c : ascii) : bool := Ascii.eqb c Separator.

(** The path elements between separators: [strings.Split(path, "/")]. *)
Fixpoint elements (path : string) : list string :=
  match path with
  | "" => [""]
  | String c rest =>
      if IsPathSeparator c then "" :: elements rest
      else match elements rest with
           | x :: xs => String c x :: xs
           | [] => [String c ""]
           end
  end.

(** [strings.Join(elems, "/")]. *)
Fixpoint join (elems : list string) : string :=
  match elems with
  | [] => ""
  | [x] => x
  | x :: xs => x +:+ "/" +:+ join xs
  end.

(** One iteration of the loop of [Clean], on the element just read.
    [out] is the output buffer as a stack of elements, last one first. *)
Definition clean_step (rooted : bool) (out : list string) (x : string)
  : list string :=
  if String.eqb x "" then out                  (* empty path element *)
  else if String.eqb x "." then out            (* . element *)
  else if String.eqb x ".." then               (* .. element *)
    match out with
    | y :: out' =>
        if String.eqb y ".." then
          (if rooted then out else ".." :: out)
        else out'                              (* can backtrack *)
    | [] => if rooted then [] else [".."]
    end
  else x :: out.                               (* real path element *)

Definition clean_elements (rooted : bool) (out xs : list string)
  : list string :=
  foldl (clean_step rooted) out xs.

Definition rooted (path : string) : bool :=
  match path with
  | String c _ => IsPathSeparator c
  | "" => false
  end.

(** [filepath.Clean]: the shortest path equivalent to [path] by purely
    lexical processing.  The result ends in a separator only when it is
    the root, and the empty path becomes ["."]. *)
Definition Clean (path : string) : string :=
  match path with
  | "" => "."
  | _ =>
      let out := clean_elements (rooted path) [] (elements path) in
      if rooted path then "/" +:+ join (rev out)
      else match out with
           | [] => "."
           | _ => join (rev out)
           end
  end.

(** [filepath.Join] of two elements: empty elements are ignored, the
    elements from the first non-empty one on are joined with the
    separator and the result is cleaned. *)
Definition Join (a b : string) : string :=
  if String.eqb a "" then
    (if String.eqb b "" then "" else Clean b)
  else Clean (a +:+ "/" +:+ b).

End filepath.

(** ** Package [os/user] *)

Record User := { Username : string; HomeDir : string }.

(** ** Package [cfg]: constants and the path resolver *)

(** XdgConfigDir defines the path to the minimal XDG-compatible
    configuration directory. *)
Definition XdgConfigDir : string := "~/.config/".
(** WtfConfigDirV1: the first version of the configuration directory. *)
Definition WtfConfigDirV1 : string := "~/.wtf/".
(** WtfConfigDirV2: the second version of the configuration directory. *)
Definition WtfConfigDirV2 : string := "~/.config/wtf/".
(** WtfConfigFile defines the name of the default config file. *)
Definition WtfConfigFile : string := "config.yml".
(** WtfSecretsFile defines the file in which to store API keys. *)
Definition WtfSecretsFile : string := "secrets.yml".

Section Resolver.

(** What [user.Current()] returns in the running process. *)
Variable user_Current : result User.

(** [home] returns the home directory for the executing user. *)
Definition home : string * option error :=
  match user_Current with
  | Err err => ("", Some err)
  | Ok currentUser =>
      if String.eqb (HomeDir currentUser) "" then
        ("", Some (errors_New "cannot find user-specific home dir"))
      else (HomeDir currentUser, None)
  end.

(** [expandHomeDir] expands the path to include the home directory if the
    path is prefixed with [~]; otherwise the path is returned as-is. *)
Definition expandHomeDir (path : string) : string * option error :=
  match path with
  | "" => (path, None)                              (* len(path) == 0 *)
  | String c0 rest =>
      if negb (Ascii.eqb c0 "~") then (path, None)  (* path[0] != '~' *)
      else if
        match rest with                             (* len(path) > 1 && .. *)
        | String c1 _ => negb (Ascii.eqb c1 "/") && negb (Ascii.eqb c1 "\")
        | "" => false
        end
      then ("", Some (errors_New "cannot expand user-specific home dir"))
      else
        match home with
        | (_, Some err) => ("", Some err)
        | (dir, None) => (filepath.Join dir rest, None)   (* path[1:] *)
        end
  end.

(** [WtfConfigDir] returns the absolute path to the configuration
    directory. *)
Definition WtfConfigDir : string * option error :=
  match expandHomeDir WtfConfigDirV2 with
  | (_, Some err) => ("", Some err)
  | (configDir, None) => (configDir, None)
  end.

End Resolver.

(** ** The file system *)

(** A node of the file tree: a regular file with its permission bits and
    content, or a directory with its permission bits and entries. *)
Inductive node :=
| File (mode : N) (data : string)
| Dir (mode : N) (entries : gmap string node).

(** Outcome of a walk through the tree. *)
Inductive found (A : Type) :=
| Found (a : A)
| Fails (e : errno).
Arguments Found {A} a.
Arguments Fails {A} e.

Module fs.

(** The node reached from [n] along the path elements [p]. *)
Fixpoint lookup (p : list string) (n : node) : found node :=
  match p with
  | [] => Found n
  | c :: p' =>
      match n with
      | File _ _ => Fails ENOTDIR
      | Dir _ es =>
          match es !! c with
          | None => Fails ENOENT
          | Some ch => lookup p' ch
          end
      end
  end.

(** A path element that is no name of an entry. *)
Definition special (x : string) : bool :=
  String.eqb x "" || String.eqb x "." || String.eqb x "..".

(** What keeps the walk from going on at what it has reached. *)
Definition not_dir (at_pos : found node) : option errno :=
  match at_pos with
  | Found (Dir _ _) => None
  | Found (File _ _) => Some ENOTDIR
  | Fails e => Some e
  end.

(** The walk of the kernel along the elements [xs] of a path name, from
    the position [out] (a stack of elements, last one first): the errno
    at which it fails, if it does.  The tree has no symbolic links, so
    the walk moves as [Clean] moves on a rooted path; but the kernel
    looks every element up in a directory, so [.], [..] and an empty
    element (which a separator at the end of the name leaves) fail when
    the names walked before them do not lead to a directory.  [known]
    says that the position is known to be a directory: the walk starts
    in one (the root, or the working directory, which the process
    holds), and [..] leads from a directory to a directory.  The names
    that the walk ends with are left to the call, which looks them up
    itself. *)
Fixpoint walk (r : node) (out : list string) (known : bool)
    (xs : list string) : option errno :=
  match xs with
  | [] => None
  | x :: xs' =>
      if special x then
        match (if known then None else not_dir (lookup (rev out) r)) with
        | Some e => Some e
        | None => walk r (filepath.clean_step true out x) true xs'
        end
      else walk r (x :: out) false xs'
  end.

(** The elements of a name without the empty ones that separators at
    its end leave. *)
Fixpoint trimmed (xs : list string) : list string :=
  match xs with
  | [] => []
  | x :: xs' =>
      match trimmed xs' with
      | [] => if String.eqb x "" then [] else [x]
      | ys => x :: ys
      end
  end.

(** The name ends in a separator. *)
Definition trailing (xs : list string) : bool :=
  match last xs with
  | Some x => String.eqb x ""
  | None => false
  end.

(** Rewrite the directory entry at [p]: [f] receives the entry ([None]
    when the name is free in an existing parent directory) and answers
    with the new entry ([None] removes it). *)
Fixpoint modify (f : option node → found (option node))
    (p : list string) (n : node) : found node :=
  match p with
  | [] =>
      match f (Some n) with
      | Found (Some n') => Found n'
      | Found None => Fails EBUSY          (* the root stays *)
      | Fails e => Fails e
      end
  | c :: p' =>
      match n with
      | File _ _ => Fails ENOTDIR
      | Dir m es =>
          match p' with
          | [] =>
              match f (es !! c) with
              | Found o => Found (Dir m (partial_alter (λ _, o) c es))
              | Fails e => Fails e
              end
          | _ :: _ =>
              match es !! c with
              | None => Fails ENOENT
              | Some ch =>
                  match modify f p' ch with
                  | Found ch' => Found (Dir m (<[c := ch']> es))
                  | Fails e => Fails e
                  end
              end
          end
      end
  end.

(** A chain of fresh directories along [p] that ends in [new]. *)
Fixpoint chain (perm : N) (p : list string) (new : node) : node :=
  match p with
  | [] => new
  | c :: p' => Dir perm {[ c := chain perm p' new ]}
  end.

(** Put [new] at the free path [p], making the missing ancestors. *)
Fixpoint place (perm : N) (p : list string) (new : node) (n : node)
  : found node :=
  match p with
  | [] => Fails EEXIST
  | c :: p' =>
      match n with
      | File _ _ => Fails ENOTDIR
      | Dir m es =>
          match es !! c with
          | None => Found (Dir m (<[c := chain perm p' new]> es))
          | Some ch =>
              match place perm p' new ch with
              | Found ch' => Found (Dir m (<[c := ch']> es))
              | Fails e => Fails e
              end
          end
      end
  end.

(** The tree without what is at the paths [qs] below [p]; [p] itself
    stays. *)
Definition without (p : list string) (qs : list (list string)) (r : node)
  : node :=
  foldl (λ r q, match q with
                | [] => r
                | _ :: _ =>
                    match modify (λ _, Found None) (p ++ q) r with
                    | Found r' => r'
                    | Fails _ => r
                    end
                end) r qs.

End fs.

(** ** The process and its environment *)

Inductive syscall :=
| SysStat | SysCreate | SysMkdir | SysChmod | SysWriteFile | SysRemoveAll
| SysCopy.

(** Reasons for which the system refuses a call whatever the tree holds:
    permissions, ownership, a read-only mount, an I/O error, a name that
    has a zero byte in it, a name that is too long. *)
Inductive denial :=
| DenyAccess | DenyOwner | DenyIO | DenyReadOnly | DenyInvalid | DenyTooLong.

Definition denial_errno (d : denial) : errno :=
  match d with
  | DenyAccess => EACCES
  | DenyOwner => EPERM
  | DenyIO => EIO
  | DenyReadOnly => EROFS
  | DenyInvalid => EINVAL
  | DenyTooLong => ENAMETOOLONG
  end.

(** What the process cannot change: the current user, the working
    directory, the umask, the size the system reports for a directory,
    the calls that the system refuses, and what a removal that the
    system refuses has removed below the path by the time it fails (the
    paths are relative to the path of the call). *)
Record env := {
  env_user : result User;
  env_wd : list string;
  env_umask : N;
  env_dirsize : Z;
  env_denied : syscall → string → option denial;
  env_removed : string → list (list string);
}.

(** What the process prints. *)
Inductive printed :=
| Println (err : error)
| XdgConfigDirCreateError (err : error)
| WtfConfigDirCreateError (err : error)
| DefaultConfigCreateError (err : error)
| DefaultConfigWriteError (err : option error).

Record state := {
  root : node;
  stdout : list printed;
}.

(** A procedure returns, or exits the process, or panics. *)
Inductive outcome (A : Type) :=
| Ret (a : A) (s : state)
| Exit (code : Z) (s : state)
| Panic (v : error) (s : state).
Arguments Ret {A} a s.
Arguments Exit {A} code s.
Arguments Panic {A} v s.

Definition M (A : Type) : Type := state → outcome A.

Definition ret {A} (a : A) : M A := λ s, Ret a s.

Definition bind {A B} (m : M A) (k : A → M B) : M B :=
  λ s, match m s with
       | Ret a s' => k a s'
       | Exit code s' => Exit code s'
       | Panic v s' => Panic v s'
       end.

Notation "'let*' x ':=' m 'in' k" := (bind m (λ x, k))
  (at level 10, x name, m at level 100, k at level 200,
   format "'[v' 'let*'  x  :=  m  'in'  '/' k ']'").
Notation "'run' m 'then' k" := (bind m (λ _, k))
  (at level 10, m at level 100, k at level 200,
   format "'[v' 'run'  m  'then'  '/' k ']'").

(** The state in which a procedure stops, however it stops. *)
Definition final {A} (o : outcome A) : state :=
  match o with
  | Ret _ s => s
  | Exit _ s => s
  | Panic _ s => s
  end.

(** A procedure keeps a property of the state on every way out. *)
Definition keeps {A} (I : state → Prop) (m : M A) : Prop :=
  ∀ s, I s → I (final (m s)).

Definition os_Exit {A} (code : Z) : M A := λ s, Exit code s.
Definition panic {A} (v : error) : M A := λ s, Panic v s.
Definition print (line : printed) : M unit :=
  λ s, Ret tt {| root := root s; stdout := stdout s ++ [line] |}.

(** The panic of a method call through a nil pointer. *)
Definition nil_dereference : error :=
  errorString "runtime error: invalid memory address or nil pointer dereference".

(** [os.FileInfo]. *)
Record FileInfo := { Size : Z; Mode : N; IsDir : bool }.

Definition os_ModePerm : N := 511.     (* 0777 *)
Definition mode_0600 : N := 384.
Definition mode_0666 : N := 438.

Definition file_info (dirsize : Z) (n : node) : FileInfo :=
  match n with
  | File m data =>
      {| Size := Z.of_nat (String.length data); Mode := m; IsDir := false |}
  | Dir m _ => {| Size := dirsize; Mode := m; IsDir := true |}
  end.

(** The [error] half of a [(T, error)] result. *)
Definition error_of {A} (r : result A) : option error :=
  match r with
  | Ok _ => None
  | Err e => Some e
  end.

(** ** Packages [os] and [io/ioutil] over the tree *)

Section OS.

Variable E : env.

(** The path elements, from the root, at which the walk of a path name
    ends.  The tree has no symbolic links, so [.] and [..] lead where
    they lead lexically; a relative name starts at the working
    directory; the empty name denotes nothing. *)
Definition resolve (name : string) : option (list string) :=
  match name with
  | "" => None
  | _ =>
      Some (rev (filepath.clean_elements true
                   (if filepath.rooted name then [] else rev (env_wd E))
                   (filepath.elements name)))
  end.

(** The error of the kernel's walk of a path name in the tree [r], if
    it fails.  A call that can make the last element of the name
    ([making]: [mkdir], an [open] with [O_CREAT], a removal) does not
    walk the separators at the end of the name. *)
Definition walk (making : bool) (r : node) (name : string) : option errno :=
  fs.walk r (if filepath.rooted name then [] else rev (env_wd E)) true
    (if making then fs.trimmed (filepath.elements name)
     else filepath.elements name).

(** A system call on a path name: refused by the system, or stopped on
    the way by a name that leads nowhere, or run on the elements at
    which the walk ends. *)
Definition on_path {A} (sc : syscall) (op : string) (making : bool)
    (name : string) (r : node) (k : list string → found A) : result A :=
  match env_denied E sc name with
  | Some d => Err (PathError op name (denial_errno d))
  | None =>
      match resolve name with
      | None => Err (PathError op name ENOENT)
      | Some p =>
          match walk making r name with
          | Some e => Err (PathError op name e)
          | None =>
              match k p with
              | Found a => Ok a
              | Fails e => Err (PathError op name e)
              end
          end
      end
  end.

(** A call that changes the tree, or fails and leaves it as it is. *)
Definition update (sc : syscall) (op : string) (making : bool)
    (name : string) (f : list string → node → found node)
  : M (option error) :=
  λ s, match on_path sc op making name (root s) (λ p, f p (root s)) with
       | Ok r' => Ret None {| root := r'; stdout := stdout s |}
       | Err e => Ret (Some e) s
       end.

(** The node that a path name denotes in a state. *)
Definition node_at (s : state) (name : string) : found node :=
  match resolve name with
  | Some p =>
      match walk false (root s) name with
      | Some e => Fails e
      | None => fs.lookup p (root s)
      end
  | None => Fails ENOENT
  end.

(** What [os.Stat] answers for a path name in a state. *)
Definition stat (s : state) (name : string) : result FileInfo :=
  on_path SysStat "stat" false name (root s)
    (λ p, match fs.lookup p (root s) with
          | Found n => Found (file_info (env_dirsize E) n)
          | Fails e => Fails e
          end).

Definition os_Stat (name : string) : M (result FileInfo) :=
  λ s, Ret (stat s name) s.

(** An [open] with [O_CREAT] of a name that ends in a separator fails
    with EISDIR, once the directory of the last name is found. *)
Definition creat (name : string) (f : option node → found (option node))
  : option node → found (option node) :=
  if fs.trailing (filepath.elements name) then λ _, Fails EISDIR else f.

(** [os.Create]: open with [O_RDWR|O_CREATE|O_TRUNC], mode 0666 before
    umask.  The returned handle is never used by the callers. *)
Definition os_Create (name : string) : M (option error) :=
  update SysCreate "open" true name
    (fs.modify
       (creat name
          (λ o, match o with
                | None =>
                    Found (Some (File (N.ldiff mode_0666 (env_umask E)) ""))
                | Some (File m _) => Found (Some (File m ""))
                | Some (Dir _ _) => Fails EISDIR
                end))).

Definition os_Mkdir (name : string) (perm : N) : M (option error) :=
  update SysMkdir "mkdir" true name
    (fs.modify (λ o, match o with
                     | None => Found (Some (Dir (N.ldiff perm (env_umask E)) ∅))
                     | Some _ => Fails EEXIST
                     end)).

Definition os_Chmod (name : string) (mode : N) : M (option error) :=
  update SysChmod "chmod" false name
    (fs.modify (λ o, match o with
                     | None => Fails ENOENT
                     | Some (File _ data) => Found (Some (File mode data))
                     | Some (Dir _ es) => Found (Some (Dir mode es))
                     end)).

(** [ioutil.WriteFile]: open with [O_WRONLY|O_CREATE|O_TRUNC] and write;
    [perm] only counts when the file is created. *)
Definition ioutil_WriteFile (name : string) (data : string) (perm : N)
  : M (option error) :=
  update SysWriteFile "open" true name
    (fs.modify
       (creat name
          (λ o, match o with
                | None =>
                    Found (Some (File (N.ldiff perm (env_umask E)) data))
                | Some (File m _) => Found (Some (File m data))
                | Some (Dir _ _) => Fails EISDIR
                end))).

(** [os.RemoveAll] removes the path and any children it contains; a path
    that does not exist, and the empty path, are no error, and a path
    that ends in a [.] element is refused.  It removes the children
    before their directory: when the system refuses the removal, the
    path itself stays and some of what is below it may be gone. *)
Definition os_RemoveAll (path : string) : M (option error) :=
  match path with
  | "" => ret None
  | _ =>
      if match last (filepath.elements path) with
         | Some x => String.eqb x "."
         | None => false
         end
      then ret (Some (PathError "RemoveAll" path EINVAL))
      else
        λ s, match env_denied E SysRemoveAll path with
             | Some d =>
                 Ret (Some (PathError "unlinkat" path (denial_errno d)))
                   {| root := match resolve path, walk true (root s) path with
                              | Some p, None =>
                                  fs.without p (env_removed E path) (root s)
                              | _, _ => root s
                              end;
                      stdout := stdout s |}
             | None =>
                 match on_path SysRemoveAll "unlinkat" true path (root s)
                         (λ p, fs.modify (λ _, Found None) p (root s)) with
                 | Ok r' => Ret None {| root := r'; stdout := stdout s |}
                 | Err e =>
                     if os_IsNotExist (Some e) then Ret None s
                     else Ret (Some e) s
                 end
             end
  end.

Definition fmt_Println (err : error) : M unit := print (Println err).

(** Modelled from the spec: [Copy] ([cfg/copy.go] is not among the
    sources).  Section 4.5: recursively copy every file and subdirectory
    from the source root to the destination root, preserving relative
    structure; the copy must not partially create the destination if the
    source tree cannot be fully read.  So the copy either fails and
    leaves the tree as it is, or puts the whole source tree at the
    destination, which has to be free; the directories missing above the
    destination are made with the default directory mode. *)
Definition Copy (src dest : string) : M (option error) :=
  λ s, match env_denied E SysCopy src, env_denied E SysCopy dest with
       | Some d, _ => Ret (Some (PathError "copy" src (denial_errno d))) s
       | None, Some d => Ret (Some (PathError "copy" dest (denial_errno d))) s
       | None, None =>
           match resolve src, resolve dest with
           | Some ps, Some pd =>
               match walk false (root s) src, walk true (root s) dest with
               | Some e, _ => Ret (Some (PathError "copy" src e)) s
               | None, Some e => Ret (Some (PathError "copy" dest e)) s
               | None, None =>
                   match fs.lookup ps (root s) with
                   | Fails e => Ret (Some (PathError "copy" src e)) s
                   | Found tree =>
                       match fs.place (N.ldiff os_ModePerm (env_umask E))
                               pd tree (root s) with
                       | Found r' =>
                           Ret None {| root := r'; stdout := stdout s |}
                       | Fails e => Ret (Some (PathError "copy" dest e)) s
                       end
                   end
               end
           | None, _ => Ret (Some (PathError "copy" src ENOENT)) s
           | _, None => Ret (Some (PathError "copy" dest ENOENT)) s
           end
       end.

End OS.

(** ** Package [cfg]: provisioning, permissions, migration *)

Section Cfg.

Variable E : env.

(** The templates [defaultConfigFile] and [defaultSecretsFile] are
    constants of the package that are declared in another file. *)
Variables defaultConfigFile defaultSecretsFile : string.

(** Modelled from the spec: the diagnostic printers
    [displayXdgConfigDirCreateError], [displayWtfConfigDirCreateError],
    [displayDefaultConfigCreateError] and [displayDefaultConfigWriteError]
    (not among the sources).  Section 7: a user-facing diagnostic that
    names what failed and the underlying cause; they print and return. *)
Definition displayXdgConfigDirCreateError (err : error) : M unit :=
  print (XdgConfigDirCreateError err).
Definition displayWtfConfigDirCreateError (err : error) : M unit :=
  print (WtfConfigDirCreateError err).
Definition displayDefaultConfigCreateError (err : error) : M unit :=
  print (DefaultConfigCreateError err).
Definition displayDefaultConfigWriteError (err : option error) : M unit :=
  print (DefaultConfigWriteError err).

(** [CreateFile] creates the named file in the config directory, if it
    does not already exist.  If the file exists it does not recreate it.
    If successful, returns the absolute path to the file; if
    unsuccessful, returns an error. *)
Definition CreateFile (fileName : string) : M (string * option error) :=
  match WtfConfigDir (env_user E) with
  | (_, Some err) => ret ("", Some err)
  | (configDir, None) =>
      let filePath := configDir +:+ "/" +:+ fileName in
      (* Check if the file already exists; if it does not, create it *)
      let* st := os_Stat E filePath in
      match error_of st with
      | Some err =>
          if os_IsNotExist (Some err) then
            let* err' := os_Create E filePath in
            match err' with
            | Some e => ret ("", Some e)
            | None => ret (filePath, None)
            end
          else ret ("", Some err)
      | None => ret (filePath, None)
      end
  end.

(** [chmodConfigFile] sets the mode of the config file to r+w for the
    owner only. *)
Definition chmodConfigFile : M unit :=
  let relPath := WtfConfigDirV2 +:+ WtfConfigFile in
  let absPath := fst (expandHomeDir (env_user E) relPath) in
  let* st := os_Stat E absPath in
  if os_IsNotExist (error_of st) then ret tt
  else
    let* err := os_Chmod E absPath mode_0600 in
    match err with
    | Some _ => ret tt
    | None => ret tt
    end.

(** [chmodSecretsFile] sets the mode of the secrets file to r+w for the
    owner only. *)
Definition chmodSecretsFile : M unit :=
  let relPath := WtfConfigDirV2 +:+ WtfSecretsFile in
  let absPath := fst (expandHomeDir (env_user E) relPath) in
  let* st := os_Stat E absPath in
  if os_IsNotExist (error_of st) then ret tt
  else
    let* err := os_Chmod E absPath mode_0600 in
    match err with
    | Some _ => ret tt
    | None => ret tt
    end.

(** [createXdgConfigDir] creates the necessary base directory for storing
    the config file.  If ~/.config is missing, it will try to create it. *)
Definition createXdgConfigDir : M unit :=
  let xdgConfigDir := fst (expandHomeDir (env_user E) XdgConfigDir) in
  let* st := os_Stat E xdgConfigDir in
  if os_IsNotExist (error_of st) then
    let* err := os_Mkdir E xdgConfigDir os_ModePerm in
    match err with
    | Some e => run displayXdgConfigDirCreateError e then os_Exit 1
    | None => ret tt
    end
  else ret tt.

(** [createWtfConfigDir] creates the necessary directories for storing
    the default config file.  If ~/.config/wtf is missing, it will try to
    create it. *)
Definition createWtfConfigDir : M unit :=
  let wtfConfigDir := fst (WtfConfigDir (env_user E)) in
  let* st := os_Stat E wtfConfigDir in
  if os_IsNotExist (error_of st) then
    let* err := os_Mkdir E wtfConfigDir os_ModePerm in
    match err with
    | Some e => run displayWtfConfigDirCreateError e then os_Exit 1
    | None => ret tt
    end
  else ret tt.

(** The common body of [createWtfConfigFile] and [createWtfSecretsFile]:
    they differ in the file name and in the template only. *)
Definition createDefaultFile (name template : string) : M unit :=
  let* r := CreateFile name in
  match r with
  | (_, Some err) => run displayDefaultConfigCreateError err then os_Exit 1
  | (filePath, None) =>
      (* If the file is empty, write to it *)
      let* st := os_Stat E filePath in
      match st with
      | Err _ => panic nil_dereference          (* file is nil *)
      | Ok file =>
          if (Size file =? 0)%Z then
            let* werr := ioutil_WriteFile E filePath template mode_0600 in
            match werr with
            | Some _ =>
                (* err is the nil error of CreateFile here *)
                run displayDefaultConfigWriteError None then os_Exit 1
            | None => ret tt
            end
          else ret tt
      end
  end.

(** [createWtfConfigFile] creates a simple config file in the config
    directory if one does not already exist. *)
Definition createWtfConfigFile : M unit :=
  createDefaultFile WtfConfigFile defaultConfigFile.

(** [createWtfSecretsFile] creates a simple secrets file in the config
    directory if one does not already exist. *)
Definition createWtfSecretsFile : M unit :=
  createDefaultFile WtfSecretsFile defaultSecretsFile.

(** [migrateOldConfig] copies any existing configuration from the old
    location to the new, XDG-compatible location. *)
Definition migrateOldConfig : M unit :=
  let srcDir := fst (expandHomeDir (env_user E) WtfConfigDirV1) in
  let destDir := fst (expandHomeDir (env_user E) WtfConfigDirV2) in
  (* If the old config directory doesn't exist, do not move *)
  let* st := os_Stat E srcDir in
  if os_IsNotExist (error_of st) then ret tt
  else
    (* If the new config directory already exists, do not move *)
    let* st := os_Stat E destDir in
    match error_of st with
    | None => ret tt
    | Some _ =>
        (* Time to move *)
        let* err := Copy E srcDir destDir in
        match err with
        | Some e => panic e
        | None =>
            (* Delete the old directory if the new one exists *)
            let* st := os_Stat E destDir in
            match error_of st with
            | None =>
                let* err := os_RemoveAll E srcDir in
                match err with
                | Some e => fmt_Println e
                | None => ret tt
                end
            | Some _ => ret tt
            end
        end
    end.

(** [Initialize] takes care of settings up the initial state of WTF
    configuration.  It ensures necessary directories and files exist. *)
Definition Initialize (hasCustom : bool) : M unit :=
  run (if negb hasCustom then migrateOldConfig else ret tt) then
  (* These always get created because this is where modules should write
     any permanent data they need to persist between runs *)
  run createXdgConfigDir then
  run createWtfConfigDir then
  if negb hasCustom then
    run createWtfConfigFile then
    run chmodConfigFile then
    chmodSecretsFile
  else ret tt.

End Cfg.

(** ** Package [security]: the stealth-state probe *)

Module security.

(** [exec.Cmd], as far as the probe builds it. *)
Record Cmd := { Path : string; Args : list string }.

Definition exec_Command (name : string) (args : list string) : Cmd :=
  {| Path := name; Args := args |}.

Definition osxFirewallCmd : string :=
  "/usr/libexec/ApplicationFirewall/socketfilterfw".

(** [strings.Contains]. *)
Definition strings_Contains (s substr : string) : bool :=
  match String.index 0 substr s with
  | Some _ => true
  | None => false
  end.

Definition statusLabel (str : string) : string :=
  if strings_Contains str "enabled" then "on" else "off".

Section Probe.

(** [runtime.GOOS], and the output that [utils.ExecuteCommand] (another
    package) collects from a command. *)
Variable GOOS : string.
Variable ExecuteCommand : Cmd → string.

Definition firewallStealthStateLinux : string := "[white]N/A[white]".

Definition firewallStealthStateMacOS : string :=
  let cmd := exec_Command osxFirewallCmd ["--getstealthmode"] in
  let str := ExecuteCommand cmd in
  statusLabel str.

Definition firewallStealthStateWindows : string := "[white]N/A[white]".

Definition FirewallStealthState : string :=
  if String.eqb GOOS "linux" then firewallStealthStateLinux
  else if String.eqb GOOS "darwin" then firewallStealthStateMacOS
  else if String.eqb GOOS "windows" then firewallStealthStateWindows
  else "".

End Probe.

Section State.

(** [runtime.GOOS]; what [cmd.Run()] leaves in the buffer attached to
    the standard output and the error it returns; the output that
    [utils.ExecuteCommand] (another package) collects; and
    [strings.TrimSpace], which trims white space as Unicode defines
    it. *)
Variable GOOS : string.
Variable cmd_Run : Cmd → string * option error.
Variable ExecuteCommand : Cmd → string.
Variable strings_TrimSpace : string → string.

(** This function requires UFW, and configuration to allow
    "ufw status" without a sudo password. *)
Definition firewallStateLinux : string :=
  let cmd := exec_Command "sudo" ["ufw"; "status"] in
  let (o, err) := cmd_Run cmd in
  match err with
  | Some _ => "[red]Config Needed[white]"
  | None =>
      if strings_Contains o "inactive" then "[red]Disabled[white]"
      else "[green]Enabled[white]"
  end.

Definition firewallStateMacOS : string :=
  let cmd := exec_Command osxFirewallCmd ["--getglobalstate"] in
  let str := ExecuteCommand cmd in
  statusLabel str.

Definition firewallStateWindows : string :=
  let cmd :=
    exec_Command "powershell.exe"
      ["-NoProfile"; "-Command";
       "& { ((Get-NetFirewallProfile | select name,enabled) | where { $_.Enabled -eq $True } | measure ).Count }"] in
  let fwStat := ExecuteCommand cmd in
  let fwStat := strings_TrimSpace fwStat in
  if String.eqb fwStat "3" then "[green]Good[white] (3/3)"
  else if String.eqb fwStat "2" then "[orange]Poor[white] (2/3)"
  else if String.eqb fwStat "1" then "[yellow]Bad[white] (1/3)"
  else if String.eqb fwStat "0" then "[red]Disabled[white]"
  else "[white]N/A[white]".

Definition FirewallState : string :=
  if String.eqb GOOS "linux" then firewallStateLinux
  else if String.eqb GOOS "darwin" then firewallStateMacOS
  else if String.eqb GOOS "windows" then firewallStateWindows
  else "".

End State.

End security.

(** ** Where the configuration lives *)

(** The path elements, from the root, of the home directory [h]: cleaned
    as [filepath.Join] cleans it, then resolved as the system resolves a
    path name. *)
Definition home_elements (E : env) (h : string) : list string :=
  rev (filepath.clean_elements true
         (if filepath.rooted h then [] else rev (env_wd E))
         (rev (filepath.clean_elements (filepath.rooted h) []
                 (filepath.elements h)))).

(** The legacy root and the configuration root, as the procedures
    resolve them. *)
Definition legacy_root (E : env) : string :=
  fst (expandHomeDir (env_user E) WtfConfigDirV1).
Definition config_root (E : env) : string :=
  fst (expandHomeDir (env_user E) WtfConfigDirV2).

(** The default config file and the secrets file, as the permission
    enforcer resolves them. *)
Definition config_file (E : env) : string :=
  fst (expandHomeDir (env_user E) (WtfConfigDirV2 +:+ WtfConfigFile)).
Definition secrets_file (E : env) : string :=
  fst (expandHomeDir (env_user E) (WtfConfigDirV2 +:+ WtfSecretsFile)).

Arguments legacy_root : simpl never.
Arguments config_root : simpl never.
Arguments config_file : simpl never.
Arguments secrets_file : simpl never.

(** The state has no secrets file. *)
Definition no_secrets (E : env) (s : state) : Prop :=
  ∀ n, node_at E s (secrets_file E) ≠ Found n.

(** The system does not refuse the call [sc] on [name]. *)
Definition permits (E : env) (sc : syscall) (name : string) : Prop :=
  env_denied E sc name = None.

(** The system refuses neither the copy of the legacy root to the
    configuration root nor the removal of the legacy root. *)
Definition migration_permitted (E : env) : Prop :=
  permits E SysCopy (legacy_root E)
  ∧ permits E SysCopy (config_root E)
  ∧ permits E SysRemoveAll (legacy_root E).

(** A real path element: not empty, not [.] and not [..]. *)
Definition regular_name (x : string) : Prop :=
  x ≠ "" ∧ x ≠ "." ∧ x ≠ "..".

(** A name that can stand as one element of a cleaned path. *)
Definition plain_name (x : string) : Prop :=
  filepath.elements x = [x] ∧ x ≠ "".

(** A path name as [filepath.Join] leaves it, also with names added at
    its end: the root or [..] elements first, then real elements. *)
Definition plain_path (name : string) : Prop :=
  ∃ pre regs, filepath.elements name = (pre ++ regs)%list
              ∧ Forall (λ x, fs.special x = true) pre
              ∧ Forall regular_name regs
              ∧ regs ≠ [].

(** ** How the tree may change *)

Definition node_mode (n : node) : N :=
  match n with
  | File m _ => m
  | Dir m _ => m
  end.

Definition same_kind (n n' : node) : Prop :=
  match n, n' with
  | File _ _, File _ _ => True
  | Dir _ _, Dir _ _ => True
  | _, _ => False
  end.

(** A change of a directory entry that removes nothing: it keeps a file a
    file, and a directory a directory with the entries it has. *)
Definition gentle (f : option node → found (option node)) : Prop :=
  (∀ o, f o ≠ Found None)
  ∧ (∀ m es o, f (Some (Dir m es)) = Found o → ∃ m', o = Some (Dir m' es))
  ∧ (∀ m data o,
       f (Some (File m data)) = Found o → ∃ m' data', o = Some (File m' data')).

(** The tree [r'] has everything that [r] has: what is found in [r] is
    found in [r'], of the same kind, and a path that runs into a file in
    [r] runs into a file in [r']. *)
Definition grows (r r' : node) : Prop :=
  ∀ q, match fs.lookup q r with
       | Found n => ∃ n', fs.lookup q r' = Found n' ∧ same_kind n n'
       | Fails ENOTDIR => fs.lookup q r' = Fails ENOTDIR
       | Fails _ => True
       end.

(** A procedure that returns relates the state it started in to the
    state it returns in. *)
Definition moves {A} (R : state → state → Prop) (m : M A) : Prop :=
  ∀ s a s', m s = Ret a s' → R s s'.

Definition tree_grows (s s' : state) : Prop := grows (root s) (root s').

(** The node at the path elements [p] is not touched. *)
Definition leaves (p : list string) (s s' : state) : Prop :=
  fs.lookup p (root s') = fs.lookup p (root s).

(** States in which a step of the bootstrap has nothing left to do. *)
Definition settled_dir (E : env) (dir : string) (s : state) : Prop :=
  os_IsNotExist (error_of (stat E s dir)) = false.

Definition settled_file (E : env) (path template : string) (s : state)
  : Prop :=
  ∃ n, node_at E s path = Found n
       ∧ permits E SysStat path
       ∧ (Size (file_info (env_dirsize E) n) ≠ 0%Z
          ∨ (∃ m, n = File m "")
            ∧ template = "" ∧ permits E SysWriteFile path).

Definition settled_mode (E : env) (path : string) (s : state) : Prop :=
  ∀ n, node_at E s path = Found n →
       permits E SysChmod path →
       node_mode n = mode_0600.

Definition settled_migration (E : env) (s : state) : Prop :=
  os_IsNotExist (error_of (stat E s (legacy_root E))) = true
  ∨ error_of (stat E s (config_root E)) = None.

(** Every regular file that has content in [s] is in [s'] with that
    content. *)
Definition content_kept (s s' : state) : Prop :=
  ∀ q m data, data ≠ "" →
              fs.lookup q (root s) = Found (File m data) →
              ∃ m', fs.lookup q (root s') = Found (File m' data).

(** A procedure relates the state it starts in to the state it stops
    in, however it stops. *)
Definition always {A} (R : state → state → Prop) (m : M A) : Prop :=
  ∀ s, R s (final (m s)).

(** ** Sample environments and trees *)

Module sample.

Definition alice : User :=
  {| Username := "alice"; HomeDir := "/home/alice" |}.

(** The same user, recorded with a trailing separator in the home path. *)
Definition alice_slash : User :=
  {| Username := "alice"; HomeDir := "/home/alice/" |}.

(** A system that refuses nothing; umask 022. *)
Definition quiet : env :=
  {| env_user := Ok alice; env_wd := []; env_umask := 18;
     env_dirsize := 4096; env_denied := λ _ _, None; env_removed := λ _, [] |}.

(** A system on which no file mode can be changed. *)
Definition no_chmod : env :=
  {| env_user := Ok alice; env_wd := []; env_umask := 18;
     env_dirsize := 4096;
     env_denied := λ sc _, match sc with
                           | SysChmod => Some DenyOwner
                           | _ => None
                           end;
     env_removed := λ _, [] |}.

(** A system on which the home directory cannot be written: a removal
    in it empties a directory and fails on the directory itself. *)
Definition no_remove : env :=
  {| env_user := Ok alice; env_wd := []; env_umask := 18;
     env_dirsize := 4096;
     env_denied := λ sc _, match sc with
                           | SysRemoveAll => Some DenyAccess
                           | _ => None
                           end;
     env_removed := λ _, [["config.yml"]] |}.


Definition tree (home_entries : gmap string node) : state :=
  {| root := Dir 493 {[ "home" := Dir 493 {[ "alice" := Dir 493 home_entries ]} ]};
     stdout := [] |}.

(** A first run: the home directory is empty. *)
Definition fresh : state := tree ∅.

(** Only the legacy layout is there. *)
Definition legacy_only : state :=
  tree {[ ".wtf" := Dir 493 {[ "config.yml" := File 420 "a: 1" ]} ]}.

(** Both layouts are there. *)
Definition both : state :=
  tree {[ ".wtf" := Dir 493 {[ "config.yml" := File 420 "a: 1" ]};
          ".config" := Dir 493 {[ "wtf" := Dir 493
                         {[ "config.yml" := File 384 "b: 2" ]} ]} ]}.

(** The new layout with a config file that everybody may read, next to
    another file. *)
Definition open_config : state :=
  tree {[ ".config" := Dir 493 {[ "wtf" := Dir 493
                         {[ "config.yml" := File 420 "b: 2";
                            "notes.txt" := File 420 "n" ]} ]} ]}.

(** The new layout with an empty secrets file and no config file. *)
Definition empty_secrets : state :=
  tree {[ ".config" := Dir 493 {[ "wtf" := Dir 493
                         {[ "secrets.yml" := File 436 "" ]} ]} ]}.

End sample.


(** * Properties *)

(** ** Path elements and [Clean] *)

Lemma elements_nonempty path : filepath.elements path ≠ [].
Proof.
  destruct path as [|c rest]; simpl; [done|].
  destruct (filepath.IsPathSeparator c); [done|].
  by destruct (filepath.elements rest).
Qed.

(** Splitting distributes over a separator. *)
Lemma elements_app a b :
  filepath.elements (a +:+ "/" +:+ b)
  = (filepath.elements a ++ filepath.elements b)%list.
Proof.
  induction a as [|c a IH]; simpl; [done|].
  destruct (filepath.IsPathSeparator c); [by rewrite IH|].
  rewrite IH.
  pose proof (elements_nonempty a) as Ha.
  by destruct (filepath.elements a).
Qed.

Lemma rooted_app a b : a ≠ "" → filepath.rooted (a +:+ b) = filepath.rooted a.
Proof. by destruct a. Qed.

Lemma clean_elements_app r out xs ys :
  filepath.clean_elements r out (xs ++ ys)%list
  = filepath.clean_elements r (filepath.clean_elements r out xs) ys.
Proof. unfold filepath.clean_elements. apply foldl_app. Qed.

(** A separator at the end of a path does not count for [Clean]. *)
Lemma Clean_trailing_separator path :
  path ≠ "" → filepath.Clean (path +:+ "/") = filepath.Clean path.
Proof.
  intros Hne. unfold filepath.Clean.
  change (path +:+ "/") with (path +:+ "/" +:+ "").
  rewrite (rooted_app path _ Hne), elements_app, clean_elements_app.
  destruct path as [|c rest]; [done|]. reflexivity.
Qed.

(** ** The path resolver *)

(** C5 (as the code has it).  With home directory [/home/alice], the raw
    path [~/.config/wtf/] resolves to [/home/alice/.config/wtf]: the join
    cleans the path, so the trailing separator is dropped. *)
Theorem expandHomeDir_config_dir (name : string) :
  expandHomeDir (Ok {| Username := name; HomeDir := "/home/alice" |})
    "~/.config/wtf/"
  = ("/home/alice/.config/wtf", None).
Proof. reflexivity. Qed.

(** C5 fails as stated: the resolved path does not keep the trailing
    separator. *)
Lemma expandHomeDir_config_dir_no_trailing_separator :
  expandHomeDir (Ok sample.alice) "~/.config/wtf/"
  ≠ ("/home/alice/.config/wtf/", None).
Proof. discriminate. Qed.

(** C6.  A raw path that does not begin with [~] (the empty path
    included) is returned unchanged and without error, whatever the user
    lookup gives. *)
Theorem expandHomeDir_identity (cur : result User) (path : string) :
  String.get 0 path ≠ Some "~"%char →
  expandHomeDir cur path = (path, None).
Proof.
  intros Hfirst. destruct path as [|c0 rest]; [done|].
  simpl in *. destruct (Ascii.eqb_spec c0 "~") as [->|_]; [done|].
  reflexivity.
Qed.

Lemma expandHomeDir_identity_witness :
  expandHomeDir (Ok sample.alice) "/etc/wtf/config.yml"
  = ("/etc/wtf/config.yml", None)
  ∧ expandHomeDir (Err (errorString "user: unknown userid 1000")) ""
    = ("", None).
Proof.
  split.
  - apply (expandHomeDir_identity (Ok sample.alice) "/etc/wtf/config.yml").
    vm_compute. discriminate.
  - apply (expandHomeDir_identity (Err (errorString "user: unknown userid 1000")) "").
    vm_compute. discriminate.
Defined.

(** C7 (as the code has it).  A raw path that begins with [~] followed
    by a character that is neither [/] nor [\] (the two characters that
    the resolver tests for, on every platform) fails with the "cannot
    expand" error and returns no path. *)
Theorem expandHomeDir_invalid_format
    (cur : result User) (c : ascii) (rest : string) :
  c ≠ "/"%char → c ≠ "\"%char →
  expandHomeDir cur (String "~" (String c rest))
  = ("", Some (errors_New "cannot expand user-specific home dir")).
Proof.
  intros Hslash Hback. simpl.
  destruct (Ascii.eqb_spec c "/"); [done|].
  destruct (Ascii.eqb_spec c "\"); [done|].
  reflexivity.
Qed.

Lemma expandHomeDir_invalid_format_witness :
  expandHomeDir (Ok sample.alice) "~bob/.config"
  = ("", Some (errors_New "cannot expand user-specific home dir")).
Proof.
  apply (expandHomeDir_invalid_format (Ok sample.alice) "b" "ob/.config");
    vm_compute; discriminate.
Defined.

(** C7 fails as stated: on the POSIX system [\] is no path separator,
    yet a path that begins with [~\] resolves and no error is returned. *)
Lemma expandHomeDir_backslash_resolves :
  filepath.IsPathSeparator "\" = false
  ∧ expandHomeDir (Ok sample.alice) "~\foo" = ("/home/alice/\foo", None).
Proof. split; reflexivity. Qed.

(** ** The stealth-state probe *)

(** C9 (as the code has it).  On Linux and on Windows the stealth query
    returns the "not applicable" label; on a platform that is none of
    linux, darwin and windows it returns the empty string. *)
Theorem FirewallStealthState_not_applicable
    (GOOS : string) (ExecuteCommand : security.Cmd → string) :
  (GOOS = "linux" ∨ GOOS = "windows" →
   security.FirewallStealthState GOOS ExecuteCommand = "[white]N/A[white]")
  ∧ (GOOS ≠ "linux" → GOOS ≠ "darwin" → GOOS ≠ "windows" →
     security.FirewallStealthState GOOS ExecuteCommand = "").
Proof.
  unfold security.FirewallStealthState. split.
  - by intros [-> | ->].
  - intros Hl Hd Hw.
    destruct (String.eqb_spec GOOS "linux"); [done|].
    destruct (String.eqb_spec GOOS "darwin"); [done|].
    by destruct (String.eqb_spec GOOS "windows").
Qed.

Lemma FirewallStealthState_not_applicable_witness :
  security.FirewallStealthState "windows" (λ _, "") = "[white]N/A[white]"
  ∧ security.FirewallStealthState "plan9" (λ _, "") = "".
Proof.
  split.
  - apply (FirewallStealthState_not_applicable "windows" (λ _, "")).
    right. reflexivity.
  - apply (FirewallStealthState_not_applicable "plan9" (λ _, ""));
      vm_compute; discriminate.
Defined.

(** C9 fails as stated: FreeBSD has no stealth mode either, and there the
    query returns the empty string. *)
Lemma FirewallStealthState_empty_on_freebsd :
  security.FirewallStealthState "freebsd" (λ _, "Stealth mode enabled") = ""
  ∧ security.FirewallStealthState "freebsd" (λ _, "Stealth mode enabled")
    ≠ "[white]N/A[white]".
Proof. split; [reflexivity | discriminate]. Qed.

(** ** The file tree *)

Section Tree.

Implicit Types (p q : list string) (n r : node) (c : string).

Lemma lookup_app p q r :
  fs.lookup (p ++ q) r
  = match fs.lookup p r with
    | Found n => fs.lookup q n
    | Fails e => Fails e
    end.
Proof.
  revert r. induction p as [|c p IH]; intros r; simpl; [done|].
  destruct r as [|m es]; [done|]. by destruct (es !! c).
Qed.

Lemma lookup_chain perm p new :
  fs.lookup p (fs.chain perm p new) = Found new.
Proof.
  induction p as [|c p IH]; simpl; [done|].
  by rewrite lookup_singleton_eq.
Qed.

(** A call on a path that leads nowhere fails when it needs the node. *)
Lemma modify_missing f p r e :
  fs.lookup p r = Fails e →
  (∃ e', f None = Fails e') →
  ∃ e', fs.modify f p r = Fails e'.
Proof.
  intros Hl [e0 Hf]. revert r Hl.
  induction p as [|c p IH]; intros r Hl; simpl in *; [done|].
  destruct r as [|m es]; [by eexists|].
  destruct p as [|c' p].
  - destruct (es !! c) eqn:Hc; [done|]. rewrite Hf. by eexists.
  - destruct (es !! c) as [ch|] eqn:Hc; [|by eexists].
    destruct (IH ch Hl) as [e' ->]. by eexists.
Qed.

(** After a change at [p] that leaves a node there, the node is found. *)
Lemma modify_lookup f p r r' :
  fs.modify f p r = Found r' →
  (∀ o, f o ≠ Found None) →
  ∃ o n, f o = Found (Some n) ∧ fs.lookup p r' = Found n.
Proof.
  intros Hm Hf. revert r r' Hm.
  induction p as [|c p IH]; intros r r' Hm; simpl in *.
  - destruct (f (Some r)) as [[n|]|] eqn:Hfr;
      try (by apply Hf in Hfr); simplify_eq.
    by exists (Some r), r'.
  - destruct r as [|m es]; [done|].
    destruct p as [|c' p].
    + destruct (f (es !! c)) as [[n|]|] eqn:Hfr;
        try (by apply Hf in Hfr); simplify_eq.
      exists (es !! c), n. split; [done|].
      simpl. by rewrite lookup_partial_alter_eq.
    + destruct (es !! c) as [ch|] eqn:Hc; [|done].
      destruct (fs.modify f (c' :: p) ch) as [ch'|] eqn:Hch; simplify_eq.
      destruct (IH _ _ Hch) as (o & n & Ho & Hl).
      exists o, n. split; [done|].
      cbv beta iota. by rewrite lookup_insert_eq.
Qed.

(** Making a new entry disturbs no file that was there. *)
Lemma modify_keeps_files f p r r' q m data :
  fs.lookup p r = Fails ENOENT →
  fs.modify f p r = Found r' →
  fs.lookup q r = Found (File m data) →
  fs.lookup q r' = Found (File m data).
Proof.
  revert r r' q. induction p as [|c p IH]; intros r r' q Hl Hm Hq;
    simpl in Hl, Hm; [done|].
  destruct r as [|mr es]; [done|].
  destruct q as [|c2 q]; [done|]. simpl in Hq.
  destruct p as [|c' p].
  - destruct (es !! c) eqn:Hc; [done|].
    destruct (f None) as [o|]; simplify_eq. simpl.
    destruct (decide (c = c2)) as [->|Hne].
    + by rewrite Hc in Hq.
    + by rewrite lookup_partial_alter_ne.
  - destruct (es !! c) as [ch|] eqn:Hc; [|done].
    destruct (fs.modify f (c' :: p) ch) as [ch'|] eqn:Hch; simplify_eq.
    simpl. destruct (decide (c = c2)) as [->|Hne].
    + rewrite lookup_insert_eq. rewrite Hc in Hq. by eapply IH.
    + by rewrite lookup_insert_ne.
Qed.

(** A change below [base/a] is not seen below [base/b]. *)
Lemma modify_frame f base a b t1 t2 r r' :
  fs.modify f (base ++ a :: t1) r = Found r' →
  a ≠ b →
  fs.lookup (base ++ b :: t2) r' = fs.lookup (base ++ b :: t2) r.
Proof.
  intros Hm Hne. revert r r' Hm.
  induction base as [|c base IH]; intros r r' Hm; simpl in Hm.
  - destruct r as [|m es]; [done|].
    destruct t1 as [|c' t1].
    + destruct (f (es !! a)) as [o|]; simplify_eq. simpl.
      by rewrite lookup_partial_alter_ne.
    + destruct (es !! a) as [ch|]; [|done].
      destruct (fs.modify f (c' :: t1) ch) as [ch'|]; simplify_eq.
      simpl. by rewrite lookup_insert_ne.
  - destruct r as [|m es]; [done|].
    remember (base ++ a :: t1)%list as rest eqn:Hrest in Hm.
    destruct rest as [|c' rest]; [by destruct base|].
    destruct (es !! c) as [ch|] eqn:Hc; [|done].
    destruct (fs.modify f (c' :: rest) ch) as [ch'|] eqn:Hch; simplify_eq.
    simpl. rewrite lookup_insert_eq, Hc. apply IH. by rewrite <- Hrest.
Qed.

(** Removing what is at [p] succeeds and leaves nothing there. *)
Lemma modify_remove p r n :
  p ≠ [] →
  fs.lookup p r = Found n →
  ∃ r', fs.modify (λ _, Found None) p r = Found r'
        ∧ fs.lookup p r' = Fails ENOENT.
Proof.
  revert r. induction p as [|c p IH]; intros r Hp Hl; [done|].
  simpl in *. destruct r as [|m es]; [done|].
  destruct (es !! c) as [ch|] eqn:Hc; [|done].
  destruct p as [|c' p].
  - eexists. split; [done|]. simpl. by rewrite lookup_partial_alter_eq.
  - destruct (IH ch) as (ch' & -> & Hgone); [done..|].
    eexists. split; [done|].
    cbv beta iota. by rewrite lookup_insert_eq.
Qed.

(** Placing a tree at a free path succeeds and the tree is found there. *)
Lemma place_lookup perm p new r :
  fs.lookup p r = Fails ENOENT →
  ∃ r', fs.place perm p new r = Found r' ∧ fs.lookup p r' = Found new.
Proof.
  revert r. induction p as [|c p IH]; intros r Hl; [done|].
  simpl in *. destruct r as [|m es]; [done|].
  destruct (es !! c) as [ch|] eqn:Hc.
  - destruct (IH ch Hl) as (ch' & -> & Hnew).
    eexists. split; [done|]. simpl. by rewrite lookup_insert_eq.
  - eexists. split; [done|]. simpl.
    rewrite lookup_insert_eq. apply lookup_chain.
Qed.

Lemma place_frame perm base a b t1 t2 new r r' :
  fs.place perm (base ++ a :: t1) new r = Found r' →
  a ≠ b →
  fs.lookup (base ++ b :: t2) r' = fs.lookup (base ++ b :: t2) r.
Proof.
  intros Hm Hne. revert r r' Hm.
  induction base as [|c base IH]; intros r r' Hm; simpl in Hm.
  - destruct r as [|m es]; [done|].
    destruct (es !! a) as [ch|].
    + destruct (fs.place perm t1 new ch) as [ch'|]; simplify_eq.
      simpl. by rewrite lookup_insert_ne.
    + simplify_eq. simpl. by rewrite lookup_insert_ne.
  - destruct r as [|m es]; [done|].
    destruct (es !! c) as [ch|] eqn:Hc.
    + destruct (fs.place perm (base ++ a :: t1) new ch) as [ch'|] eqn:Hch;
        simplify_eq.
      simpl. rewrite lookup_insert_eq, Hc. by apply IH.
    + simplify_eq. simpl. rewrite lookup_insert_eq, Hc.
      (* nothing was below [c]: the fresh chain has only [a] there *)
      clear IH Hc. induction base as [|c2 base IH]; simpl.
      * by rewrite lookup_singleton_ne.
      * rewrite lookup_singleton_eq. apply IH.
Qed.

End Tree.

(** ** Changes that remove nothing *)

Section Grows.

Implicit Types (p q : list string) (n r : node) (c : string).

Lemma same_kind_refl n : same_kind n n.
Proof. by destruct n. Qed.

Lemma same_kind_trans n1 n2 n3 :
  same_kind n1 n2 → same_kind n2 n3 → same_kind n1 n3.
Proof. by destruct n1, n2, n3. Qed.

Lemma grows_refl r : grows r r.
Proof.
  intros q. destruct (fs.lookup q r) as [n|[]] eqn:Hq; try done.
  exists n. split; [done|apply same_kind_refl].
Qed.

Lemma lookup_fails q r e :
  fs.lookup q r = Fails e → e = ENOENT ∨ e = ENOTDIR.
Proof.
  revert r. induction q as [|c q IH]; intros r Hq; simpl in Hq; [done|].
  destruct r as [|m es]; [by simplify_eq; right|].
  destruct (es !! c) as [ch|]; [by eapply IH|by simplify_eq; left].
Qed.

Lemma grows_trans r1 r2 r3 : grows r1 r2 → grows r2 r3 → grows r1 r3.
Proof.
  intros H12 H23 q. specialize (H12 q). specialize (H23 q).
  destruct (fs.lookup q r1) as [n1|e1] eqn:Hq1.
  - destruct H12 as (n2 & Hq2 & Hk12). rewrite Hq2 in H23.
    destruct H23 as (n3 & Hq3 & Hk23). exists n3. split; [done|].
    by eapply same_kind_trans.
  - destruct e1; try done. by rewrite H12 in H23.
Qed.

(** What is found stays found. *)
Lemma grows_found r r' q n :
  grows r r' → fs.lookup q r = Found n →
  ∃ n', fs.lookup q r' = Found n' ∧ same_kind n n'.
Proof. intros Hg Hq. specialize (Hg q). by rewrite Hq in Hg. Qed.

(** What is absent afterwards was absent before. *)
Lemma grows_absent r r' q :
  grows r r' → fs.lookup q r' = Fails ENOENT → fs.lookup q r = Fails ENOENT.
Proof.
  intros Hg Hq. specialize (Hg q).
  destruct (fs.lookup q r) as [n|e] eqn:Hq0.
  - destruct Hg as (n' & Hq' & _). congruence.
  - destruct (lookup_fails _ _ _ Hq0) as [->| ->]; [done|]. congruence.
Qed.

(** Replacing a node by one of the same shape. *)
Lemma grows_node n n' :
  (match n with
   | File _ _ => ∃ m' data', n' = File m' data'
   | Dir _ es => ∃ m', n' = Dir m' es
   end) →
  grows n n'.
Proof.
  intros Hshape q. destruct n as [m data|m es].
  - destruct Hshape as (m' & data' & ->). by destruct q; [eexists|].
  - destruct Hshape as (m' & ->). destruct q as [|c q]; [by eexists|].
    simpl. destruct (es !! c) as [ch|]; [|done]. apply (grows_refl ch q).
Qed.

Lemma grows_entry m es c ch' :
  match es !! c with
  | Some ch => grows ch ch'
  | None => True
  end →
  grows (Dir m es) (Dir m (<[c := ch']> es)).
Proof.
  intros Hch q. destruct q as [|c2 q]; [by eexists|]. simpl.
  destruct (decide (c = c2)) as [->|Hne].
  - rewrite lookup_insert_eq. destruct (es !! c2) as [ch|]; [|done].
    apply (Hch q).
  - rewrite lookup_insert_ne by done.
    destruct (es !! c2) as [ch|]; [|done]. apply (grows_refl ch q).
Qed.

(** A gentle change makes the tree grow. *)
Lemma modify_grows f p r r' :
  gentle f → fs.modify f p r = Found r' → grows r r'.
Proof.
  intros (Hkeep & Hdir & Hfile).
  assert (∀ n o, f (Some n) = Found o → ∃ n', o = Some n' ∧ grows n n') as Hnode.
  { intros n o Hf. destruct o as [n'|]; [|by apply Hkeep in Hf].
    exists n'. split; [done|]. apply grows_node. destruct n as [m data|m es].
    - by destruct (Hfile _ _ _ Hf) as (m' & data' & [= ->]); eauto.
    - by destruct (Hdir _ _ _ Hf) as (m' & [= ->]); eauto. }
  revert r r'. induction p as [|c p IH]; intros r r' Hm; simpl in Hm.
  - destruct (f (Some r)) as [o|] eqn:Hf; [|done].
    destruct (Hnode _ _ Hf) as (n' & -> & Hg). by simplify_eq.
  - destruct r as [|m es]; [done|].
    destruct p as [|c' p].
    + destruct (f (es !! c)) as [o|] eqn:Hf; simplify_eq.
      destruct o as [n'|]; [|by apply Hkeep in Hf].
      replace (partial_alter (λ _, Some n') c es) with (<[c := n']> es)
        by done.
      apply grows_entry. destruct (es !! c) as [ch|] eqn:Hc; [|done].
      by destruct (Hnode _ _ Hf) as (n'' & [= <-] & Hg).
    + destruct (es !! c) as [ch|] eqn:Hc; [|done].
      destruct (fs.modify f (c' :: p) ch) as [ch'|] eqn:Hch; simplify_eq.
      apply grows_entry. rewrite Hc. by eapply IH.
Qed.

End Grows.

Lemma gentle_mkdir mode :
  gentle (λ o, match o with
               | None => Found (Some (Dir mode ∅))
               | Some _ => Fails EEXIST
               end).
Proof. split; [by intros [|]|]. by split. Qed.

Lemma gentle_create mode data :
  gentle (λ o, match o with
               | None => Found (Some (File mode data))
               | Some (File m _) => Found (Some (File m data))
               | Some (Dir _ _) => Fails EISDIR
               end).
Proof.
  split; [by intros [[]|]|]. split; [done|].
  intros m d o [= <-]. by eexists _, _.
Qed.

Lemma gentle_chmod mode :
  gentle (λ o, match o with
               | None => Fails ENOENT
               | Some (File _ data) => Found (Some (File mode data))
               | Some (Dir _ es) => Found (Some (Dir mode es))
               end).
Proof.
  split; [by intros [[]|]|]. split.
  - intros m es o [= <-]. by eexists.
  - intros m d o [= <-]. by eexists _, _.
Qed.

Lemma gentle_creat name f : gentle f → gentle (creat name f).
Proof.
  intros Hf. unfold creat.
  destruct (fs.trailing (filepath.elements name)); [|done].
  split; [done|]. by split.
Qed.

(** ** Resolving the joined paths *)

Lemma elements_plain path : Forall (λ x, filepath.elements x = [x]) (filepath.elements path).
Proof.
  induction path as [|c rest IH]; simpl; [by repeat constructor|].
  destruct (filepath.IsPathSeparator c) eqn:Hc; [by constructor|].
  destruct (filepath.elements rest) as [|x xs]; simpl.
  - repeat constructor. simpl. by rewrite Hc.
  - inversion IH as [|? ? Hx Hxs]; subst. constructor; [|done].
    simpl. by rewrite Hc, Hx.
Qed.

Lemma clean_step_plain r out x :
  Forall plain_name out → filepath.elements x = [x] →
  Forall plain_name (filepath.clean_step r out x).
Proof.
  intros Hout Hx. unfold filepath.clean_step.
  destruct (String.eqb_spec x "") as [|Hne]; [done|].
  destruct (String.eqb_spec x ".") as [|_]; [done|].
  destruct (String.eqb_spec x "..") as [->|_].
  - destruct out as [|y out].
    + destruct r; [done|]. by repeat constructor.
    + destruct (String.eqb_spec y "..") as [|_].
      * destruct r; [done|]. constructor; [done|done].
      * by inversion Hout.
  - by constructor.
Qed.

Lemma clean_elements_plain r out xs :
  Forall plain_name out →
  Forall (λ x, filepath.elements x = [x]) xs →
  Forall plain_name (filepath.clean_elements r out xs).
Proof.
  intros Hout Hxs. revert out Hout.
  induction Hxs as [|x xs Hx _ IH]; intros out Hout; simpl; [done|].
  apply IH. by apply clean_step_plain.
Qed.

Lemma elements_join l :
  l ≠ [] → Forall plain_name l → filepath.elements (filepath.join l) = l.
Proof.
  intros Hne Hl. induction Hl as [|x l [Hx _] Hl IH]; [done|].
  destruct l as [|y l]; [done|].
  change (filepath.join (x :: y :: l)) with (x +:+ "/" +:+ filepath.join (y :: l)).
  rewrite elements_app, Hx, IH; done.
Qed.

Lemma join_first x l :
  plain_name x →
  filepath.join (x :: l) ≠ "" ∧ filepath.rooted (filepath.join (x :: l)) = false.
Proof.
  intros [Hx Hne]. destruct x as [|c x]; [done|].
  assert (filepath.IsPathSeparator c = false) as Hc.
  { simpl in Hx. by destruct (filepath.IsPathSeparator c). }
  destruct l; simpl; by rewrite ?Hc.
Qed.

Section ResolveJoin.

Variable E : env.

(** The joined path [h/b] denotes the elements of [h] followed by the
    plain names of [b]. *)
Lemma resolve_Join h b tail :
  h ≠ "" →
  tail ≠ [] →
  Forall plain_name tail →
  (∀ r out, filepath.clean_elements r out (filepath.elements b)
            = (rev tail ++ out)%list) →
  (∀ out, filepath.clean_elements true out tail = (rev tail ++ out)%list) →
  resolve E (filepath.Join h b) = Some (home_elements E h ++ tail)%list.
Proof.
  intros Hh Htail Hplain Hb Ht.
  unfold filepath.Join.
  destruct (String.eqb_spec h "") as [|_]; [done|].
  unfold filepath.Clean.
  rewrite (rooted_app h _ Hh), elements_app, clean_elements_app, Hb.
  set (st := filepath.clean_elements (filepath.rooted h) [] (filepath.elements h)).
  assert (Forall plain_name (rev st ++ tail)%list) as Hall.
  { apply Forall_app. split; [|done]. apply Forall_rev.
    apply clean_elements_plain; [done|apply elements_plain]. }
  assert (rev st ++ tail ≠ [])%list as Hnil.
  { intros Heq. apply app_eq_nil in Heq as [_ ?]. done. }
  assert (rev (rev tail ++ st) = rev st ++ tail)%list as Hrev.
  { by rewrite rev_app_distr, rev_involutive. }
  destruct (h +:+ "/" +:+ b) as [|c0 s0] eqn:Hcat.
  { by destruct h. }
  unfold home_elements. fold st.
  destruct (filepath.rooted h) eqn:Hr.
  - rewrite Hrev. unfold resolve.
    change ("/" +:+ ?x) with (String "/" x). cbv beta iota.
    change (filepath.rooted (String "/" _)) with true. cbv beta iota.
    change (filepath.elements (String "/" ?x)) with ("" :: filepath.elements x).
    rewrite elements_join by done.
    change (filepath.clean_elements true [] ("" :: ?l))
      with (filepath.clean_elements true [] l).
    rewrite clean_elements_app, Ht.
    by rewrite rev_app_distr, rev_involutive.
  - destruct (rev tail ++ st)%list as [|y out] eqn:Hout.
    { apply app_eq_nil in Hout as [Hout _].
      by apply (f_equal (@rev string)) in Hout; rewrite rev_involutive in Hout. }
    rewrite Hrev.
    destruct (rev st ++ tail)%list as [|x l] eqn:Hl; [done|].
    inversion Hall as [|? ? Hx _]; subst.
    destruct (join_first x l Hx) as [Hjne Hjr].
    unfold resolve. destruct (filepath.join (x :: l)) as [|c1 s1] eqn:Hj; [done|].
    rewrite Hjr, <- Hj, elements_join, <- Hl by (done || by rewrite Hl).
    rewrite clean_elements_app, Ht.
    by rewrite rev_app_distr, rev_involutive.
Qed.

(** A name below a resolved directory. *)
Lemma resolve_child dir p name :
  resolve E dir = Some p →
  resolve E (dir +:+ "/" +:+ name)
  = Some (rev (filepath.clean_elements true (rev p) (filepath.elements name))).
Proof.
  unfold resolve. intros Hdir.
  destruct dir as [|c dir]; [done|]. simplify_eq.
  change (String c dir +:+ "/" +:+ name)
    with (String c (dir +:+ "/" +:+ name)) at 1. cbv beta iota.
  rewrite (rooted_app (String c dir)) by done.
  rewrite elements_app, clean_elements_app.
  by rewrite rev_involutive.
Qed.

End ResolveJoin.

(** ** What [Clean] leaves *)

Lemma clean_elements_snoc r out xs x :
  filepath.clean_elements r out (xs ++ [x])%list
  = filepath.clean_step r (filepath.clean_elements r out xs) x.
Proof. by rewrite clean_elements_app. Qed.

(** What [Clean] leaves in its buffer: real elements, and for a relative
    path also [..] elements. *)
Lemma clean_step_shape r out x :
  Forall (λ y, regular_name y ∨ (r = false ∧ y = "..")) out →
  Forall (λ y, regular_name y ∨ (r = false ∧ y = ".."))
    (filepath.clean_step r out x).
Proof.
  intros Hout. unfold filepath.clean_step.
  destruct (String.eqb_spec x "") as [|Hempty]; [done|].
  destruct (String.eqb_spec x ".") as [|Hdot]; [done|].
  destruct (String.eqb_spec x "..") as [->|Hdotdot].
  - destruct out as [|y out].
    + destruct r; [done|]. constructor; [by right|done].
    + destruct (String.eqb_spec y "..") as [->|_].
      * destruct r; [done|]. constructor; [by right|done].
      * by inversion Hout.
  - constructor; [by left|done].
Qed.

Lemma clean_elements_shape r xs :
  Forall (λ y, regular_name y ∨ (r = false ∧ y = ".."))
    (filepath.clean_elements r [] xs).
Proof.
  induction xs as [|x xs IH] using rev_ind; [by constructor|].
  rewrite clean_elements_snoc. by apply clean_step_shape.
Qed.

Lemma Clean_unfold path :
  path ≠ "" →
  filepath.Clean path
  = let out := filepath.clean_elements (filepath.rooted path) []
                 (filepath.elements path) in
    if filepath.rooted path then "/" +:+ filepath.join (rev out)
    else match out with [] => "." | _ => filepath.join (rev out) end.
Proof. by destruct path. Qed.

(** ** The home directory itself *)

(** C10 (as the code has it).  For the raw path [~] alone the resolver
    does not fail when the user lookup gives a non-empty home path: it
    returns that path cleaned by [filepath.Clean], which is the home path
    itself whenever the home path is already clean. *)
Theorem expandHomeDir_tilde (u : User) :
  HomeDir u ≠ "" →
  expandHomeDir (Ok u) "~" = (filepath.Clean (HomeDir u), None)
  ∧ (filepath.Clean (HomeDir u) = HomeDir u →
     expandHomeDir (Ok u) "~" = (HomeDir u, None)).
Proof.
  intros Hhome.
  assert (expandHomeDir (Ok u) "~" = (filepath.Clean (HomeDir u), None)) as Heq.
  { simpl. unfold home.
    destruct (String.eqb_spec (HomeDir u) "") as [|_]; [done|].
    unfold filepath.Join.
    destruct (String.eqb_spec (HomeDir u) "") as [|_]; [done|].
    change (HomeDir u +:+ "/" +:+ "") with (HomeDir u +:+ "/").
    by rewrite Clean_trailing_separator. }
  split; [done|].
  intros Hclean. by rewrite Heq, Hclean.
Qed.

Lemma expandHomeDir_tilde_witness :
  expandHomeDir (Ok sample.alice) "~" = ("/home/alice", None)
  ∧ expandHomeDir (Ok sample.alice_slash) "~" = ("/home/alice", None).
Proof.
  split.
  - apply (expandHomeDir_tilde sample.alice); [vm_compute; discriminate|].
    reflexivity.
  - apply (expandHomeDir_tilde sample.alice_slash). vm_compute; discriminate.
Defined.

(** C10 fails as stated: a home path recorded with a trailing separator
    is not returned as it is. *)
Lemma expandHomeDir_tilde_not_home_itself :
  HomeDir sample.alice_slash ≠ ""
  ∧ expandHomeDir (Ok sample.alice_slash) "~"
    ≠ (HomeDir sample.alice_slash, None).
Proof. split; discriminate. Qed.

(** ** The walk of a path name *)

Lemma special_regular x : regular_name x → fs.special x = false.
Proof.
  intros (Hempty & Hdot & Hdotdot). unfold fs.special.
  destruct (String.eqb_spec x ""); [done|].
  destruct (String.eqb_spec x "."); [done|].
  by destruct (String.eqb_spec x "..").
Qed.

Lemma regular_special x : fs.special x = false → regular_name x.
Proof.
  unfold fs.special, regular_name.
  destruct (String.eqb_spec x ""); [done|].
  destruct (String.eqb_spec x "."); [done|].
  by destruct (String.eqb_spec x "..").
Qed.

(** Real elements are never looked up by the walk. *)
Lemma walk_regular r out known xs :
  Forall regular_name xs → fs.walk r out known xs = None.
Proof.
  intros Hxs. revert out known.
  induction Hxs as [|x xs Hx _ IH]; intros out known; simpl; [done|].
  by rewrite (special_regular x Hx).
Qed.

(** Nor are the elements that come before any name. *)
Lemma walk_sorted r out pre regs :
  Forall (λ x, fs.special x = true) pre →
  Forall regular_name regs →
  fs.walk r out true (pre ++ regs) = None.
Proof.
  intros Hpre Hregs. revert out.
  induction Hpre as [|x pre Hx _ IH]; intros out; simpl.
  - by apply walk_regular.
  - rewrite Hx. apply IH.
Qed.

Lemma trimmed_snoc xs x : x ≠ "" → fs.trimmed (xs ++ [x]) = (xs ++ [x])%list.
Proof.
  intros Hx. induction xs as [|y xs IH]; simpl.
  - by destruct (String.eqb_spec x "").
  - rewrite IH. by destruct xs.
Qed.

Lemma trailing_snoc xs x : x ≠ "" → fs.trailing (xs ++ [x]) = false.
Proof.
  intros Hx. unfold fs.trailing. rewrite last_snoc.
  by destruct (String.eqb_spec x "").
Qed.

(** The elements of a plain path end in a real one. *)
Lemma plain_path_last name :
  plain_path name →
  ∃ xs x, filepath.elements name = (xs ++ [x])%list ∧ regular_name x.
Proof.
  intros (pre & regs & Hel & _ & Hregs & Hne).
  destruct regs as [|y regs _] using rev_ind; [done|].
  apply Forall_app in Hregs as [_ Hy]. inversion Hy; subst.
  exists (pre ++ regs)%list, y. by rewrite Hel, app_assoc.
Qed.

Lemma trimmed_plain name :
  plain_path name →
  fs.trimmed (filepath.elements name) = filepath.elements name.
Proof.
  intros (xs & x & -> & Hx & _)%plain_path_last. by apply trimmed_snoc.
Qed.

Lemma trailing_plain name :
  plain_path name → fs.trailing (filepath.elements name) = false.
Proof.
  intros (xs & x & -> & Hx & _)%plain_path_last. by apply trailing_snoc.
Qed.

Lemma creat_plain name f : plain_path name → creat name f = f.
Proof. intros Hname. unfold creat. by rewrite trailing_plain. Qed.

Lemma plain_path_nonempty name : plain_path name → name ≠ "".
Proof.
  intros (pre & regs & Hel & Hpre & Hregs & Hne) ->. simpl in Hel.
  destruct pre as [|x pre].
  - destruct regs as [|y regs]; [done|]. simpl in Hel.
    inversion Hregs as [|? ? [Hy _] _]; subst. by simplify_eq.
  - simplify_eq. destruct pre; [|done]. by destruct regs.
Qed.

(** What [Clean] leaves in its buffer is sorted: real elements on top of
    [..] elements. *)
Lemma clean_step_sorted r regs dd x :
  Forall regular_name regs → Forall (λ y, y = "..") dd →
  ∃ regs' dd', filepath.clean_step r (regs ++ dd) x = (regs' ++ dd')%list
               ∧ Forall regular_name regs' ∧ Forall (λ y, y = "..") dd'.
Proof.
  intros Hregs Hdd. unfold filepath.clean_step.
  destruct (String.eqb_spec x "") as [|Hempty]; [by eauto|].
  destruct (String.eqb_spec x ".") as [|Hdot]; [by eauto|].
  destruct (String.eqb_spec x "..") as [->|Hdotdot].
  - destruct regs as [|y regs]; simpl.
    + destruct dd as [|y dd].
      * destruct r; [by exists [], []|]. exists [], [".."]. by repeat constructor.
      * inversion Hdd; subst. simpl.
        destruct r; [by exists [], (".." :: dd)|].
        exists [], (".." :: ".." :: dd). by repeat constructor.
    + inversion Hregs as [|? ? (_ & _ & Hy) Hregs']; subst.
      destruct (String.eqb_spec y ".."); [done|]. by eauto.
  - exists (x :: regs), dd. split; [done|]. split; [|done].
    by constructor.
Qed.

Lemma clean_elements_sorted r xs :
  ∃ regs dd, filepath.clean_elements r [] xs = (regs ++ dd)%list
             ∧ Forall regular_name regs ∧ Forall (λ y, y = "..") dd.
Proof.
  induction xs as [|x xs IH] using rev_ind; [by exists [], []|].
  destruct IH as (regs & dd & Heq & Hregs & Hdd).
  rewrite clean_elements_snoc, Heq. by apply clean_step_sorted.
Qed.

(** A joined path is plain. *)
Lemma plain_path_Join h b tail :
  h ≠ "" →
  tail ≠ [] →
  Forall plain_name tail →
  Forall regular_name tail →
  (∀ r out, filepath.clean_elements r out (filepath.elements b)
            = (rev tail ++ out)%list) →
  plain_path (filepath.Join h b).
Proof.
  intros Hh Htail Hplain Hreg Hb.
  unfold filepath.Join.
  destruct (String.eqb_spec h "") as [|_]; [done|].
  assert (h +:+ "/" +:+ b ≠ "") as Hcat by by destruct h.
  rewrite (Clean_unfold _ Hcat). cbv zeta.
  rewrite (rooted_app h _ Hh), elements_app, clean_elements_app, Hb.
  pose proof (clean_elements_plain (filepath.rooted h) []
                (filepath.elements h) (Forall_nil_2 _) (elements_plain h))
    as Hst.
  pose proof (clean_elements_shape (filepath.rooted h) (filepath.elements h))
    as Hshape.
  destruct (clean_elements_sorted (filepath.rooted h) (filepath.elements h))
    as (regs & dd & Heq & Hregs & Hdd).
  set (st := filepath.clean_elements (filepath.rooted h) []
               (filepath.elements h)) in *.
  assert (rev (rev tail ++ st) = rev st ++ tail)%list as Hrev
    by by rewrite rev_app_distr, rev_involutive.
  assert (Forall plain_name (rev st ++ tail)%list) as Hall.
  { apply Forall_app. split; [by apply Forall_rev|done]. }
  assert (rev st ++ tail ≠ [])%list as Hnil.
  { intros Hnil. by apply app_eq_nil in Hnil as [_ ?]. }
  destruct (filepath.rooted h) eqn:Hr.
  - rewrite Hrev. exists [""], (rev st ++ tail)%list.
    change ("/" +:+ ?x) with (String "/" x).
    change (filepath.elements (String "/" ?x)) with ("" :: filepath.elements x).
    split; [by rewrite elements_join|]. split; [by repeat constructor|]. split; [|done].
    apply Forall_app. split; [|done]. apply Forall_rev.
    eapply Forall_impl; [exact Hshape|]. by intros y [?|[? _]].
  - destruct (rev tail ++ st)%list as [|y out] eqn:Hout.
    { apply app_eq_nil in Hout as [Hout _].
      apply (f_equal (@rev string)) in Hout.
      by rewrite rev_involutive in Hout. }
    cbv iota. rewrite Hrev.
    exists (rev dd), (rev regs ++ tail)%list.
    split; [by rewrite elements_join, Heq, rev_app_distr, app_assoc|].
    split; [|split].
    + apply Forall_rev. eapply Forall_impl; [exact Hdd|]. by intros ? ->.
    + apply Forall_app. split; [by apply Forall_rev|done].
    + intros Hnil'. by apply app_eq_nil in Hnil' as [_ ?].
Qed.

(** A real name below a plain path. *)
Lemma plain_path_child dir c :
  plain_path dir → regular_name c → filepath.elements c = [c] →
  plain_path (dir +:+ "/" +:+ c).
Proof.
  intros (pre & regs & Hel & Hpre & Hregs & Hne) Hc Hplain.
  exists pre, (regs ++ [c])%list.
  rewrite elements_app, Hel, Hplain, app_assoc.
  split; [done|]. split; [done|]. split.
  - apply Forall_app. split; [done|]. by constructor.
  - intros Hnil. by apply app_eq_nil in Hnil as [_ ?].
Qed.

(** The walk goes on where the tree has grown. *)
Lemma walk_grows r r' out known xs :
  grows r r' → fs.walk r out known xs = None → fs.walk r' out known xs = None.
Proof.
  intros Hg. revert out known.
  induction xs as [|x xs IH]; intros out known; simpl; [done|].
  destruct (fs.special x); [|apply IH].
  destruct known; [apply IH|].
  destruct (fs.lookup (rev out) r) as [[|m es]|e] eqn:Hl; simpl; try done.
  destruct (grows_found _ _ _ _ Hg Hl) as (n' & -> & Hkind).
  destruct n'; [done|]. apply IH.
Qed.

(** Where the walk fails for want of a name in the grown tree, it failed
    for want of it before. *)
Lemma walk_absent r r' out known xs :
  grows r r' →
  fs.walk r' out known xs = Some ENOENT → fs.walk r out known xs = Some ENOENT.
Proof.
  intros Hg. revert out known.
  induction xs as [|x xs IH]; intros out known; simpl; [done|].
  destruct (fs.special x); [|apply IH].
  destruct known; [apply IH|].
  destruct (fs.lookup (rev out) r) as [[m data|m es]|e] eqn:Hl; simpl.
  - by destruct (grows_found _ _ _ _ Hg Hl) as ([] & -> & Hkind).
  - destruct (grows_found _ _ _ _ Hg Hl) as ([] & -> & Hkind); [done|].
    apply IH.
  - destruct (lookup_fails _ _ _ Hl) as [->| ->]; [done|].
    pose proof (Hg (rev out)) as Hq. rewrite Hl in Hq. by rewrite Hq.
Qed.

(** The walk fails for want of a name or of a directory only. *)
Lemma walk_fails r out known xs e :
  fs.walk r out known xs = Some e → e = ENOENT ∨ e = ENOTDIR.
Proof.
  revert out known. induction xs as [|x xs IH]; intros out known; simpl; [done|].
  destruct (fs.special x); [|apply IH].
  destruct known; [apply IH|].
  destruct (fs.lookup (rev out) r) as [[m data|m es]|e'] eqn:Hl; simpl.
  - intros [= <-]. by right.
  - apply IH.
  - intros [= <-]. by eapply lookup_fails.
Qed.

(** Where the walk runs into a file, it does so in the grown tree. *)
Lemma walk_stuck r r' out known xs :
  grows r r' →
  fs.walk r out known xs = Some ENOTDIR → fs.walk r' out known xs = Some ENOTDIR.
Proof.
  intros Hg. revert out known.
  induction xs as [|x xs IH]; intros out known; simpl; [done|].
  destruct (fs.special x); [|apply IH].
  destruct known; [apply IH|].
  destruct (fs.lookup (rev out) r) as [[m data|m es]|e] eqn:Hl; simpl.
  - by destruct (grows_found _ _ _ _ Hg Hl) as ([] & -> & Hkind).
  - destruct (grows_found _ _ _ _ Hg Hl) as ([] & -> & Hkind); [done|].
    apply IH.
  - intros [= ->]. pose proof (Hg (rev out)) as Hq. rewrite Hl in Hq.
    by rewrite Hq.
Qed.

Lemma trimmed_not_trailing xs :
  fs.trailing xs = false → fs.trimmed xs = xs.
Proof.
  destruct xs as [|x xs _] using rev_ind; [done|].
  unfold fs.trailing. rewrite last_snoc. intros Hx.
  apply trimmed_snoc. by destruct (String.eqb_spec x "").
Qed.

(** A change that is always refused changes nothing. *)
Lemma modify_always_fails f p r e :
  (∀ o, f o = Fails e) → ∃ e', fs.modify f p r = Fails e'.
Proof.
  intros Hf. revert r. induction p as [|c p IH]; intros r; simpl.
  - rewrite Hf. by eexists.
  - destruct r as [|m es]; [by eexists|].
    destruct p as [|c' p]; [rewrite Hf; by eexists|].
    destruct (es !! c) as [ch|]; [|by eexists].
    destruct (IH ch) as [e' ->]. by eexists.
Qed.

Section Walk.

Variable E : env.

(** The kernel can walk a plain path whatever the tree holds. *)
Lemma walk_plain making r name :
  plain_path name → walk E making r name = None.
Proof.
  intros Hname. unfold walk.
  rewrite (trimmed_plain name Hname).
  destruct Hname as (pre & regs & -> & Hpre & Hregs & _).
  destruct making; by apply walk_sorted.
Qed.

Lemma walk_name_grows making r r' name :
  grows r r' → walk E making r name = None → walk E making r' name = None.
Proof. unfold walk. apply walk_grows. Qed.

(** A call on a plain path is a call on the elements it denotes. *)
Lemma on_path_plain {A} sc op making name r p (k : list string → found A) :
  plain_path name →
  resolve E name = Some p →
  on_path E sc op making name r k
  = match env_denied E sc name with
    | Some d => Err (PathError op name (denial_errno d))
    | None =>
        match k p with
        | Found a => Ok a
        | Fails e => Err (PathError op name e)
        end
    end.
Proof.
  intros Hname Hp. unfold on_path. by rewrite Hp, (walk_plain _ _ _ Hname).
Qed.

Lemma node_at_plain s name p :
  plain_path name →
  resolve E name = Some p →
  node_at E s name = fs.lookup p (root s).
Proof.
  intros Hname Hp. unfold node_at. by rewrite Hp, (walk_plain _ _ _ Hname).
Qed.

(** What is found at a name is found where the name leads. *)
Lemma node_at_found s name n :
  node_at E s name = Found n →
  ∃ p, resolve E name = Some p
       ∧ walk E false (root s) name = None
       ∧ fs.lookup p (root s) = Found n.
Proof.
  unfold node_at. destruct (resolve E name) as [p|]; [|done].
  destruct (walk E false (root s) name); [done|]. by exists p.
Qed.

Lemma walk_name_absent making r r' name :
  grows r r' →
  walk E making r' name = Some ENOENT → walk E making r name = Some ENOENT.
Proof. unfold walk. apply walk_absent. Qed.

Lemma walk_name_fails making r name e :
  walk E making r name = Some e → e = ENOENT ∨ e = ENOTDIR.
Proof. unfold walk. apply walk_fails. Qed.

Lemma walk_name_stuck making r r' name :
  grows r r' →
  walk E making r name = Some ENOTDIR → walk E making r' name = Some ENOTDIR.
Proof. unfold walk. apply walk_stuck. Qed.

(** An [open] with [O_CREAT] that succeeds was made on a name that does
    not end in a separator: the walk of the name is the same for every
    call. *)
Lemma creat_Found name f p r r' :
  fs.modify (creat name f) p r = Found r' →
  creat name f = f
  ∧ ∀ r0, walk E false r0 name = walk E true r0 name.
Proof.
  unfold creat, walk. intros Hmod.
  destruct (fs.trailing (filepath.elements name)) eqn:Htr.
  - destruct (modify_always_fails (λ _, Fails EISDIR) p r EISDIR)
      as [e' He']; [done|]. by rewrite He' in Hmod.
  - split; [done|]. intros r0. by rewrite trimmed_not_trailing.
Qed.

End Walk.

(** ** The directories of the two layouts *)

Section Layout.

Variable E : env.
Variable u : User.
Hypothesis Huser : env_user E = Ok u.
Hypothesis Hhome : HomeDir u ≠ "".

Lemma expandHomeDir_home rest :
  expandHomeDir (env_user E) (String "~" (String "/" rest))
  = (filepath.Join (HomeDir u) (String "/" rest), None).
Proof.
  rewrite Huser. simpl. unfold home.
  by destruct (String.eqb_spec (HomeDir u) "").
Qed.

Lemma resolve_legacy_root :
  resolve E (legacy_root E)
  = Some (home_elements E (HomeDir u) ++ [".wtf"])%list.
Proof.
  unfold legacy_root, WtfConfigDirV1. rewrite expandHomeDir_home. simpl.
  apply resolve_Join; try done.
  repeat constructor; done.
Qed.

Lemma resolve_config_root :
  resolve E (config_root E)
  = Some (home_elements E (HomeDir u) ++ [".config"; "wtf"])%list.
Proof.
  unfold config_root, WtfConfigDirV2. rewrite expandHomeDir_home. simpl.
  apply resolve_Join; try done.
  repeat constructor; done.
Qed.

Lemma plain_legacy_root : plain_path (legacy_root E).
Proof.
  unfold legacy_root, WtfConfigDirV1. rewrite expandHomeDir_home. simpl.
  apply (plain_path_Join _ _ [".wtf"]); try done.
  - repeat constructor; done.
  - repeat constructor; done.
Qed.

Lemma plain_config_root : plain_path (config_root E).
Proof.
  unfold config_root, WtfConfigDirV2. rewrite expandHomeDir_home. simpl.
  apply (plain_path_Join _ _ [".config"; "wtf"]); try done.
  - repeat constructor; done.
  - repeat constructor; done.
Qed.

End Layout.

(** A path name that denotes a node is not empty, so the home directory
    behind a resolved root is known. *)
Lemma legacy_root_user E p :
  resolve E (legacy_root E) = Some p →
  ∃ u, env_user E = Ok u ∧ HomeDir u ≠ "".
Proof.
  unfold legacy_root, WtfConfigDirV1. simpl. unfold home.
  destruct (env_user E) as [u|err]; [|done].
  destruct (String.eqb_spec (HomeDir u) ""); [done|]. by exists u.
Qed.

Lemma WtfConfigDir_Ok E dir :
  WtfConfigDir (env_user E) = (dir, None) →
  dir = config_root E ∧ ∃ u, env_user E = Ok u ∧ HomeDir u ≠ "".
Proof.
  unfold WtfConfigDir, config_root, WtfConfigDirV2. simpl. unfold home.
  destruct (env_user E) as [u|err]; [|done].
  destruct (String.eqb_spec (HomeDir u) ""); [done|].
  intros [= <-]. split; [done|]. by exists u.
Qed.

(** The path that [CreateFile] builds for a real name is plain. *)
Lemma plain_created E dir c :
  WtfConfigDir (env_user E) = (dir, None) →
  regular_name c → filepath.elements c = [c] →
  plain_path (dir +:+ "/" +:+ c).
Proof.
  intros (-> & u & Hu & Hhome)%WtfConfigDir_Ok Hc Hel.
  by apply plain_path_child; [apply (plain_config_root E u Hu Hhome)|..].
Qed.

(** ** What [os.Stat] reports *)

Section Stat.

Variable E : env.

Lemma stat_found s name n :
  permits E SysStat name →
  node_at E s name = Found n →
  stat E s name = Ok (file_info (env_dirsize E) n).
Proof.
  unfold permits, node_at, stat, on_path. intros -> Hn.
  destruct (resolve E name); [|done].
  destruct (walk E false (root s) name); [done|]. by rewrite Hn.
Qed.

Lemma stat_fails s name e :
  permits E SysStat name →
  node_at E s name = Fails e →
  stat E s name = Err (PathError "stat" name e).
Proof.
  unfold permits, node_at, stat, on_path. intros -> Hn.
  destruct (resolve E name); [|by simplify_eq].
  destruct (walk E false (root s) name); [by simplify_eq|]. by rewrite Hn.
Qed.

Lemma stat_IsNotExist_inv s name :
  os_IsNotExist (error_of (stat E s name)) = true →
  permits E SysStat name ∧ node_at E s name = Fails ENOENT.
Proof.
  unfold permits, node_at, stat, on_path.
  destruct (env_denied E SysStat name) as [[]|]; [done..|].
  destruct (resolve E name); [|done].
  destruct (walk E false (root s) name) as [[]|]; [done..|].
  destruct (fs.lookup _ _) as [n|[]]; done.
Qed.

(** [os.RemoveAll] on a plain path. *)
Lemma os_RemoveAll_plain path p s :
  plain_path path →
  resolve E path = Some p →
  os_RemoveAll E path s
  = match env_denied E SysRemoveAll path with
    | Some d =>
        Ret (Some (PathError "unlinkat" path (denial_errno d)))
          {| root := fs.without p (env_removed E path) (root s);
             stdout := stdout s |}
    | None =>
        match fs.modify (λ _, Found None) p (root s) with
        | Found r' => Ret None {| root := r'; stdout := stdout s |}
        | Fails e =>
            if os_IsNotExist (Some (PathError "unlinkat" path e))
            then Ret None s
            else Ret (Some (PathError "unlinkat" path e)) s
        end
    end.
Proof.
  intros Hplain Hp. unfold os_RemoveAll.
  pose proof (plain_path_nonempty _ Hplain) as Hne.
  destruct path as [|c0 rest] eqn:Hname; [done|]. rewrite <- Hname in *.
  destruct (plain_path_last _ Hplain) as (xs & x & Hel & _ & Hdot & _).
  rewrite Hel, last_snoc.
  destruct (String.eqb_spec x "."); [done|].
  rewrite Hp, (walk_plain E true (root s) path Hplain).
  destruct (env_denied E SysRemoveAll path) eqn:Hd; [done|].
  rewrite (on_path_plain E _ _ _ _ _ p _ Hplain Hp), Hd.
  by destruct (fs.modify _ p (root s)).
Qed.

End Stat.

(** ** The legacy migrator *)

(** C3.  When [os.Stat] finds both the legacy directory and the new
    configuration directory, the migration copies nothing and deletes
    nothing: it returns in the state in which it started. *)
Theorem migrateOldConfig_skips (E : env) (s : state)
    (legacy_info config_info : FileInfo) :
  stat E s (legacy_root E) = Ok legacy_info →
  stat E s (config_root E) = Ok config_info →
  migrateOldConfig E s = Ret tt s.
Proof.
  intros Hlegacy Hconfig.
  unfold migrateOldConfig, bind, os_Stat.
  change (fst (expandHomeDir (env_user E) WtfConfigDirV1)) with (legacy_root E).
  change (fst (expandHomeDir (env_user E) WtfConfigDirV2)) with (config_root E).
  rewrite Hlegacy. simpl. by rewrite Hconfig.
Qed.

Lemma migrateOldConfig_skips_witness :
  migrateOldConfig sample.quiet sample.both = Ret tt sample.both.
Proof.
  apply (migrateOldConfig_skips sample.quiet sample.both
           {| Size := 4096; Mode := 493; IsDir := true |}
           {| Size := 4096; Mode := 493; IsDir := true |});
    vm_compute; reflexivity.
Defined.

(** C2 (as the code has it).  When the legacy root is a directory and
    [os.Stat] reports that the new configuration root does not exist,
    and the system refuses neither the copy nor the removal, the
    migration returns and prints nothing; the new root then holds the
    legacy tree as it was, so every file of it is found under the same
    relative path with the same content, and the legacy root is gone. *)
Theorem migrateOldConfig_moves (E : env) (s : state)
    (m : N) (es : gmap string node) :
  node_at E s (legacy_root E) = Found (Dir m es) →
  os_IsNotExist (error_of (stat E s (config_root E))) = true →
  migration_permitted E →
  ∃ s', migrateOldConfig E s = Ret tt s'
        ∧ stdout s' = stdout s
        ∧ node_at E s' (config_root E) = Found (Dir m es)
        ∧ node_at E s' (legacy_root E) = Fails ENOENT
        ∧ ∀ ps pd rel n,
            resolve E (legacy_root E) = Some ps →
            resolve E (config_root E) = Some pd →
            fs.lookup (ps ++ rel) (root s) = Found n →
            fs.lookup (pd ++ rel) (root s') = Found n.
Proof.
  intros Hlegacy Habsent (Pcopy1 & Pcopy2 & Premove).
  apply stat_IsNotExist_inv in Habsent as [Pstat Hconfig].
  destruct (resolve E (legacy_root E)) as [ps|] eqn:Hps;
    [|by unfold node_at in Hlegacy; rewrite Hps in Hlegacy].
  destruct (legacy_root_user E ps Hps) as (u & Hu & Hhome).
  pose proof (resolve_legacy_root E u Hu Hhome) as Hps'.
  pose proof (resolve_config_root E u Hu Hhome) as Hpd.
  pose proof (plain_legacy_root E u Hu Hhome) as Lplain.
  pose proof (plain_config_root E u Hu Hhome) as Cplain.
  set (H := home_elements E (HomeDir u)) in *.
  rewrite Hps in Hps'. simplify_eq.
  assert (fs.lookup (H ++ [".wtf"]) (root s) = Found (Dir m es)) as Hsrc.
  { by rewrite (node_at_plain E s _ _ Lplain Hps) in Hlegacy. }
  assert (fs.lookup (H ++ [".config"; "wtf"]) (root s) = Fails ENOENT) as Hdst.
  { by rewrite (node_at_plain E s _ _ Cplain Hpd) in Hconfig. }
  (* the copy *)
  destruct (place_lookup (N.ldiff os_ModePerm (env_umask E)) _ (Dir m es) _ Hdst)
    as (r1 & Hplace & Hnew).
  assert (fs.lookup (H ++ [".wtf"]) r1 = Found (Dir m es)) as Hsrc1.
  { rewrite <- Hsrc. by eapply (place_frame _ H ".config" ".wtf" ["wtf"] []). }
  (* the removal *)
  destruct (modify_remove (H ++ [".wtf"]) r1 (Dir m es)) as (r2 & Hrm & Hgone);
    [by destruct H|done|].
  assert (fs.lookup (H ++ [".config"; "wtf"]) r2 = Found (Dir m es)) as Hnew2.
  { rewrite <- Hnew. by eapply (modify_frame _ H ".wtf" ".config" [] ["wtf"]). }
  exists {| root := r2; stdout := stdout s |}.
  split; [|split; [done|split; [|split]]].
  - unfold migrateOldConfig, bind, os_Stat.
    change (fst (expandHomeDir (env_user E) WtfConfigDirV1)) with (legacy_root E).
    change (fst (expandHomeDir (env_user E) WtfConfigDirV2)) with (config_root E).
    destruct (os_IsNotExist (error_of (stat E s (legacy_root E)))) eqn:Hne.
    { apply stat_IsNotExist_inv in Hne as [_ Hne]. congruence. }
    rewrite (stat_fails E s _ ENOENT Pstat Hconfig). simpl.
    unfold Copy. unfold permits in Pcopy1, Pcopy2. rewrite Pcopy1, Pcopy2.
    rewrite Hps, Hpd, (walk_plain E _ _ _ Lplain), (walk_plain E _ _ _ Cplain).
    rewrite Hsrc, Hplace.
    rewrite (stat_found E _ _ (Dir m es) Pstat);
      [|by rewrite (node_at_plain E _ _ _ Cplain Hpd)]. simpl.
    rewrite (os_RemoveAll_plain E _ _ _ Lplain Hps).
    unfold permits in Premove. rewrite Premove. simpl.
    by rewrite Hrm.
  - by rewrite (node_at_plain E _ _ _ Cplain Hpd).
  - by rewrite (node_at_plain E _ _ _ Lplain Hps).
  - intros ps pd rel n ? ? Hrel. simplify_eq. simpl.
    rewrite lookup_app, Hnew2. by rewrite lookup_app, Hsrc in Hrel.
Qed.

Lemma migrateOldConfig_moves_witness :
  ∃ s', migrateOldConfig sample.quiet sample.legacy_only = Ret tt s'
        ∧ node_at sample.quiet s' "/home/alice/.config/wtf/config.yml"
          = Found (File 420 "a: 1")
        ∧ node_at sample.quiet s' "/home/alice/.wtf" = Fails ENOENT.
Proof.
  destruct (migrateOldConfig_moves sample.quiet sample.legacy_only
              493 {[ "config.yml" := File 420 "a: 1" ]})
    as (s' & Hrun & _ & Hnew & Hgone & Hfiles).
  - vm_compute. reflexivity.
  - vm_compute. reflexivity.
  - repeat split; vm_compute; reflexivity.
  - exists s'. split; [done|]. split; [|done].
    apply (Hfiles ["home"; "alice"; ".wtf"] ["home"; "alice"; ".config"; "wtf"]
             ["config.yml"]); vm_compute; reflexivity.
Defined.

(** C2 fails as stated: the legacy directory is there with a file in it
    and nothing is at the new root, yet on a system that refuses the
    removal the legacy directory is still there after the migration
    (emptied: [os.RemoveAll] removes the children first), and the error
    is printed. *)
Lemma migrateOldConfig_legacy_survives :
  node_at sample.no_remove sample.legacy_only (legacy_root sample.no_remove)
  = Found (Dir 493 {[ "config.yml" := File 420 "a: 1" ]})
  ∧ node_at sample.no_remove sample.legacy_only (config_root sample.no_remove)
    = Fails ENOENT
  ∧ ∃ s', migrateOldConfig sample.no_remove sample.legacy_only = Ret tt s'
          ∧ node_at sample.no_remove s' (legacy_root sample.no_remove)
            = Found (Dir 493 ∅)
          ∧ stdout s'
            = [Println (PathError "unlinkat" "/home/alice/.wtf" EACCES)].
Proof.
  split; [by vm_compute|]. split; [by vm_compute|].
  eexists. split; [by vm_compute|]. split; by vm_compute.
Qed.

(** ** The file provisioner *)

(** C4.  [CreateFile] always returns, and calling it again right after
    returns the same path and error and leaves the state as the first call
    left it; and the first call keeps every file that was there, with its
    mode and content. *)
Theorem CreateFile_idempotent (E : env) (fileName : string) (s : state) :
  ∃ r s1, CreateFile E fileName s = Ret r s1
          ∧ CreateFile E fileName s1 = Ret r s1
          ∧ ∀ q m data,
              fs.lookup q (root s) = Found (File m data) →
              fs.lookup q (root s1) = Found (File m data).
Proof.
  unfold CreateFile.
  destruct (WtfConfigDir (env_user E)) as [configDir [err|]].
  { exists ("", Some err), s. by repeat split. }
  set (filePath := configDir +:+ "/" +:+ fileName).
  unfold bind, os_Stat, ret.
  destruct (stat E s filePath) as [info|err] eqn:Hstat; cbn [error_of].
  { exists (filePath, None), s. rewrite Hstat. by repeat split. }
  destruct (os_IsNotExist (Some err)) eqn:Hne.
  2:{ exists ("", Some err), s. rewrite Hstat. cbn [error_of]. rewrite Hne.
      by repeat split. }
  (* the file is not there: it is created *)
  assert (os_IsNotExist (error_of (stat E s filePath)) = true) as Habsent
    by by rewrite Hstat.
  apply stat_IsNotExist_inv in Habsent as [Pstat Habsent].
  unfold os_Create, update.
  destruct (on_path E SysCreate "open" true filePath (root s) _)
    as [r'|err'] eqn:Hcreate.
  2:{ exists ("", Some err'), s. rewrite Hstat. cbn [error_of].
      rewrite Hne, Hcreate. by repeat split. }
  unfold on_path in Hcreate.
  destruct (env_denied E SysCreate filePath); [done|].
  destruct (resolve E filePath) as [p|] eqn:Hp; [|done].
  destruct (walk E true (root s) filePath) eqn:Hw; [done|].
  destruct (fs.modify _ p (root s)) as [r1|] eqn:Hmod; simplify_eq.
  destruct (creat_Found E _ _ _ _ _ Hmod) as [Hf Hwalk].
  rewrite Hf in Hmod.
  unfold node_at in Habsent. rewrite Hp, Hwalk, Hw in Habsent.
  exists (filePath, None), {| root := r'; stdout := stdout s |}.
  split; [done|]. split.
  - destruct (modify_lookup _ _ _ _ Hmod) as (o & n & _ & Hn).
    { by intros [[]|]. }
    rewrite (stat_found E _ _ n Pstat); [done|].
    unfold node_at. rewrite Hp. simpl.
    rewrite (walk_name_grows E false (root s) r' filePath);
      [done| |by rewrite Hwalk].
    eapply modify_grows; [|exact Hmod]. apply gentle_create.
  - intros q m data Hq. by eapply modify_keeps_files.
Qed.

(** ** The permission enforcer *)

Section Chmod.

Variable E : env.

(** The common shape of [chmodConfigFile] and [chmodSecretsFile]. *)
Lemma chmod_at_returns absPath s :
  ∃ s',
    (let* st := os_Stat E absPath in
     if os_IsNotExist (error_of st) then ret tt
     else let* err := os_Chmod E absPath mode_0600 in
          match err with Some _ => ret tt | None => ret tt end) s
    = Ret tt s'
    ∧ stdout s' = stdout s
    ∧ ((∀ n, node_at E s absPath ≠ Found n) → s' = s)
    ∧ (∀ err s1, os_Chmod E absPath mode_0600 s = Ret (Some err) s1 → s' = s).
Proof.
  unfold bind, os_Stat, ret.
  destruct (os_IsNotExist (error_of (stat E s absPath))) eqn:Hne.
  { exists s. by repeat split. }
  unfold os_Chmod, update.
  destruct (on_path E SysChmod "chmod" false absPath (root s) _)
    as [r'|err] eqn:Hch.
  2:{ exists s. by repeat split. }
  exists {| root := r'; stdout := stdout s |}.
  split; [done|]. split; [done|]. split; [|done].
  intros Hmissing. exfalso.
  unfold on_path in Hch. destruct (env_denied E SysChmod absPath); [done|].
  unfold node_at in Hmissing.
  destruct (resolve E absPath) as [p|]; [|done].
  destruct (walk E false (root s) absPath); [done|].
  destruct (fs.lookup p (root s)) as [n|e] eqn:Hl; [by eapply Hmissing|].
  destruct (modify_missing
              (λ o, match o with
                    | None => Fails ENOENT
                    | Some (File _ data) => Found (Some (File mode_0600 data))
                    | Some (Dir _ es) => Found (Some (Dir mode_0600 es))
                    end) p (root s) e Hl) as [e' He']; [by eexists|].
  by rewrite He' in Hch.
Qed.

End Chmod.

(** C8.  The permission enforcer always returns, for the config file and
    for the secrets file alike, and prints nothing.  Applied to a file
    that does not exist it leaves the state as it is, so it creates
    nothing; and when the mode change fails for any reason it returns all
    the same, with the state unchanged. *)
Theorem chmod_is_best_effort (E : env) (s : state) :
  (∃ s', chmodConfigFile E s = Ret tt s'
         ∧ stdout s' = stdout s
         ∧ ((∀ n, node_at E s (config_file E) ≠ Found n) → s' = s)
         ∧ (∀ err s1,
              os_Chmod E (config_file E) mode_0600 s = Ret (Some err) s1 →
              s' = s))
  ∧ (∃ s', chmodSecretsFile E s = Ret tt s'
           ∧ stdout s' = stdout s
           ∧ ((∀ n, node_at E s (secrets_file E) ≠ Found n) → s' = s)
           ∧ (∀ err s1,
                os_Chmod E (secrets_file E) mode_0600 s = Ret (Some err) s1 →
                s' = s)).
Proof.
  split.
  - apply (chmod_at_returns E (config_file E) s).
  - apply (chmod_at_returns E (secrets_file E) s).
Qed.

Lemma chmod_is_best_effort_witness :
  chmodSecretsFile sample.quiet sample.fresh = Ret tt sample.fresh
  ∧ chmodConfigFile sample.no_chmod sample.both = Ret tt sample.both.
Proof.
  split.
  - destruct (chmod_is_best_effort sample.quiet sample.fresh)
      as [_ (s' & Hrun & _ & Hmissing & _)].
    rewrite Hrun. f_equal. apply Hmissing.
    intros n. vm_compute. discriminate.
  - destruct (chmod_is_best_effort sample.no_chmod sample.both)
      as [(s' & Hrun & _ & _ & Hfail) _].
    rewrite Hrun. f_equal.
    apply (Hfail (PathError "chmod" "/home/alice/.config/wtf/config.yml" EPERM)
             sample.both).
    vm_compute. reflexivity.
Defined.

(** ** Nothing creates the secrets file *)

Section Keeps.

Context {A B : Type} (I : state → Prop).

Lemma keeps_ret (a : A) : keeps I (ret a).
Proof. by intros s. Qed.

Lemma keeps_exit code : keeps I (@os_Exit A code).
Proof. by intros s. Qed.

Lemma keeps_panic v : keeps I (@panic A v).
Proof. by intros s. Qed.

Lemma keeps_bind (m : M A) (k : A → M B) :
  keeps I m → (∀ a, keeps I (k a)) → keeps I (bind m k).
Proof.
  intros Hm Hk s Hs. unfold bind. specialize (Hm s Hs).
  destruct (m s) as [a s'| |]; [|done..]. by apply Hk.
Qed.

(** The same, when the continuation relies on what [m] returns. *)
Lemma keeps_bind_returns (Q : A → Prop) (m : M A) (k : A → M B) :
  keeps I m → (∀ s a s', m s = Ret a s' → Q a) →
  (∀ a, Q a → keeps I (k a)) → keeps I (bind m k).
Proof.
  intros Hm HQ Hk s Hs. unfold bind. specialize (Hm s Hs).
  destruct (m s) as [a s'| |] eqn:Hrun; [|done..].
  apply Hk; [by eapply HQ|done].
Qed.

End Keeps.

(** After a directory was made at [p] there is nothing below [p]. *)
Lemma mkdir_nothing_below mode p rest r r' n :
  fs.modify (λ o, match o with
                  | None => Found (Some (Dir mode ∅))
                  | Some _ => Fails EEXIST
                  end) p r = Found r' →
  rest ≠ [] →
  fs.lookup (p ++ rest) r' ≠ Found n.
Proof.
  intros Hm Hrest.
  destruct (modify_lookup _ _ _ _ Hm) as (o & n0 & Ho & Hn0).
  { by intros [|]. }
  rewrite lookup_app, Hn0. destruct o; simplify_eq.
  destruct rest as [|c rest]; [done|]. simpl. by rewrite lookup_empty.
Qed.

Section Secrets.

Variable E : env.

Lemma keeps_os_Stat (I : state → Prop) name : keeps I (os_Stat E name).
Proof. by intros s. Qed.

Lemma keeps_print (line : printed) : keeps (no_secrets E) (print line).
Proof. by intros s. Qed.

(** A call that changes the tree keeps the secrets file out when its
    change does. *)
Lemma keeps_update sc op making name f :
  plain_path (secrets_file E) →
  (∀ p ps r r' n,
     resolve E name = Some p →
     resolve E (secrets_file E) = Some ps →
     f p r = Found r' →
     (∀ n, fs.lookup ps r ≠ Found n) →
     fs.lookup ps r' ≠ Found n) →
  keeps (no_secrets E) (update E sc op making name f).
Proof.
  intros Hplain Hf s Hs. unfold update, on_path.
  destruct (env_denied E sc name); [done|].
  destruct (resolve E name) as [p|] eqn:Hp; [|done].
  destruct (walk E making (root s) name); [done|].
  destruct (f p (root s)) as [r'|] eqn:Hr; [|done].
  simpl. intros n. unfold no_secrets in *.
  destruct (resolve E (secrets_file E)) as [ps|] eqn:Hps;
    [|by unfold node_at; rewrite Hps].
  rewrite (node_at_plain E _ _ _ Hplain Hps). simpl.
  eapply Hf; [done..|]. intros n0. specialize (Hs n0).
  by rewrite (node_at_plain E _ _ _ Hplain Hps) in Hs.
Qed.

Lemma no_secrets_trivial s :
  resolve E (secrets_file E) = None → no_secrets E s.
Proof. intros Hr n. unfold node_at. by rewrite Hr. Qed.

(** Without a legacy root the migration changes nothing. *)
Lemma migrateOldConfig_without_legacy s :
  (∀ n, node_at E s (legacy_root E) ≠ Found n) →
  final (migrateOldConfig E s) = s.
Proof.
  intros Hlegacy. unfold migrateOldConfig, bind, os_Stat.
  change (fst (expandHomeDir (env_user E) WtfConfigDirV1)) with (legacy_root E).
  change (fst (expandHomeDir (env_user E) WtfConfigDirV2)) with (config_root E).
  destruct (os_IsNotExist (error_of (stat E s (legacy_root E)))); [done|].
  destruct (error_of (stat E s (config_root E))); [|done].
  unfold Copy.
  destruct (env_denied E SysCopy (legacy_root E)); [done|].
  destruct (env_denied E SysCopy (config_root E)); [done|].
  unfold node_at in Hlegacy.
  destruct (resolve E (legacy_root E)) as [ps|];
    [|by destruct (resolve E (config_root E))].
  destruct (resolve E (config_root E)) as [pd|]; [|done].
  destruct (walk E false (root s) (legacy_root E)); [done|].
  destruct (walk E true (root s) (config_root E)); [done|].
  destruct (fs.lookup ps (root s)) as [n|] eqn:Hl; [by destruct (Hlegacy n)|done].
Qed.

Section Home.

Variable u : User.
Hypothesis Huser : env_user E = Ok u.
Hypothesis Hhome : HomeDir u ≠ "".

Let H := home_elements E (HomeDir u).

Lemma resolve_xdg_dir :
  resolve E (fst (expandHomeDir (env_user E) XdgConfigDir))
  = Some (H ++ [".config"])%list.
Proof.
  unfold XdgConfigDir. rewrite (expandHomeDir_home E u Huser Hhome). simpl.
  apply resolve_Join; try done. repeat constructor; done.
Qed.

Lemma resolve_config_file :
  resolve E (config_file E)
  = Some ((H ++ [".config"; "wtf"]) ++ ["config.yml"])%list.
Proof.
  change (config_file E)
    with (fst (expandHomeDir (env_user E) "~/.config/wtf/config.yml")).
  rewrite (expandHomeDir_home E u Huser Hhome). simpl. rewrite <- app_assoc.
  apply resolve_Join; try done. repeat constructor; done.
Qed.

Lemma resolve_secrets_file :
  resolve E (secrets_file E)
  = Some ((H ++ [".config"; "wtf"]) ++ ["secrets.yml"])%list.
Proof.
  change (secrets_file E)
    with (fst (expandHomeDir (env_user E) "~/.config/wtf/secrets.yml")).
  rewrite (expandHomeDir_home E u Huser Hhome). simpl. rewrite <- app_assoc.
  apply resolve_Join; try done. repeat constructor; done.
Qed.

Lemma plain_xdg_dir :
  plain_path (fst (expandHomeDir (env_user E) XdgConfigDir)).
Proof.
  unfold XdgConfigDir. rewrite (expandHomeDir_home E u Huser Hhome). simpl.
  apply (plain_path_Join _ _ [".config"]); try done.
  - repeat constructor; done.
  - repeat constructor; done.
Qed.

Lemma plain_config_file : plain_path (config_file E).
Proof.
  change (config_file E)
    with (fst (expandHomeDir (env_user E) "~/.config/wtf/config.yml")).
  rewrite (expandHomeDir_home E u Huser Hhome). simpl.
  apply (plain_path_Join _ _ [".config"; "wtf"; "config.yml"]); try done.
  - repeat constructor; done.
  - repeat constructor; done.
Qed.

Lemma plain_secrets_file : plain_path (secrets_file E).
Proof.
  change (secrets_file E)
    with (fst (expandHomeDir (env_user E) "~/.config/wtf/secrets.yml")).
  rewrite (expandHomeDir_home E u Huser Hhome). simpl.
  apply (plain_path_Join _ _ [".config"; "wtf"; "secrets.yml"]); try done.
  - repeat constructor; done.
  - repeat constructor; done.
Qed.

Lemma plain_created_config_file :
  plain_path (config_root E +:+ "/" +:+ WtfConfigFile).
Proof.
  by apply plain_path_child; [apply (plain_config_root E u Huser Hhome)|..].
Qed.

Lemma plain_created_secrets_file :
  plain_path (config_root E +:+ "/" +:+ WtfSecretsFile).
Proof.
  by apply plain_path_child; [apply (plain_config_root E u Huser Hhome)|..].
Qed.

Lemma WtfConfigDir_home : WtfConfigDir (env_user E) = (config_root E, None).
Proof.
  unfold WtfConfigDir, config_root, WtfConfigDirV2.
  by rewrite (expandHomeDir_home E u Huser Hhome).
Qed.

(** The path that [CreateFile] builds for the default config file. *)
Lemma resolve_created_config_file :
  resolve E (config_root E +:+ "/" +:+ WtfConfigFile)
  = Some ((H ++ [".config"; "wtf"]) ++ ["config.yml"])%list.
Proof.
  rewrite (resolve_child E _ _ _ (resolve_config_root E u Huser Hhome)).
  simpl. by rewrite rev_involutive.
Qed.

(** A change at the config file, or below it, is not seen at the secrets
    file. *)
Lemma config_file_change_keeps f sc op making name :
  resolve E name = Some ((H ++ [".config"; "wtf"]) ++ ["config.yml"])%list →
  keeps (no_secrets E) (update E sc op making name (fs.modify f)).
Proof.
  intros Hname. apply keeps_update; [apply plain_secrets_file|].
  intros p ps r r' n Hp Hps Hm Habsent.
  rewrite Hname in Hp. rewrite resolve_secrets_file in Hps. simplify_eq.
  rewrite (modify_frame f _ "config.yml" "secrets.yml" [] [] r r' Hm); done.
Qed.

(** A directory made above the secrets file has no secrets file in it. *)
Lemma mkdir_keeps name tail rest :
  resolve E name = Some (H ++ tail)%list →
  (tail ++ rest = [".config"; "wtf"; "secrets.yml"])%list →
  rest ≠ [] →
  keeps (no_secrets E) (os_Mkdir E name os_ModePerm).
Proof.
  intros Hname Hsplit Hrest. apply keeps_update; [apply plain_secrets_file|].
  intros p ps r r' n Hp Hps Hm _.
  rewrite Hname in Hp. rewrite resolve_secrets_file in Hps. simplify_eq.
  rewrite <- app_assoc. simpl. rewrite <- Hsplit, app_assoc.
  by eapply mkdir_nothing_below.
Qed.

Lemma chmodSecretsFile_keeps : keeps (no_secrets E) (chmodSecretsFile E).
Proof.
  unfold chmodSecretsFile.
  change (fst (expandHomeDir (env_user E) (WtfConfigDirV2 +:+ WtfSecretsFile)))
    with (secrets_file E).
  apply keeps_bind; [apply keeps_os_Stat|]. intros st.
  destruct (os_IsNotExist (error_of st)); [apply keeps_ret|].
  apply keeps_bind; [|by intros [|]; apply keeps_ret].
  apply keeps_update; [apply plain_secrets_file|].
  intros p ps r r' n Hp Hps Hm Habsent. simplify_eq.
  destruct (fs.lookup p r) as [n0|e] eqn:Hl; [by destruct (Habsent n0)|].
  destruct (modify_missing
              (λ o, match o with
                    | None => Fails ENOENT
                    | Some (File _ data) => Found (Some (File mode_0600 data))
                    | Some (Dir _ es) => Found (Some (Dir mode_0600 es))
                    end) p r e Hl) as [e' He']; [by eexists|].
  by rewrite He' in Hm.
Qed.

Lemma chmodConfigFile_keeps : keeps (no_secrets E) (chmodConfigFile E).
Proof.
  unfold chmodConfigFile.
  change (fst (expandHomeDir (env_user E) (WtfConfigDirV2 +:+ WtfConfigFile)))
    with (config_file E).
  apply keeps_bind; [apply keeps_os_Stat|]. intros st.
  destruct (os_IsNotExist (error_of st)); [apply keeps_ret|].
  apply keeps_bind; [|by intros [|]; apply keeps_ret].
  apply config_file_change_keeps, resolve_config_file.
Qed.

Lemma createXdgConfigDir_keeps : keeps (no_secrets E) (createXdgConfigDir E).
Proof.
  unfold createXdgConfigDir.
  apply keeps_bind; [apply keeps_os_Stat|]. intros st.
  destruct (os_IsNotExist (error_of st)); [|apply keeps_ret].
  apply keeps_bind.
  - by apply (mkdir_keeps _ [".config"] ["wtf"; "secrets.yml"]);
      [apply resolve_xdg_dir|..].
  - intros [e|]; [|apply keeps_ret].
    apply keeps_bind; [apply keeps_print|]. intros _. apply keeps_exit.
Qed.

Lemma createWtfConfigDir_keeps : keeps (no_secrets E) (createWtfConfigDir E).
Proof.
  unfold createWtfConfigDir. rewrite WtfConfigDir_home. simpl fst.
  apply keeps_bind; [apply keeps_os_Stat|]. intros st.
  destruct (os_IsNotExist (error_of st)); [|apply keeps_ret].
  apply keeps_bind.
  - by apply (mkdir_keeps _ [".config"; "wtf"] ["secrets.yml"]);
      [apply (resolve_config_root E u Huser Hhome)|..].
  - intros [e|]; [|apply keeps_ret].
    apply keeps_bind; [apply keeps_print|]. intros _. apply keeps_exit.
Qed.

(** The path that [CreateFile] returns is the one it built. *)
Lemma CreateFile_path fileName s filePath s' :
  CreateFile E fileName s = Ret (filePath, None) s' →
  filePath = config_root E +:+ "/" +:+ fileName.
Proof.
  unfold CreateFile. rewrite WtfConfigDir_home. unfold bind, os_Stat, ret.
  destruct (error_of (stat E s _)) as [err|]; [|by intros; simplify_eq].
  destruct (os_IsNotExist (Some err)); [|by intros; simplify_eq].
  destruct (os_Create E _ s) as [[e|] s1| |]; by intros; simplify_eq.
Qed.

Lemma CreateFile_keeps : keeps (no_secrets E) (CreateFile E WtfConfigFile).
Proof.
  unfold CreateFile. rewrite WtfConfigDir_home.
  apply keeps_bind; [apply keeps_os_Stat|]. intros st.
  destruct (error_of st) as [err|]; [|apply keeps_ret].
  destruct (os_IsNotExist (Some err)); [|apply keeps_ret].
  apply keeps_bind; [|by intros [|]; apply keeps_ret].
  apply config_file_change_keeps, resolve_created_config_file.
Qed.

Lemma createWtfConfigFile_keeps template :
  keeps (no_secrets E) (createWtfConfigFile E template).
Proof.
  unfold createWtfConfigFile, createDefaultFile.
  apply (keeps_bind_returns _
           (λ r, snd r = None → fst r = config_root E +:+ "/" +:+ WtfConfigFile)).
  - apply CreateFile_keeps.
  - intros s [filePath err] s' Hrun Herr. simpl in *. subst err.
    by eapply CreateFile_path.
  - intros [filePath [err|]] Hpath.
    { apply keeps_bind; [apply keeps_print|]. intros _. apply keeps_exit. }
    simpl in Hpath. rewrite Hpath by done.
    apply keeps_bind; [apply keeps_os_Stat|]. intros [file|e];
      [|apply keeps_panic].
    destruct (Size file =? 0)%Z; [|apply keeps_ret].
    apply keeps_bind.
    + apply config_file_change_keeps, resolve_created_config_file.
    + intros [e|]; [|apply keeps_ret].
      apply keeps_bind; [apply keeps_print|]. intros _. apply keeps_exit.
Qed.

End Home.

(** [Initialize] never creates the secrets file: when there is no legacy
    root to migrate from and no secrets file, there is no secrets file in
    the state in which [Initialize] stops, however it stops. *)
Lemma Initialize_never_creates_secrets template s :
  (∀ n, node_at E s (legacy_root E) ≠ Found n) →
  no_secrets E s →
  no_secrets E (final (Initialize E template false s)).
Proof.
  intros Hlegacy Hs.
  destruct (resolve E (secrets_file E)) as [ps|] eqn:Hps;
    [|by apply no_secrets_trivial].
  assert (∃ u, env_user E = Ok u ∧ HomeDir u ≠ "") as (u & Hu & Hhome).
  { revert Hps. unfold secrets_file. simpl. unfold home.
    destruct (env_user E) as [u|err]; [|done].
    destruct (String.eqb_spec (HomeDir u) ""); [done|]. by exists u. }
  unfold Initialize. simpl negb. cbv iota.
  unfold bind at 1.
  pose proof (migrateOldConfig_without_legacy s Hlegacy) as Hmig.
  destruct (migrateOldConfig E s) as [[] s'| |]; simpl in Hmig; subst;
    [|done..].
  revert Hs. apply keeps_bind; [by eapply createXdgConfigDir_keeps|]. intros _.
  apply keeps_bind; [by eapply createWtfConfigDir_keeps|]. intros _.
  apply keeps_bind; [by eapply createWtfConfigFile_keeps|]. intros _.
  apply keeps_bind; [by eapply chmodConfigFile_keeps|]. intros _.
  by eapply chmodSecretsFile_keeps.
Qed.

End Secrets.

(** ** The bootstrap orchestrator *)

(** C1 (what the code does on a first run).  On a system that refuses
    nothing, with an empty home directory, [Initialize] without a custom
    source returns; the default config file then holds its template with
    mode 0600, but there is no secrets file: [createWtfSecretsFile] is
    never called, and the permission enforcer finds nothing to restrict. *)
Theorem Initialize_provisions_no_secrets (defaultConfigFile : string) :
  ∃ s', Initialize sample.quiet defaultConfigFile false sample.fresh = Ret tt s'
        ∧ node_at sample.quiet s' "/home/alice/.config/wtf/config.yml"
          = Found (File mode_0600 defaultConfigFile)
        ∧ node_at sample.quiet s' "/home/alice/.config/wtf/secrets.yml"
          = Fails ENOENT.
Proof. eexists. repeat split; vm_compute; reflexivity. Qed.

(** The function that [Initialize] leaves out does its work when it is
    called: run after [Initialize] on the same first run, it provisions
    the secrets file with its template. *)
Lemma createWtfSecretsFile_after_Initialize
    (defaultConfigFile defaultSecretsFile : string) :
  ∃ s1 s2,
    Initialize sample.quiet defaultConfigFile false sample.fresh = Ret tt s1
    ∧ createWtfSecretsFile sample.quiet defaultSecretsFile s1 = Ret tt s2
    ∧ node_at sample.quiet s2 "/home/alice/.config/wtf/secrets.yml"
      = Found (File 420 defaultSecretsFile).
Proof. do 2 eexists. repeat split; vm_compute; reflexivity. Qed.

(** ** Scenarios *)

(** A first run with a legacy layout: after the bootstrap the migrated
    config file keeps its content, has mode 0600, and the legacy
    directory is gone. *)
Example bootstrap_migrates_legacy_layout (defaultConfigFile : string) :
  ∃ s', Initialize sample.quiet defaultConfigFile false sample.legacy_only
        = Ret tt s'
        ∧ node_at sample.quiet s' "/home/alice/.config/wtf/config.yml"
          = Found (File mode_0600 "a: 1")
        ∧ node_at sample.quiet s' "/home/alice/.wtf" = Fails ENOENT.
Proof. eexists. repeat split; vm_compute; reflexivity. Qed.

(** With a custom source only the two directories are made, and a legacy
    layout is left where it is. *)
Example bootstrap_with_custom_source (defaultConfigFile : string) :
  ∃ s', Initialize sample.quiet defaultConfigFile true sample.legacy_only
        = Ret tt s'
        ∧ node_at sample.quiet s' "/home/alice/.config/wtf" = Found (Dir 493 ∅)
        ∧ node_at sample.quiet s' "/home/alice/.wtf/config.yml"
          = Found (File 420 "a: 1").
Proof. eexists. repeat split; vm_compute; reflexivity. Qed.

(** Without a home directory the bootstrap cannot make the base directory
    and exits with status 1. *)
Example bootstrap_without_home (defaultConfigFile : string) (s : state) :
  let E := {| env_user := Err (errorString "user: Current not implemented");
              env_wd := []; env_umask := 18; env_dirsize := 4096;
              env_denied := λ _ _, None; env_removed := λ _, [] |} in
  Initialize E defaultConfigFile false s
  = Exit 1 {| root := root s;
              stdout := stdout s
                ++ [XdgConfigDirCreateError (PathError "mkdir" "" ENOENT)] |}.
Proof. reflexivity. Qed.

(** * Further properties *)

(** ** Substrings *)

(** [String.index] finds a substring wherever it is. *)
Lemma index_append (a sub b : string) :
  ∃ m, String.index 0 sub (a +:+ sub +:+ b) = Some m.
Proof.
  destruct (String.index 0 sub (a +:+ sub +:+ b)) as [m|] eqn:Hidx; [by eexists|].
  exfalso.
  destruct sub as [|c sub].
  { destruct (a +:+ "" +:+ b); simpl in Hidx; done. }
  apply (String.index_correct3 0 (String.length a)) in Hidx; [|done|lia].
  apply Hidx. clear Hidx.
  induction a as [|c' a IH]; simpl.
  - f_equal. induction sub as [|c2 sub IH2]; simpl.
    + by destruct b.
    + by rewrite IH2.
  - exact IH.
Qed.

Lemma substring_split (m len : nat) (s sub : string) :
  String.substring m len s = sub → String.length sub = len →
  ∃ a b, s = a +:+ sub +:+ b.
Proof.
  revert s. induction m as [|m IH]; intros s Hsub Hlen.
  - exists "". simpl. revert s sub Hsub Hlen.
    induction len as [|len IH]; intros s sub Hsub Hlen.
    + destruct sub; [|done]. by exists s.
    + destruct s as [|c s]; simpl in Hsub; [by subst|].
      destruct sub as [|c' sub]; [done|]. simplify_eq.
      destruct (IH s (String.substring 0 len s)) as [b Hb];
        [done|simpl in Hlen; lia|].
      exists b. exact (f_equal (String c') Hb).
  - destruct s as [|c s]; simpl in Hsub.
    + exists EmptyString, EmptyString. by subst.
    + destruct (IH s Hsub Hlen) as (a & b & ->). by exists (String c a), b.
Qed.

(** [strings.Contains] holds exactly of the strings that have [sub]
    somewhere inside. *)
Lemma strings_Contains_spec (s sub : string) :
  security.strings_Contains s sub = true ↔ ∃ a b, s = a +:+ sub +:+ b.
Proof.
  unfold security.strings_Contains. split.
  - destruct (String.index 0 sub s) as [m|] eqn:Hidx; [|done]. intros _.
    apply String.index_correct1 in Hidx.
    by eapply substring_split.
  - intros (a & b & ->). by destruct (index_append a sub b) as [m ->].
Qed.

(** ** The firewall probe *)

(** X1.  On macOS both probes answer "on" exactly when the output of the
    firewall command has "enabled" somewhere in it, and "off" otherwise. *)
Theorem macOS_labels (cmd_Run : security.Cmd → string * option error)
    (ExecuteCommand : security.Cmd → string) (TrimSpace : string → string) :
  let state_out :=
    ExecuteCommand
      (security.exec_Command security.osxFirewallCmd ["--getglobalstate"]) in
  let stealth_out :=
    ExecuteCommand
      (security.exec_Command security.osxFirewallCmd ["--getstealthmode"]) in
  (security.FirewallState "darwin" cmd_Run ExecuteCommand TrimSpace = "on"
   ↔ ∃ a b, state_out = a +:+ "enabled" +:+ b)
  ∧ (security.FirewallState "darwin" cmd_Run ExecuteCommand TrimSpace = "off"
     ↔ ¬ ∃ a b, state_out = a +:+ "enabled" +:+ b)
  ∧ (security.FirewallStealthState "darwin" ExecuteCommand = "on"
     ↔ ∃ a b, stealth_out = a +:+ "enabled" +:+ b)
  ∧ (security.FirewallStealthState "darwin" ExecuteCommand = "off"
     ↔ ¬ ∃ a b, stealth_out = a +:+ "enabled" +:+ b).
Proof.
  intros state_out stealth_out.
  assert (∀ str, (security.statusLabel str = "on"
                  ↔ ∃ a b, str = a +:+ "enabled" +:+ b)
                 ∧ (security.statusLabel str = "off"
                    ↔ ¬ ∃ a b, str = a +:+ "enabled" +:+ b)) as Hlabel.
  { intros str. rewrite <- strings_Contains_spec. unfold security.statusLabel.
    destruct (security.strings_Contains str "enabled"); split; split;
      try done; by intros []. }
  destruct (Hlabel state_out) as [Hon Hoff].
  destruct (Hlabel stealth_out) as [Hon' Hoff'].
  split; [exact Hon|]. split; [exact Hoff|]. split; [exact Hon'|exact Hoff'].
Qed.

(** X2.  On Linux the state is "Config Needed" exactly when the ufw
    command fails; when it succeeds the state is "Disabled" exactly when
    its output has "inactive" somewhere in it, and "Enabled" otherwise. *)
Theorem Linux_labels (cmd_Run : security.Cmd → string * option error)
    (ExecuteCommand : security.Cmd → string) (TrimSpace : string → string) :
  let out := cmd_Run (security.exec_Command "sudo" ["ufw"; "status"]) in
  let state := security.FirewallState "linux" cmd_Run ExecuteCommand TrimSpace in
  (state = "[red]Config Needed[white]" ↔ snd out ≠ None)
  ∧ (state = "[red]Disabled[white]"
     ↔ snd out = None ∧ ∃ a b, fst out = a +:+ "inactive" +:+ b)
  ∧ (state = "[green]Enabled[white]"
     ↔ snd out = None ∧ ¬ ∃ a b, fst out = a +:+ "inactive" +:+ b).
Proof.
  intros out state. subst state.
  unfold security.FirewallState, security.firewallStateLinux. simpl.
  fold out. destruct out as [o [err|]]; simpl.
  { repeat split; try done; by intros []. }
  rewrite <- strings_Contains_spec.
  destruct (security.strings_Contains o "inactive");
    repeat split; try done; try (by intros []); by intros [_ []].
Qed.

(** X3.  Either probe returns the empty string exactly on a platform that
    is none of linux, darwin and windows: on those three every answer is a
    label. *)
Theorem probes_empty_iff_unsupported (GOOS : string)
    (cmd_Run : security.Cmd → string * option error)
    (ExecuteCommand : security.Cmd → string) (TrimSpace : string → string) :
  (security.FirewallState GOOS cmd_Run ExecuteCommand TrimSpace = ""
   ↔ GOOS ≠ "linux" ∧ GOOS ≠ "darwin" ∧ GOOS ≠ "windows")
  ∧ (security.FirewallStealthState GOOS ExecuteCommand = ""
     ↔ GOOS ≠ "linux" ∧ GOOS ≠ "darwin" ∧ GOOS ≠ "windows").
Proof.
  unfold security.FirewallState, security.FirewallStealthState.
  destruct (String.eqb_spec GOOS "linux") as [->|Hl].
  { unfold security.firewallStateLinux.
    destruct (cmd_Run _) as [o [err|]];
      [|destruct (security.strings_Contains o "inactive")];
      split; split; try done; by intros [[] _]. }
  destruct (String.eqb_spec GOOS "darwin") as [->|Hd].
  { unfold security.firewallStateMacOS, security.firewallStealthStateMacOS,
      security.statusLabel.
    split; split; try (by intros (_ & [] & _));
      by destruct (security.strings_Contains _ _). }
  destruct (String.eqb_spec GOOS "windows") as [->|Hw].
  { unfold security.firewallStateWindows.
    split; split; try (by intros (_ & _ & []));
      [|done].
    by repeat (destruct (String.eqb _ _)). }
  by repeat split.
Qed.

(** ** More on the path resolver *)

(** X4.  The resolver fails only on a path that begins with [~], and a
    failure never comes with a path: the path returned is empty. *)
Theorem expandHomeDir_error (cur : result User) (path : string) (err : error) :
  snd (expandHomeDir cur path) = Some err →
  fst (expandHomeDir cur path) = "" ∧ String.get 0 path = Some "~"%char.
Proof.
  destruct path as [|c0 rest]; [done|]. simpl.
  destruct (Ascii.eqb_spec c0 "~") as [->|_]; [|done]. simpl.
  destruct (match rest with
            | "" => false
            | String c1 _ => negb (Ascii.eqb c1 "/") && negb (Ascii.eqb c1 "\")
            end); [done|].
  by destruct (home cur) as [dir [e|]].
Qed.

Lemma expandHomeDir_error_witness :
  fst (expandHomeDir (Ok sample.alice) "~alice/.config") = ""
  ∧ String.get 0 "~alice/.config" = Some "~"%char.
Proof.
  apply (expandHomeDir_error (Ok sample.alice) "~alice/.config"
           (errors_New "cannot expand user-specific home dir")).
  reflexivity.
Defined.

(** X5.  Without a home directory no path that begins with [~] resolves:
    when the user lookup fails, or the user has an empty home path, the
    result is the empty path with the lookup's error, the "cannot find"
    error or the "cannot expand" error. *)
Theorem expandHomeDir_without_home (cur : result User) (rest : string) :
  (match cur with Ok u => HomeDir u = "" | Err _ => True end) →
  fst (expandHomeDir cur (String "~" rest)) = ""
  ∧ (snd (expandHomeDir cur (String "~" rest))
     = Some (errors_New "cannot expand user-specific home dir")
     ∨ snd (expandHomeDir cur (String "~" rest))
       = match cur with
         | Ok _ => Some (errors_New "cannot find user-specific home dir")
         | Err e => Some e
         end).
Proof.
  intros Hcur. simpl.
  destruct (match rest with
            | "" => false
            | String c1 _ => negb (Ascii.eqb c1 "/") && negb (Ascii.eqb c1 "\")
            end); [by split; [|left]|].
  unfold home. destruct cur as [u|e]; [|by split; [|right]].
  rewrite Hcur. by split; [|right].
Qed.

Lemma expandHomeDir_without_home_witness :
  expandHomeDir (Err (errorString "user: unknown userid 1000")) "~/.config/wtf/"
  = ("", Some (errorString "user: unknown userid 1000")).
Proof.
  destruct (expandHomeDir_without_home
              (Err (errorString "user: unknown userid 1000")) "/.config/wtf/")
    as [Hpath [Herr|Herr]]; [done|discriminate Herr|reflexivity].
Defined.

Lemma Clean_rooted path :
  filepath.rooted path = true →
  filepath.rooted (filepath.Clean path) = true.
Proof.
  intros Hr. rewrite Clean_unfold by by destruct path.
  cbv zeta. by rewrite Hr.
Qed.

(** X6.  With an absolute home path resolving is idempotent: a path that
    the resolver returns resolves to itself. *)
Theorem expandHomeDir_idempotent (u : User) (path resolved : string) :
  filepath.rooted (HomeDir u) = true →
  expandHomeDir (Ok u) path = (resolved, None) →
  expandHomeDir (Ok u) resolved = (resolved, None).
Proof.
  intros Hrooted Hpath.
  assert (String.get 0 resolved ≠ Some "~"%char) as Hfirst.
  { destruct path as [|c0 rest]; simpl in Hpath; [by simplify_eq|].
    destruct (Ascii.eqb_spec c0 "~") as [->|Hc0]; simpl in Hpath;
      [|simplify_eq; simpl; congruence].
    destruct (match rest with
              | "" => false
              | String c1 _ => negb (Ascii.eqb c1 "/") && negb (Ascii.eqb c1 "\")
              end); [done|].
    unfold home in Hpath.
    destruct (String.eqb_spec (HomeDir u) "") as [|Hhome]; [done|].
    simplify_eq. unfold filepath.Join.
    destruct (String.eqb_spec (HomeDir u) "") as [|_]; [done|].
    pose proof (Clean_rooted (HomeDir u +:+ "/" +:+ rest)) as Hclean.
    rewrite rooted_app in Hclean by done. specialize (Hclean Hrooted).
    destruct (filepath.Clean _) as [|c s]; [done|]. simpl in *.
    intros [= ->]. done. }
  destruct resolved as [|c0 rest]; [done|]. simpl in *.
  destruct (Ascii.eqb_spec c0 "~") as [->|_]; done.
Qed.

Lemma expandHomeDir_idempotent_witness :
  expandHomeDir (Ok sample.alice) "/home/alice/.config/wtf"
  = ("/home/alice/.config/wtf", None).
Proof.
  apply (expandHomeDir_idempotent sample.alice "~/.config/wtf/"); reflexivity.
Defined.

(** ** More on the file tree *)

Section TreeMore.

Implicit Types (p q : list string) (n r : node) (c : string).

(** A change of the node at [p] is seen at [p]. *)
Lemma modify_found f p r n n' :
  fs.lookup p r = Found n →
  f (Some n) = Found (Some n') →
  ∃ r', fs.modify f p r = Found r' ∧ fs.lookup p r' = Found n'.
Proof.
  revert r. induction p as [|c p IH]; intros r Hl Hf; simpl in *.
  - simplify_eq. rewrite Hf. by eexists.
  - destruct r as [|m es]; [done|].
    destruct (es !! c) as [ch|] eqn:Hc; [|done].
    destruct p as [|c' p].
    + simpl in Hl. simplify_eq. rewrite Hf. eexists. split; [done|].
      cbv beta iota. by rewrite lookup_partial_alter_eq.
    + destruct (IH ch Hl Hf) as (ch' & -> & Hn').
      eexists. split; [done|]. cbv beta iota. by rewrite lookup_insert_eq.
Qed.

(** A change that puts back the node it finds changes nothing. *)
Lemma modify_same f p r n :
  fs.lookup p r = Found n →
  f (Some n) = Found (Some n) →
  fs.modify f p r = Found r.
Proof.
  revert r. induction p as [|c p IH]; intros r Hl Hf; simpl in *.
  - simplify_eq. by rewrite Hf.
  - destruct r as [|m es]; [done|].
    destruct (es !! c) as [ch|] eqn:Hc; [|done].
    destruct p as [|c' p].
    + simpl in Hl. simplify_eq. rewrite Hf. do 2 f_equal.
      apply map_eq. intros i. destruct (decide (c = i)) as [->|Hne].
      * by rewrite lookup_partial_alter_eq.
      * by rewrite lookup_partial_alter_ne.
    + rewrite (IH ch Hl Hf). do 2 f_equal. by apply insert_id.
Qed.

(** A change that the node at [p] refuses fails. *)
Lemma modify_refused f p r n e :
  fs.lookup p r = Found n →
  f (Some n) = Fails e →
  fs.modify f p r = Fails e.
Proof.
  revert r. induction p as [|c p IH]; intros r Hl Hf; simpl in *.
  - simplify_eq. by rewrite Hf.
  - destruct r as [|m es]; [done|].
    destruct (es !! c) as [ch|] eqn:Hc; [|done].
    destruct p as [|c' p].
    + simpl in Hl. simplify_eq. by rewrite Hf.
    + by rewrite (IH ch Hl Hf).
Qed.

(** A new entry in a directory that is there. *)
Lemma modify_new f q c r m es n' :
  fs.lookup q r = Found (Dir m es) →
  es !! c = None →
  f None = Found (Some n') →
  ∃ r', fs.modify f (q ++ [c]) r = Found r'
        ∧ fs.lookup (q ++ [c]) r' = Found n'.
Proof.
  revert r. induction q as [|c0 q IH]; intros r Hl Hc Hf; simpl in *.
  - simplify_eq. rewrite Hc, Hf. eexists. split; [done|].
    simpl. by rewrite lookup_partial_alter_eq.
  - destruct r as [|m0 es0]; [done|].
    destruct (es0 !! c0) as [ch|] eqn:Hc0; [|done].
    destruct (IH ch Hl Hc Hf) as (ch' & Hm & Hn').
    destruct (q ++ [c])%list as [|c1 rest] eqn:Hrest; [by destruct q|].
    rewrite Hm. eexists. split; [done|]. cbv beta iota.
    by rewrite lookup_insert_eq.
Qed.

(** Nothing can be put below a directory that is not there. *)
Lemma modify_no_parent f q c r e :
  fs.lookup q r = Fails e →
  ∃ e', fs.modify f (q ++ [c]) r = Fails e'.
Proof.
  revert r. induction q as [|c0 q IH]; intros r Hl; simpl in *; [done|].
  destruct r as [|m0 es0]; [by eexists|].
  destruct (q ++ [c])%list as [|c1 rest] eqn:Hrest; [by destruct q|].
  destruct (es0 !! c0) as [ch|] eqn:Hc0; [|by eexists].
  destruct (IH ch Hl) as [e' ->]. by eexists.
Qed.

(** A change that keeps the entries of a directory it finds leaves every
    file elsewhere as it is. *)
Lemma modify_other_files f p r r' q m data :
  (∀ m0 es o, f (Some (Dir m0 es)) = Found o → ∃ m1, o = Some (Dir m1 es)) →
  fs.modify f p r = Found r' →
  q ≠ p →
  fs.lookup q r = Found (File m data) →
  fs.lookup q r' = Found (File m data).
Proof.
  intros Hdir. revert r r' q.
  induction p as [|c p IH]; intros r r' q Hm Hne Hq; simpl in Hm.
  - destruct q as [|c2 q]; [done|].
    destruct r as [|m0 es]; [done|].
    destruct (f (Some (Dir m0 es))) as [[n'|]|] eqn:Hf; simplify_eq.
    by destruct (Hdir _ _ _ Hf) as [m1 [= ->]].
  - destruct r as [|m0 es]; [done|].
    destruct q as [|c2 q]; [done|]. simpl in Hq.
    destruct p as [|c' p].
    + destruct (f (es !! c)) as [o|] eqn:Hf; simplify_eq. simpl.
      destruct (decide (c = c2)) as [->|Hc]; [|by rewrite lookup_partial_alter_ne].
      rewrite lookup_partial_alter_eq.
      destruct (es !! c2) as [ch|] eqn:Hc2; [|done].
      destruct q as [|c3 q]; [done|].
      destruct ch as [|m1 es1]; [done|].
      by destruct (Hdir _ _ _ Hf) as [m2 ->].
    + destruct (es !! c) as [ch|] eqn:Hc; [|done].
      destruct (fs.modify f (c' :: p) ch) as [ch'|] eqn:Hch; simplify_eq.
      simpl. destruct (decide (c = c2)) as [->|Hc2]; [|by rewrite lookup_insert_ne].
      rewrite lookup_insert_eq. rewrite Hc in Hq.
      eapply IH; [done| |done]. congruence.
Qed.

End TreeMore.

(** ** The layout of the configuration *)

(** X7.  With a home directory, the legacy root, the XDG directory and the
    configuration directory are [.wtf], [.config] and [.config/wtf] in the
    home directory, and the path that [CreateFile] builds for the config
    file or the secrets file denotes the file that the permission enforcer
    restricts. *)
Theorem configuration_layout (E : env) (u : User) :
  env_user E = Ok u →
  HomeDir u ≠ "" →
  let H := home_elements E (HomeDir u) in
  let dir := fst (WtfConfigDir (env_user E)) in
  resolve E (legacy_root E) = Some (H ++ [".wtf"])%list
  ∧ resolve E (fst (expandHomeDir (env_user E) XdgConfigDir))
    = Some (H ++ [".config"])%list
  ∧ resolve E dir = Some (H ++ [".config"; "wtf"])%list
  ∧ resolve E (dir +:+ "/" +:+ WtfConfigFile)
    = Some (H ++ [".config"; "wtf"; "config.yml"])%list
  ∧ resolve E (config_file E) = Some (H ++ [".config"; "wtf"; "config.yml"])%list
  ∧ resolve E (dir +:+ "/" +:+ WtfSecretsFile)
    = Some (H ++ [".config"; "wtf"; "secrets.yml"])%list
  ∧ resolve E (secrets_file E) = Some (H ++ [".config"; "wtf"; "secrets.yml"])%list.
Proof.
  intros Huser Hhome H dir.
  assert (dir = config_root E) as ->.
  { unfold dir. by rewrite (WtfConfigDir_home E u Huser Hhome). }
  pose proof (resolve_config_root E u Huser Hhome) as Hroot.
  split; [by apply resolve_legacy_root|].
  split; [by apply resolve_xdg_dir|].
  split; [done|].
  split; [by rewrite (resolve_created_config_file E u Huser Hhome),
            <- app_assoc|].
  split; [by rewrite (resolve_config_file E u Huser Hhome), <- app_assoc|].
  split; [|by rewrite (resolve_secrets_file E u Huser Hhome), <- app_assoc].
  rewrite (resolve_child E _ _ _ Hroot). simpl.
  by rewrite rev_involutive, <- app_assoc.
Qed.

Lemma configuration_layout_witness :
  resolve sample.quiet (fst (WtfConfigDir (Ok sample.alice)) +:+ "/" +:+ WtfConfigFile)
  = resolve sample.quiet (config_file sample.quiet).
Proof.
  destruct (configuration_layout sample.quiet sample.alice)
    as (_ & _ & _ & Hmade & Hfile & _); [reflexivity|vm_compute; discriminate|].
  exact (eq_trans Hmade (eq_sym Hfile)).
Defined.

(** ** More on the file provisioner *)

(** X8.  What [CreateFile] returns can be relied on: with no error, the
    path is the configuration directory joined with the name and a node is
    there afterwards; with an error, the path is empty and nothing has
    changed. *)
Theorem CreateFile_result (E : env) (fileName : string) (s s' : state)
    (r : string * option error) :
  CreateFile E fileName s = Ret r s' →
  match snd r with
  | None =>
      fst r = fst (WtfConfigDir (env_user E)) +:+ "/" +:+ fileName
      ∧ ∃ n, node_at E s' (fst r) = Found n
  | Some _ => fst r = "" ∧ s' = s
  end.
Proof.
  unfold CreateFile.
  destruct (WtfConfigDir (env_user E)) as [configDir [err|]].
  { intros [= <- <-]. done. }
  simpl fst. set (filePath := configDir +:+ "/" +:+ fileName).
  unfold bind, os_Stat, ret.
  destruct (stat E s filePath) as [info|err] eqn:Hstat; cbn [error_of].
  { intros [= <- <-]. simpl. split; [done|].
    unfold stat, on_path, node_at in *.
    destruct (env_denied E SysStat filePath); [done|].
    destruct (resolve E filePath); [|done].
    destruct (walk E false (root s) filePath); [done|].
    destruct (fs.lookup _ _); [by eexists|done]. }
  destruct (os_IsNotExist (Some err)) eqn:Hne; [|by intros [= <- <-]].
  unfold os_Create, update.
  destruct (on_path E SysCreate "open" true filePath (root s) _)
    as [r'|err'] eqn:Hcreate; [|by intros [= <- <-]].
  intros [= <- <-]. simpl. split; [done|].
  unfold on_path in Hcreate.
  destruct (env_denied E SysCreate filePath); [done|].
  unfold node_at. destruct (resolve E filePath) as [p|]; [|done]. simpl.
  destruct (walk E true (root s) filePath) eqn:Hw; [done|].
  destruct (fs.modify _ p (root s)) as [r1|] eqn:Hmod; simplify_eq.
  destruct (creat_Found E _ _ _ _ _ Hmod) as [Hf Hwalk].
  rewrite Hf in Hmod.
  rewrite (walk_name_grows E false (root s) r' filePath);
    [| |by rewrite Hwalk].
  - destruct (modify_lookup _ _ _ _ Hmod) as (o & n & _ & Hn);
      [by intros [[]|]|by eexists].
  - eapply modify_grows; [|exact Hmod]. apply gentle_create.
Qed.

Lemma CreateFile_result_witness :
  "/home/alice/.config/wtf/config.yml"
  = fst (WtfConfigDir (env_user sample.quiet)) +:+ "/" +:+ "config.yml"
  ∧ ∃ n, node_at sample.quiet sample.both "/home/alice/.config/wtf/config.yml"
         = Found n.
Proof.
  apply (CreateFile_result sample.quiet "config.yml" sample.both sample.both
           ("/home/alice/.config/wtf/config.yml", None)).
  vm_compute. reflexivity.
Defined.

(** ** More on the permission enforcer *)

Section ChmodMore.

Variable E : env.

Lemma chmod_at_restricts absPath s m data :
  node_at E s absPath = Found (File m data) →
  permits E SysChmod absPath →
  ∃ s',
    (let* st := os_Stat E absPath in
     if os_IsNotExist (error_of st) then ret tt
     else let* err := os_Chmod E absPath mode_0600 in
          match err with Some _ => ret tt | None => ret tt end) s
    = Ret tt s'
    ∧ node_at E s' absPath = Found (File mode_0600 data)
    ∧ ∀ q m' data',
        resolve E absPath ≠ Some q →
        fs.lookup q (root s) = Found (File m' data') →
        fs.lookup q (root s') = Found (File m' data').
Proof.
  intros Hnode Hchmod. unfold bind, os_Stat, ret.
  destruct (os_IsNotExist (error_of (stat E s absPath))) eqn:Hne.
  { apply stat_IsNotExist_inv in Hne as [_ Hne]. congruence. }
  unfold os_Chmod, update, on_path. unfold permits in Hchmod. rewrite Hchmod.
  unfold node_at in *. destruct (resolve E absPath) as [p|]; [|done].
  destruct (walk E false (root s) absPath) eqn:Hw; [done|].
  destruct (modify_found
              (λ o, match o with
                    | None => Fails ENOENT
                    | Some (File _ data) => Found (Some (File mode_0600 data))
                    | Some (Dir _ es) => Found (Some (Dir mode_0600 es))
                    end) p (root s) _ (File mode_0600 data) Hnode)
    as (r' & Hmod & Hnew); [done|].
  rewrite Hmod. eexists. split; [done|]. simpl. split.
  { rewrite (walk_name_grows E false (root s) r' absPath); [done| |done].
    eapply modify_grows; [|exact Hmod]. apply gentle_chmod. }
  intros q m' data' Hq Hfile.
  eapply modify_other_files; [|exact Hmod| |done].
  - intros m0 es o [= <-]. by eexists.
  - congruence.
Qed.

End ChmodMore.

(** X9.  When the config file (the secrets file) is a regular file and the
    system does not refuse the mode change, the permission enforcer
    returns with that file at mode 0600 and its content as it was, and
    every other file keeps its mode and content. *)
Theorem chmod_restricts (E : env) (s : state) (m : N) (data : string) :
  (node_at E s (config_file E) = Found (File m data) →
   permits E SysChmod (config_file E) →
   ∃ s', chmodConfigFile E s = Ret tt s'
         ∧ node_at E s' (config_file E) = Found (File mode_0600 data)
         ∧ ∀ q m' data',
             resolve E (config_file E) ≠ Some q →
             fs.lookup q (root s) = Found (File m' data') →
             fs.lookup q (root s') = Found (File m' data'))
  ∧ (node_at E s (secrets_file E) = Found (File m data) →
     permits E SysChmod (secrets_file E) →
     ∃ s', chmodSecretsFile E s = Ret tt s'
           ∧ node_at E s' (secrets_file E) = Found (File mode_0600 data)
           ∧ ∀ q m' data',
               resolve E (secrets_file E) ≠ Some q →
               fs.lookup q (root s) = Found (File m' data') →
               fs.lookup q (root s') = Found (File m' data')).
Proof.
  split.
  - apply (chmod_at_restricts E (config_file E)).
  - apply (chmod_at_restricts E (secrets_file E)).
Qed.

Lemma chmod_restricts_witness :
  ∃ s', chmodConfigFile sample.quiet sample.open_config = Ret tt s'
        ∧ node_at sample.quiet s' "/home/alice/.config/wtf/config.yml"
          = Found (File mode_0600 "b: 2")
        ∧ fs.lookup ["home"; "alice"; ".config"; "wtf"; "notes.txt"] (root s')
          = Found (File 420 "n").
Proof.
  destruct (chmod_restricts sample.quiet sample.open_config 420 "b: 2")
    as [Hconfig _].
  destruct Hconfig as (s' & Hrun & Hnode & Hothers);
    [vm_compute; reflexivity..|].
  exists s'. split; [done|]. split; [done|].
  apply Hothers; vm_compute; [discriminate|reflexivity].
Defined.

(** ** The default files *)

Section DefaultFile.

Variables (E : env) (name template dir : string).
Hypothesis Hdir : WtfConfigDir (env_user E) = (dir, None).
Hypothesis Hplain : plain_path (dir +:+ "/" +:+ name).

(** Something of non-zero size is there: nothing is done. *)
Lemma createDefaultFile_keeps s info :
  stat E s (dir +:+ "/" +:+ name) = Ok info →
  Size info ≠ 0%Z →
  createDefaultFile E name template s = Ret tt s.
Proof.
  intros Hstat Hsize. unfold createDefaultFile, CreateFile. rewrite Hdir.
  unfold bind, os_Stat, ret. rewrite Hstat. cbn [error_of]. rewrite Hstat.
  by destruct (Z.eqb_spec (Size info) 0).
Qed.

(** An empty file is there: it receives the template and keeps its mode. *)
Lemma createDefaultFile_fills s m :
  node_at E s (dir +:+ "/" +:+ name) = Found (File m "") →
  permits E SysStat (dir +:+ "/" +:+ name) →
  permits E SysWriteFile (dir +:+ "/" +:+ name) →
  ∃ s', createDefaultFile E name template s = Ret tt s'
        ∧ stdout s' = stdout s
        ∧ node_at E s' (dir +:+ "/" +:+ name) = Found (File m template).
Proof.
  intros Hnode Pstat Pwrite. unfold createDefaultFile, CreateFile. rewrite Hdir.
  unfold bind, os_Stat, ret.
  rewrite (stat_found E _ _ _ Pstat Hnode). cbn [error_of].
  rewrite (stat_found E _ _ _ Pstat Hnode). simpl.
  destruct (resolve E (dir +:+ "/" +:+ name)) as [p|] eqn:Hp;
    [|by unfold node_at in Hnode; rewrite Hp in Hnode].
  rewrite (node_at_plain E s _ p Hplain Hp) in Hnode.
  unfold ioutil_WriteFile, update.
  rewrite (creat_plain _ _ Hplain), (on_path_plain E _ _ _ _ _ p _ Hplain Hp).
  unfold permits in Pwrite. rewrite Pwrite.
  destruct (modify_found
              (λ o, match o with
                    | None =>
                        Found (Some (File (N.ldiff mode_0600 (env_umask E)) template))
                    | Some (File m _) => Found (Some (File m template))
                    | Some (Dir _ _) => Fails EISDIR
                    end) p (root s) _ (File m template) Hnode)
    as (r' & -> & Hnew); [done|].
  eexists. split; [done|]. split; [done|].
  by rewrite (node_at_plain E _ _ p Hplain Hp).
Qed.

(** Nothing is there, in a directory that is: the file is made with mode
    0666 less the umask, and receives the template. *)
Lemma createDefaultFile_creates s q c md es :
  resolve E (dir +:+ "/" +:+ name) = Some (q ++ [c])%list →
  fs.lookup q (root s) = Found (Dir md es) →
  es !! c = None →
  permits E SysStat (dir +:+ "/" +:+ name) →
  permits E SysCreate (dir +:+ "/" +:+ name) →
  permits E SysWriteFile (dir +:+ "/" +:+ name) →
  ∃ s', createDefaultFile E name template s = Ret tt s'
        ∧ stdout s' = stdout s
        ∧ node_at E s' (dir +:+ "/" +:+ name)
          = Found (File (N.ldiff mode_0666 (env_umask E)) template).
Proof.
  intros Hp Hparent Hfree Pstat Pcreate Pwrite.
  assert (node_at E s (dir +:+ "/" +:+ name) = Fails ENOENT) as Habsent.
  { rewrite (node_at_plain E s _ _ Hplain Hp), lookup_app, Hparent. simpl.
    by rewrite Hfree. }
  unfold createDefaultFile, CreateFile. rewrite Hdir.
  unfold bind, os_Stat, ret.
  rewrite (stat_fails E _ _ _ Pstat Habsent). cbn [error_of os_IsNotExist].
  unfold os_Create, update.
  rewrite (creat_plain _ _ Hplain), (on_path_plain E _ _ _ _ _ _ _ Hplain Hp).
  unfold permits in Pcreate, Pwrite. rewrite Pcreate.
  destruct (modify_new
              (λ o, match o with
                    | None =>
                        Found (Some (File (N.ldiff mode_0666 (env_umask E)) ""))
                    | Some (File m _) => Found (Some (File m ""))
                    | Some (Dir _ _) => Fails EISDIR
                    end) q c (root s) md es _ Hparent Hfree eq_refl)
    as (r1 & -> & Hmade).
  set (s1 := {| root := r1; stdout := stdout s |}).
  assert (node_at E s1 (dir +:+ "/" +:+ name)
          = Found (File (N.ldiff mode_0666 (env_umask E)) "")) as Hnode1.
  { by rewrite (node_at_plain E _ _ _ Hplain Hp). }
  rewrite (stat_found E _ _ _ Pstat Hnode1). simpl.
  unfold ioutil_WriteFile, update.
  rewrite (creat_plain _ _ Hplain), (on_path_plain E _ _ _ _ _ _ _ Hplain Hp).
  rewrite Pwrite. change (root s1) with r1.
  destruct (modify_found
              (λ o, match o with
                    | None =>
                        Found (Some (File (N.ldiff mode_0600 (env_umask E)) template))
                    | Some (File m _) => Found (Some (File m template))
                    | Some (Dir _ _) => Fails EISDIR
                    end) (q ++ [c]) r1 _
              (File (N.ldiff mode_0666 (env_umask E)) template) Hmade)
    as (r2 & -> & Hnew); [done|].
  eexists. split; [done|]. split; [done|].
  by rewrite (node_at_plain E _ _ _ Hplain Hp).
Qed.

End DefaultFile.

(** X10.  A default file that is there with content is never touched:
    when [os.Stat] finds something of non-zero size at its path,
    [createWtfConfigFile] (and [createWtfSecretsFile]) returns in the
    state in which it started. *)
Theorem default_file_kept (E : env) (defaultConfigFile defaultSecretsFile : string)
    (s : state) (dir : string) :
  WtfConfigDir (env_user E) = (dir, None) →
  (∀ info, stat E s (dir +:+ "/" +:+ WtfConfigFile) = Ok info →
           Size info ≠ 0%Z →
           createWtfConfigFile E defaultConfigFile s = Ret tt s)
  ∧ (∀ info, stat E s (dir +:+ "/" +:+ WtfSecretsFile) = Ok info →
             Size info ≠ 0%Z →
             createWtfSecretsFile E defaultSecretsFile s = Ret tt s).
Proof.
  intros Hdir. split; intros info; by apply createDefaultFile_keeps.
Qed.

Lemma default_file_kept_witness :
  createWtfConfigFile sample.quiet "template" sample.both = Ret tt sample.both.
Proof.
  destruct (default_file_kept sample.quiet "template" "secrets" sample.both
              "/home/alice/.config/wtf") as [Hconfig _]; [reflexivity|].
  apply (Hconfig {| Size := 4; Mode := 384; IsDir := false |});
    vm_compute; [reflexivity|discriminate].
Defined.

(** X11.  A default file that is there but empty receives its template
    and keeps its mode (the mode 0600 that is passed to the write only
    counts for a file that the write creates). *)
Theorem default_file_filled (E : env)
    (defaultConfigFile defaultSecretsFile : string)
    (s : state) (dir : string) (m : N) :
  WtfConfigDir (env_user E) = (dir, None) →
  (node_at E s (dir +:+ "/" +:+ WtfConfigFile) = Found (File m "") →
   permits E SysStat (dir +:+ "/" +:+ WtfConfigFile) →
   permits E SysWriteFile (dir +:+ "/" +:+ WtfConfigFile) →
   ∃ s', createWtfConfigFile E defaultConfigFile s = Ret tt s'
         ∧ stdout s' = stdout s
         ∧ node_at E s' (dir +:+ "/" +:+ WtfConfigFile)
           = Found (File m defaultConfigFile))
  ∧ (node_at E s (dir +:+ "/" +:+ WtfSecretsFile) = Found (File m "") →
     permits E SysStat (dir +:+ "/" +:+ WtfSecretsFile) →
     permits E SysWriteFile (dir +:+ "/" +:+ WtfSecretsFile) →
     ∃ s', createWtfSecretsFile E defaultSecretsFile s = Ret tt s'
           ∧ stdout s' = stdout s
           ∧ node_at E s' (dir +:+ "/" +:+ WtfSecretsFile)
             = Found (File m defaultSecretsFile)).
Proof.
  intros Hdir. split; apply createDefaultFile_fills; try done.
  - by apply (plain_created E).
  - by apply (plain_created E).
Qed.

Lemma default_file_filled_witness :
  ∃ s', createWtfSecretsFile sample.quiet "key: value" sample.empty_secrets
        = Ret tt s'
        ∧ node_at sample.quiet s' "/home/alice/.config/wtf/secrets.yml"
          = Found (File 436 "key: value").
Proof.
  destruct (default_file_filled sample.quiet "template" "key: value"
              sample.empty_secrets "/home/alice/.config/wtf" 436)
    as [_ Hsecrets]; [reflexivity|].
  destruct Hsecrets as (s' & Hrun & _ & Hnode); [vm_compute; reflexivity..|].
  by exists s'.
Defined.

(** X12.  In a configuration directory that has no such file,
    [createWtfConfigFile] (and [createWtfSecretsFile]) makes the file with
    its template as content and with mode 0666 less the umask: it is the
    permission enforcer that brings the mode to 0600 afterwards. *)
Theorem default_file_created (E : env)
    (defaultConfigFile defaultSecretsFile : string)
    (s : state) (dir : string) (md : N) (es : gmap string node) :
  WtfConfigDir (env_user E) = (dir, None) →
  node_at E s dir = Found (Dir md es) →
  (es !! WtfConfigFile = None →
   permits E SysStat (dir +:+ "/" +:+ WtfConfigFile) →
   permits E SysCreate (dir +:+ "/" +:+ WtfConfigFile) →
   permits E SysWriteFile (dir +:+ "/" +:+ WtfConfigFile) →
   ∃ s', createWtfConfigFile E defaultConfigFile s = Ret tt s'
         ∧ stdout s' = stdout s
         ∧ node_at E s' (dir +:+ "/" +:+ WtfConfigFile)
           = Found (File (N.ldiff mode_0666 (env_umask E)) defaultConfigFile))
  ∧ (es !! WtfSecretsFile = None →
     permits E SysStat (dir +:+ "/" +:+ WtfSecretsFile) →
     permits E SysCreate (dir +:+ "/" +:+ WtfSecretsFile) →
     permits E SysWriteFile (dir +:+ "/" +:+ WtfSecretsFile) →
     ∃ s', createWtfSecretsFile E defaultSecretsFile s = Ret tt s'
           ∧ stdout s' = stdout s
           ∧ node_at E s' (dir +:+ "/" +:+ WtfSecretsFile)
             = Found (File (N.ldiff mode_0666 (env_umask E)) defaultSecretsFile)).
Proof.
  intros Hdir Hnode.
  destruct (node_at_found E _ _ _ Hnode) as (q & Hq & _ & Hlook).
  split; intros Hfree; eapply createDefaultFile_creates; try done.
  - by apply (plain_created E).
  - rewrite (resolve_child E _ _ _ Hq). simpl.
    by rewrite rev_involutive.
  - by apply (plain_created E).
  - rewrite (resolve_child E _ _ _ Hq). simpl.
    by rewrite rev_involutive.
Qed.

Lemma default_file_created_witness :
  ∃ s', createWtfConfigFile sample.quiet "template" sample.empty_secrets
        = Ret tt s'
        ∧ node_at sample.quiet s' "/home/alice/.config/wtf/config.yml"
          = Found (File 420 "template").
Proof.
  destruct (default_file_created sample.quiet "template" "secrets"
              sample.empty_secrets "/home/alice/.config/wtf" 493
              {[ "secrets.yml" := File 436 "" ]})
    as [Hconfig _]; [reflexivity..|].
  destruct Hconfig as (s' & Hrun & _ & Hnode); [vm_compute; reflexivity..|].
  by exists s'.
Defined.

(** ** The directory provisioner *)

(** A new directory brings no file. *)
Lemma mkdir_no_new_file mode p r r' q m data :
  fs.modify (λ o, match o with
                  | None => Found (Some (Dir mode ∅))
                  | Some _ => Fails EEXIST
                  end) p r = Found r' →
  fs.lookup q r' = Found (File m data) →
  fs.lookup q r = Found (File m data).
Proof.
  revert r r' q. induction p as [|c p IH]; intros r r' q Hm Hq; simpl in Hm;
    [done|].
  destruct r as [|mr es]; [done|].
  destruct p as [|c' p].
  - destruct (es !! c) eqn:Hc; simplify_eq.
    destruct q as [|c2 q]; [done|]. simpl in *.
    destruct (decide (c = c2)) as [->|Hne].
    + rewrite lookup_partial_alter_eq in Hq.
      destruct q as [|c3 q]; [done|]. simpl in Hq. by rewrite lookup_empty in Hq.
    + by rewrite lookup_partial_alter_ne in Hq.
  - destruct (es !! c) as [ch|] eqn:Hc; [|done].
    destruct (fs.modify _ (c' :: p) ch) as [ch'|] eqn:Hch; simplify_eq.
    destruct q as [|c2 q]; [done|]. simpl in *.
    destruct (decide (c = c2)) as [->|Hne].
    + rewrite lookup_insert_eq in Hq. rewrite Hc. by eapply IH.
    + by rewrite lookup_insert_ne in Hq.
Qed.

Lemma mkdir_was_free mode p r r' :
  fs.modify (λ o, match o with
                  | None => Found (Some (Dir mode ∅))
                  | Some _ => Fails EEXIST
                  end) p r = Found r' →
  fs.lookup p r = Fails ENOENT.
Proof.
  revert r r'. induction p as [|c p IH]; intros r r' Hm; simpl in *; [done|].
  destruct r as [|mr es]; [done|].
  destruct p as [|c' p].
  - by destruct (es !! c).
  - destruct (es !! c) as [ch|]; [|done].
    destruct (fs.modify _ (c' :: p) ch) as [ch'|] eqn:Hch; [|done].
    by eapply IH.
Qed.

Section EnsureDir.

Variable E : env.
Variable report : error → printed.

(** The common shape of [createXdgConfigDir] and [createWtfConfigDir]:
    the directory is the empty path when there is no home directory, and
    a plain path otherwise. *)
Lemma ensure_dir_outcome dir s :
  dir = "" ∨ plain_path dir →
  let ensure : M unit :=
    (let* st := os_Stat E dir in
     if os_IsNotExist (error_of st) then
       let* err := os_Mkdir E dir os_ModePerm in
       match err with
       | Some e => run print (report e) then os_Exit 1
       | None => ret tt
       end
     else ret tt) in
  (∃ s', ensure s = Ret tt s'
         ∧ ensure s' = Ret tt s'
         ∧ stdout s' = stdout s
         ∧ ∀ q m data, fs.lookup q (root s') = Found (File m data)
                       ↔ fs.lookup q (root s) = Found (File m data))
  ∨ (∃ e, ensure s
          = Exit 1 {| root := root s; stdout := stdout s ++ [report e] |}).
Proof.
  intros Hdir ensure. unfold ensure, bind, os_Stat, ret.
  destruct (os_IsNotExist (error_of (stat E s dir))) eqn:Hne.
  2:{ left. exists s. rewrite Hne. by repeat split. }
  apply stat_IsNotExist_inv in Hne as [Pstat Habsent].
  unfold os_Mkdir, update.
  destruct (on_path E SysMkdir "mkdir" true dir (root s) _)
    as [r'|err] eqn:Hmk.
  2:{ right. by exists err. }
  left. unfold on_path in Hmk.
  destruct (env_denied E SysMkdir dir); [done|].
  destruct (resolve E dir) as [p|] eqn:Hp; [|done].
  destruct Hdir as [->|Hplain]; [done|].
  rewrite (walk_plain E _ _ _ Hplain) in Hmk.
  destruct (fs.modify _ p (root s)) as [r1|] eqn:Hmod; simplify_eq.
  exists {| root := r'; stdout := stdout s |}.
  split; [done|]. split; [|split; [done|]].
  - destruct (modify_lookup _ _ _ _ Hmod) as (o & n & _ & Hn);
      [by intros [|]|].
    rewrite (stat_found E _ _ n Pstat); [done|].
    by rewrite (node_at_plain E _ _ _ Hplain Hp).
  - intros q m data. simpl. split.
    + by eapply mkdir_no_new_file.
    + eapply modify_keeps_files; [|done]. by eapply mkdir_was_free.
Qed.

End EnsureDir.

(** The directories that the provisioners are called on. *)
Lemma expandHomeDir_cases E rest tail :
  tail ≠ [] →
  Forall plain_name tail →
  Forall regular_name tail →
  (∀ r out, filepath.clean_elements r out (filepath.elements (String "/" rest))
            = (rev tail ++ out)%list) →
  let dir := fst (expandHomeDir (env_user E) (String "~" (String "/" rest))) in
  dir = "" ∨ plain_path dir.
Proof.
  intros Htail Hplain Hreg Hb. simpl. unfold home.
  destruct (env_user E) as [u|err]; [|by left].
  destruct (String.eqb_spec (HomeDir u) "") as [|Hhome]; [by left|].
  right. simpl. by apply (plain_path_Join _ _ tail).
Qed.

Lemma xdg_dir_cases E :
  let dir := fst (expandHomeDir (env_user E) XdgConfigDir) in
  dir = "" ∨ plain_path dir.
Proof.
  apply (expandHomeDir_cases E _ [".config"]); try done.
  - repeat constructor; done.
  - repeat constructor; done.
Qed.

Lemma config_dir_cases E :
  let dir := fst (WtfConfigDir (env_user E)) in
  dir = "" ∨ plain_path dir.
Proof.
  pose proof (expandHomeDir_cases E ".config/wtf/" [".config"; "wtf"]) as Hc.
  unfold WtfConfigDir, WtfConfigDirV2.
  destruct (expandHomeDir (env_user E) "~/.config/wtf/") as [dir [err|]];
    [by left|].
  apply Hc; try done.
  - repeat constructor; done.
  - repeat constructor; done.
Qed.

Lemma createXdgConfigDir_outcome (E : env) (s : state) :
  (∃ s', createXdgConfigDir E s = Ret tt s'
         ∧ createXdgConfigDir E s' = Ret tt s'
         ∧ stdout s' = stdout s
         ∧ ∀ q m data, fs.lookup q (root s') = Found (File m data)
                       ↔ fs.lookup q (root s) = Found (File m data))
  ∨ (∃ e, createXdgConfigDir E s
          = Exit 1 {| root := root s;
                      stdout := stdout s ++ [XdgConfigDirCreateError e] |}).
Proof.
  apply (ensure_dir_outcome E XdgConfigDirCreateError
           (fst (expandHomeDir (env_user E) XdgConfigDir)) s).
  apply xdg_dir_cases.
Qed.

Lemma createWtfConfigDir_outcome (E : env) (s : state) :
  (∃ s', createWtfConfigDir E s = Ret tt s'
         ∧ createWtfConfigDir E s' = Ret tt s'
         ∧ stdout s' = stdout s
         ∧ ∀ q m data, fs.lookup q (root s') = Found (File m data)
                       ↔ fs.lookup q (root s) = Found (File m data))
  ∨ (∃ e, createWtfConfigDir E s
          = Exit 1 {| root := root s;
                      stdout := stdout s ++ [WtfConfigDirCreateError e] |}).
Proof.
  apply (ensure_dir_outcome E WtfConfigDirCreateError
           (fst (WtfConfigDir (env_user E))) s).
  apply config_dir_cases.
Qed.

(** X13.  Either directory provisioner returns or exits with status 1,
    and never panics.  When it returns, running it again changes nothing
    more, nothing was printed, and the files of the tree are the files
    that were there; when it exits, the tree is as it was and the
    diagnostic has been printed. *)
Theorem directory_provisioners (E : env) (s : state) :
  ((∃ s', createXdgConfigDir E s = Ret tt s'
          ∧ createXdgConfigDir E s' = Ret tt s'
          ∧ stdout s' = stdout s
          ∧ ∀ q m data, fs.lookup q (root s') = Found (File m data)
                        ↔ fs.lookup q (root s) = Found (File m data))
   ∨ (∃ e, createXdgConfigDir E s
           = Exit 1 {| root := root s;
                       stdout := stdout s ++ [XdgConfigDirCreateError e] |}))
  ∧ ((∃ s', createWtfConfigDir E s = Ret tt s'
            ∧ createWtfConfigDir E s' = Ret tt s'
            ∧ stdout s' = stdout s
            ∧ ∀ q m data, fs.lookup q (root s') = Found (File m data)
                          ↔ fs.lookup q (root s) = Found (File m data))
     ∨ (∃ e, createWtfConfigDir E s
             = Exit 1 {| root := root s;
                         stdout := stdout s ++ [WtfConfigDirCreateError e] |})).
Proof.
  split; [apply createXdgConfigDir_outcome|apply createWtfConfigDir_outcome].
Qed.

(** X14.  The configuration directory is not made recursively: with a
    home directory in which nothing is at the XDG directory,
    [createWtfConfigDir] prints its diagnostic and exits with status 1,
    leaving the tree as it was. *)
Theorem createWtfConfigDir_needs_xdg_dir (E : env) (u : User) (s : state) :
  env_user E = Ok u →
  HomeDir u ≠ "" →
  permits E SysStat (config_root E) →
  node_at E s (fst (expandHomeDir (env_user E) XdgConfigDir)) = Fails ENOENT →
  ∃ e, createWtfConfigDir E s
       = Exit 1 {| root := root s;
                   stdout := stdout s ++ [WtfConfigDirCreateError e] |}.
Proof.
  intros Huser Hhome Pstat Hxdg.
  pose proof (resolve_xdg_dir E u Huser Hhome) as Hpx.
  pose proof (resolve_config_root E u Huser Hhome) as Hpc.
  pose proof (plain_config_root E u Huser Hhome) as Cplain.
  rewrite (node_at_plain E _ _ _ (plain_xdg_dir E u Huser Hhome) Hpx) in Hxdg.
  set (H := home_elements E (HomeDir u)) in *.
  assert (H ++ [".config"; "wtf"] = (H ++ [".config"]) ++ ["wtf"])%list as Hsplit
    by by rewrite <- app_assoc.
  assert (node_at E s (config_root E) = Fails ENOENT) as Habsent.
  { by rewrite (node_at_plain E _ _ _ Cplain Hpc), Hsplit, lookup_app, Hxdg. }
  unfold createWtfConfigDir. rewrite (WtfConfigDir_home E u Huser Hhome).
  simpl fst. unfold bind, os_Stat.
  rewrite (stat_fails E _ _ _ Pstat Habsent). cbn [error_of os_IsNotExist].
  unfold os_Mkdir, update.
  rewrite (on_path_plain E _ _ _ _ _ _ _ Cplain Hpc).
  destruct (env_denied E SysMkdir (config_root E)); [by eexists|].
  rewrite Hsplit.
  destruct (modify_no_parent
              (λ o, match o with
                    | None => Found (Some (Dir (N.ldiff os_ModePerm (env_umask E)) ∅))
                    | Some _ => Fails EEXIST
                    end) _ "wtf" _ _ Hxdg) as [e' ->].
  by eexists.
Qed.

Lemma createWtfConfigDir_needs_xdg_dir_witness :
  ∃ e, createWtfConfigDir sample.quiet sample.fresh
       = Exit 1 {| root := root sample.fresh;
                   stdout := [WtfConfigDirCreateError e] |}.
Proof.
  apply (createWtfConfigDir_needs_xdg_dir sample.quiet sample.alice sample.fresh);
    vm_compute; (reflexivity || discriminate).
Defined.

(** ** More on the legacy migrator *)

Lemma place_found perm p new r r' :
  fs.place perm p new r = Found r' → fs.lookup p r' = Found new.
Proof.
  revert r r'. induction p as [|c p IH]; intros r r' Hp; simpl in Hp; [done|].
  destruct r as [|m es]; [done|].
  destruct (es !! c) as [ch|] eqn:Hc.
  - destruct (fs.place perm p new ch) as [ch'|] eqn:Hch; simplify_eq.
    simpl. rewrite lookup_insert_eq. by eapply IH.
  - simplify_eq. simpl. rewrite lookup_insert_eq. apply lookup_chain.
Qed.

(** What a failed removal below [base/a] removes is not below [base/b]. *)
Lemma without_frame base a b t1 t2 qs r :
  a ≠ b →
  fs.lookup (base ++ b :: t2) (fs.without (base ++ a :: t1) qs r)
  = fs.lookup (base ++ b :: t2) r.
Proof.
  intros Hne. unfold fs.without.
  induction qs as [|q qs IH] using rev_ind; [done|].
  rewrite foldl_app. simpl. destruct q as [|c q]; [done|].
  destruct (fs.modify _ _ _) as [r'|] eqn:Hm; [|done].
  rewrite <- IH. rewrite <- app_assoc in Hm.
  by eapply (modify_frame _ base a b (t1 ++ c :: q) t2).
Qed.

(** X15.  The migration loses nothing: however it ends (returning,
    printing a failed removal, or panicking on a failed copy), what was at
    the legacy root is afterwards at the legacy root still or at the new
    configuration root.  A removal that fails may have emptied the
    legacy root: the copy is at the new root by then. *)
Theorem migrateOldConfig_loses_nothing (E : env) (s : state) (n : node) :
  node_at E s (legacy_root E) = Found n →
  node_at E (final (migrateOldConfig E s)) (legacy_root E) = Found n
  ∨ node_at E (final (migrateOldConfig E s)) (config_root E) = Found n.
Proof.
  intros Hlegacy.
  destruct (resolve E (legacy_root E)) as [ps|] eqn:Hps;
    [|by unfold node_at in Hlegacy; rewrite Hps in Hlegacy].
  destruct (legacy_root_user E ps Hps) as (u & Hu & Hhome).
  pose proof (resolve_legacy_root E u Hu Hhome) as Hps'.
  pose proof (resolve_config_root E u Hu Hhome) as Hpd.
  pose proof (plain_legacy_root E u Hu Hhome) as Lplain.
  pose proof (plain_config_root E u Hu Hhome) as Cplain.
  set (H := home_elements E (HomeDir u)) in *.
  rewrite Hps in Hps'. simplify_eq.
  assert (fs.lookup (H ++ [".wtf"]) (root s) = Found n) as Hsrc.
  { by rewrite (node_at_plain E _ _ _ Lplain Hps) in Hlegacy. }
  unfold migrateOldConfig, bind, os_Stat.
  change (fst (expandHomeDir (env_user E) WtfConfigDirV1)) with (legacy_root E).
  change (fst (expandHomeDir (env_user E) WtfConfigDirV2)) with (config_root E).
  destruct (os_IsNotExist (error_of (stat E s (legacy_root E)))); [by left|].
  destruct (error_of (stat E s (config_root E))) as [err|]; [|by left].
  unfold Copy.
  destruct (env_denied E SysCopy (legacy_root E)); [by left|].
  destruct (env_denied E SysCopy (config_root E)); [by left|].
  rewrite Hps, Hpd, (walk_plain E _ _ _ Lplain), (walk_plain E _ _ _ Cplain).
  rewrite Hsrc.
  destruct (fs.place _ _ n (root s)) as [r1|] eqn:Hplace; [|by left].
  assert (fs.lookup (H ++ [".wtf"]) r1 = Found n) as Hsrc1.
  { rewrite <- Hsrc. by eapply (place_frame _ H ".config" ".wtf" ["wtf"] []). }
  apply place_found in Hplace as Hnew.
  set (s1 := {| root := r1; stdout := stdout s |}).
  destruct (error_of (stat E s1 (config_root E))) as [err'|].
  { left. by rewrite (node_at_plain E _ _ _ Lplain Hps). }
  rewrite (os_RemoveAll_plain E _ _ _ Lplain Hps).
  change (root s1) with r1.
  destruct (env_denied E SysRemoveAll (legacy_root E)).
  { (* the removal is refused: the copy is there *)
    right. rewrite (node_at_plain E _ _ _ Cplain Hpd). simpl.
    rewrite <- Hnew. by apply (without_frame H ".wtf" ".config" [] ["wtf"]). }
  destruct (modify_remove (H ++ [".wtf"]) r1 n) as (r2 & Hrm & Hgone);
    [by destruct H|done|].
  rewrite Hrm. right. rewrite (node_at_plain E _ _ _ Cplain Hpd).
  change (fs.lookup (H ++ [".config"; "wtf"]) r2 = Found n).
  rewrite <- Hnew. by eapply (modify_frame _ H ".wtf" ".config" [] ["wtf"]).
Qed.

Lemma migrateOldConfig_loses_nothing_witness :
  node_at sample.no_remove (final (migrateOldConfig sample.no_remove sample.legacy_only))
    "/home/alice/.wtf"
  = Found (Dir 493 {[ "config.yml" := File 420 "a: 1" ]})
  ∨ node_at sample.no_remove (final (migrateOldConfig sample.no_remove sample.legacy_only))
      "/home/alice/.config/wtf"
    = Found (Dir 493 {[ "config.yml" := File 420 "a: 1" ]}).
Proof.
  apply (migrateOldConfig_loses_nothing sample.no_remove sample.legacy_only).
  vm_compute. reflexivity.
Defined.

(** ** The steps of the bootstrap, one by one *)

Section Moves.

Context {A B : Type} (R : state → state → Prop).
Hypothesis R_refl : ∀ s, R s s.
Hypothesis R_trans : ∀ s1 s2 s3, R s1 s2 → R s2 s3 → R s1 s3.

Lemma moves_ret (a : A) : moves R (ret a).
Proof. intros s a' s' [= _ <-]. apply R_refl. Qed.

Lemma moves_exit code : moves R (@os_Exit A code).
Proof. by intros s a s'. Qed.

Lemma moves_panic v : moves R (@panic A v).
Proof. by intros s a s'. Qed.

Lemma moves_bind (m : M A) (k : A → M B) :
  moves R m → (∀ a, moves R (k a)) → moves R (bind m k).
Proof.
  intros Hm Hk s b s'. unfold bind.
  destruct (m s) as [a s1| |] eqn:Hrun; [|done..].
  intros Hk'. eapply R_trans; [by eapply Hm|by eapply Hk].
Qed.

End Moves.

Lemma bind_Ret_inv {A B} (m : M A) (k : A → M B) s b s' :
  bind m k s = Ret b s' → ∃ a s1, m s = Ret a s1 ∧ k a s1 = Ret b s'.
Proof.
  unfold bind. destruct (m s) as [a s1| |]; [|done..]. by exists a, s1.
Qed.

Section Steps.

Variable E : env.

Lemma tree_grows_refl s : tree_grows s s.
Proof. apply grows_refl. Qed.

Lemma tree_grows_trans s1 s2 s3 :
  tree_grows s1 s2 → tree_grows s2 s3 → tree_grows s1 s3.
Proof. apply grows_trans. Qed.

Lemma leaves_refl p s : leaves p s s.
Proof. done. Qed.

Lemma leaves_trans p s1 s2 s3 : leaves p s1 s2 → leaves p s2 s3 → leaves p s1 s3.
Proof. unfold leaves. congruence. Qed.

Lemma moves_os_Stat (R : state → state → Prop) name :
  (∀ s, R s s) → moves R (os_Stat E name).
Proof. intros R_refl s a s' [= _ <-]. apply R_refl. Qed.

Lemma moves_update_grows sc op making name f :
  gentle f → moves tree_grows (update E sc op making name (fs.modify f)).
Proof.
  intros Hf s a s'. unfold update, on_path.
  destruct (env_denied E sc name); [intros [= _ <-]; apply grows_refl|].
  destruct (resolve E name) as [p|]; [|intros [= _ <-]; apply grows_refl].
  destruct (walk E making (root s) name);
    [intros [= _ <-]; apply grows_refl|].
  destruct (fs.modify f p (root s)) as [r'|] eqn:Hm;
    [|intros [= _ <-]; apply grows_refl].
  intros [= _ <-]. by eapply modify_grows.
Qed.

(** A call below [base/a] leaves [base/b] alone. *)
Lemma moves_update_leaves sc op making name f base a b t1 t2 :
  resolve E name = Some (base ++ a :: t1)%list →
  a ≠ b →
  moves (leaves (base ++ b :: t2)) (update E sc op making name (fs.modify f)).
Proof.
  intros Hname Hne s x s'. unfold update, on_path.
  destruct (env_denied E sc name); [by intros [= _ <-]|].
  rewrite Hname.
  destruct (walk E making (root s) name); [by intros [= _ <-]|].
  destruct (fs.modify f _ (root s)) as [r'|] eqn:Hm; [|by intros [= _ <-]].
  intros [= _ <-]. unfold leaves. simpl. by eapply modify_frame.
Qed.

(** What [os.Stat] reports in a tree that has grown. *)
Lemma settled_dir_grows dir s s' :
  tree_grows s s' → settled_dir E dir s → settled_dir E dir s'.
Proof.
  unfold settled_dir. intros Hg Hs.
  destruct (os_IsNotExist (error_of (stat E s' dir))) eqn:Hs'; [|done].
  apply stat_IsNotExist_inv in Hs' as [Pstat Habs].
  rewrite (stat_fails E s dir ENOENT) in Hs; [done..|].
  unfold node_at in *.
  destruct (resolve E dir) as [p|] eqn:Hp; [|done].
  destruct (walk E false (root s') dir) as [e|] eqn:Hw'.
  - simplify_eq. by rewrite (walk_name_absent E _ _ _ _ Hg Hw').
  - destruct (walk E false (root s) dir) as [e|] eqn:Hw.
    + destruct (walk_name_fails E _ _ _ _ Hw) as [->| ->]; [done|].
      by rewrite (walk_name_stuck E _ _ _ _ Hg Hw) in Hw'.
    + by apply (grows_absent _ _ _ Hg).
Qed.

Lemma stat_Ok_grows name s s' :
  tree_grows s s' →
  error_of (stat E s name) = None → error_of (stat E s' name) = None.
Proof.
  intros Hg. unfold stat, on_path.
  destruct (env_denied E SysStat name); [done|].
  destruct (resolve E name) as [p|]; [|done].
  destruct (walk E false (root s) name) eqn:Hw; [done|].
  rewrite (walk_name_grows E _ _ _ _ Hg Hw).
  destruct (fs.lookup p (root s)) as [n|] eqn:Hn; [|done]. intros _.
  destruct (grows_found _ _ _ _ Hg Hn) as (n' & -> & _). done.
Qed.

End Steps.

Lemma moves_bind_returns {A B} (R : state → state → Prop) (Q : A → Prop)
    (m : M A) (k : A → M B) :
  (∀ s1 s2 s3, R s1 s2 → R s2 s3 → R s1 s3) →
  moves R m → (∀ s a s', m s = Ret a s' → Q a) →
  (∀ a, Q a → moves R (k a)) → moves R (bind m k).
Proof.
  intros R_trans Hm HQ Hk s b s'. unfold bind.
  destruct (m s) as [a s1| |] eqn:Hrun; [|done..].
  intros Hk'. eapply R_trans; [by eapply Hm|].
  eapply Hk; [by eapply HQ|done].
Qed.

Lemma CreateFile_returns_path E fileName s filePath s' :
  CreateFile E fileName s = Ret (filePath, None) s' →
  ∃ dir, WtfConfigDir (env_user E) = (dir, None)
         ∧ filePath = dir +:+ "/" +:+ fileName.
Proof.
  unfold CreateFile.
  destruct (WtfConfigDir (env_user E)) as [dir [err|]]; [done|].
  unfold bind, os_Stat, ret.
  destruct (error_of (stat E s _)) as [err|]; [|by intros; simplify_eq; eauto].
  destruct (os_IsNotExist (Some err)); [|by intros; simplify_eq].
  destruct (os_Create E _ s) as [[e|] s1| |]; intros; simplify_eq. eauto.
Qed.

Section Procedures.

Variable E : env.
Variable R : state → state → Prop.
Variable allowed : string → Prop.
Hypothesis R_refl : ∀ s, R s s.
Hypothesis R_trans : ∀ s1 s2 s3, R s1 s2 → R s2 s3 → R s1 s3.
Hypothesis R_update :
  ∀ sc op making name f, gentle f → allowed name →
                         moves R (update E sc op making name (fs.modify f)).

Lemma moves_ensure_dir (report : error → printed) dir :
  allowed dir →
  moves R (let* st := os_Stat E dir in
           if os_IsNotExist (error_of st) then
             let* err := os_Mkdir E dir os_ModePerm in
             match err with
             | Some e => run print (report e) then os_Exit 1
             | None => ret tt
             end
           else ret tt).
Proof.
  intros Hdir. apply moves_bind; [done|by apply moves_os_Stat|]. intros st.
  destruct (os_IsNotExist (error_of st)); [|by apply moves_ret].
  apply moves_bind; [done|by apply R_update; [apply gentle_mkdir|]|].
  intros [e|]; [|by apply moves_ret].
  intros s a s'. unfold bind, print. done.
Qed.

Lemma moves_chmod_at path :
  allowed path →
  moves R (let* st := os_Stat E path in
           if os_IsNotExist (error_of st) then ret tt
           else let* err := os_Chmod E path mode_0600 in
                match err with Some _ => ret tt | None => ret tt end).
Proof.
  intros Hpath. apply moves_bind; [done|by apply moves_os_Stat|]. intros st.
  destruct (os_IsNotExist (error_of st)); [by apply moves_ret|].
  apply moves_bind; [done|by apply R_update; [apply gentle_chmod|]|].
  by intros [e|]; apply moves_ret.
Qed.

Lemma moves_CreateFile name :
  (∀ dir, WtfConfigDir (env_user E) = (dir, None) →
          allowed (dir +:+ "/" +:+ name)) →
  moves R (CreateFile E name).
Proof.
  intros Hname. unfold CreateFile.
  destruct (WtfConfigDir (env_user E)) as [dir [err|]]; [by apply moves_ret|].
  apply moves_bind; [done|by apply moves_os_Stat|]. intros st.
  destruct (error_of st) as [err|]; [|by apply moves_ret].
  destruct (os_IsNotExist (Some err)); [|by apply moves_ret].
  apply moves_bind;
    [done|by apply R_update; [apply gentle_creat, gentle_create|apply Hname]|].
  by intros [e|]; apply moves_ret.
Qed.

Lemma moves_createDefaultFile name template :
  (∀ dir, WtfConfigDir (env_user E) = (dir, None) →
          allowed (dir +:+ "/" +:+ name)) →
  moves R (createDefaultFile E name template).
Proof.
  intros Hname. unfold createDefaultFile.
  apply (moves_bind_returns R
           (λ r, snd r = None → allowed (fst r))); [done| | |].
  - by apply moves_CreateFile.
  - intros s [filePath err] s' Hrun Herr. simpl in *. subst err.
    destruct (CreateFile_returns_path _ _ _ _ _ Hrun) as (dir & Hdir & ->).
    by apply Hname.
  - intros [filePath [err|]] Hpath.
    { intros s a s'. unfold bind, displayDefaultConfigCreateError, print. done. }
    apply moves_bind; [done|by apply moves_os_Stat|]. intros [file|e];
      [|by apply moves_panic].
    destruct (Size file =? 0)%Z; [|by apply moves_ret].
    apply moves_bind;
      [done|by apply R_update; [apply gentle_creat, gentle_create|apply Hpath]|].
    intros [e|]; [|by apply moves_ret].
    intros s a s'. unfold bind, displayDefaultConfigWriteError, print. done.
Qed.

End Procedures.

(** ** Steps that have nothing left to do *)

Lemma state_eta (s : state) : {| root := root s; stdout := stdout s |} = s.
Proof. by destruct s. Qed.

Section Settled.

Variable E : env.

(** *** The directories *)

Lemma ensure_dir_settles (report : error → printed) dir s s' :
  dir = "" ∨ plain_path dir →
  (let* st := os_Stat E dir in
   if os_IsNotExist (error_of st) then
     let* err := os_Mkdir E dir os_ModePerm in
     match err with
     | Some e => run print (report e) then os_Exit 1
     | None => ret tt
     end
   else ret tt) s = Ret tt s' →
  settled_dir E dir s'.
Proof.
  intros Hdir. unfold bind, os_Stat, ret, settled_dir.
  destruct (os_IsNotExist (error_of (stat E s dir))) eqn:Hne;
    [|by intros [= <-]].
  apply stat_IsNotExist_inv in Hne as [Pstat Habsent].
  unfold os_Mkdir, update.
  destruct (on_path E SysMkdir "mkdir" true dir (root s) _)
    as [r'|err] eqn:Hmk; [|done].
  intros [= <-]. unfold on_path in Hmk.
  destruct (env_denied E SysMkdir dir); [done|].
  destruct (resolve E dir) as [p|] eqn:Hp; [|done].
  destruct Hdir as [->|Hplain]; [done|].
  rewrite (walk_plain E _ _ _ Hplain) in Hmk.
  destruct (fs.modify _ p (root s)) as [r1|] eqn:Hmod; simplify_eq.
  destruct (modify_lookup _ _ _ _ Hmod) as (o & n & _ & Hn); [by intros [|]|].
  rewrite (stat_found E _ _ n Pstat); [done|].
  by rewrite (node_at_plain E _ _ _ Hplain Hp).
Qed.

Lemma ensure_dir_settled (report : error → printed) dir s :
  settled_dir E dir s →
  (let* st := os_Stat E dir in
   if os_IsNotExist (error_of st) then
     let* err := os_Mkdir E dir os_ModePerm in
     match err with
     | Some e => run print (report e) then os_Exit 1
     | None => ret tt
     end
   else ret tt) s = Ret tt s.
Proof. unfold settled_dir, bind, os_Stat. by intros ->. Qed.

(** *** The default file *)

Lemma createDefaultFile_settles name template dir s s' :
  WtfConfigDir (env_user E) = (dir, None) →
  plain_path (dir +:+ "/" +:+ name) →
  createDefaultFile E name template s = Ret tt s' →
  settled_file E (dir +:+ "/" +:+ name) template s'.
Proof.
  intros Hdir Hplain. unfold createDefaultFile.
  intros ([filePath err] & s1 & Hcreate & Hrest)%bind_Ret_inv.
  destruct err as [err|].
  { by apply bind_Ret_inv in Hrest as (? & ? & _ & ?). }
  destruct (CreateFile_returns_path _ _ _ _ _ Hcreate) as (dir' & Hdir' & ->).
  rewrite Hdir in Hdir'. simplify_eq.
  set (filePath := dir' +:+ "/" +:+ name) in *.
  unfold bind, os_Stat in Hrest.
  destruct (stat E s1 filePath) as [file|e] eqn:Hstat; [|done].
  assert (permits E SysStat filePath
          ∧ ∃ n, node_at E s1 filePath = Found n
                 ∧ file = file_info (env_dirsize E) n) as (Pstat & n & Hn & ->).
  { unfold stat, on_path, permits, node_at in *.
    destruct (env_denied E SysStat filePath); [done|]. split; [done|].
    destruct (resolve E filePath); [|done].
    destruct (walk E false (root s1) filePath); [done|].
    destruct (fs.lookup _ _) as [n|]; [|done]. exists n. by simplify_eq. }
  destruct (Z.eqb_spec (Size (file_info (env_dirsize E) n)) 0) as [Hzero|Hsize].
  2:{ unfold ret in Hrest. simplify_eq. exists n. eauto. }
  unfold ioutil_WriteFile, update in Hrest.
  rewrite (creat_plain _ _ Hplain) in Hrest.
  destruct (on_path E SysWriteFile "open" true filePath (root s1) _)
    as [r'|e] eqn:Hw; [|done].
  unfold ret in Hrest. simplify_eq.
  destruct (resolve E filePath) as [p|] eqn:Hp;
    [|by unfold node_at in Hn; rewrite Hp in Hn].
  rewrite (on_path_plain E _ _ _ _ _ _ _ Hplain Hp) in Hw.
  destruct (env_denied E SysWriteFile filePath) eqn:Pwrite; [done|].
  rewrite (node_at_plain E _ _ _ Hplain Hp) in Hn.
  destruct (fs.modify _ p (root s1)) as [r1|] eqn:Hmod; simplify_eq.
  destruct n as [m data|m es].
  - (* a file: it now holds the template *)
    match type of Hmod with
    | fs.modify ?f _ _ = _ =>
        destruct (modify_found f p (root s1) _ (File m template) Hn eq_refl)
          as (r2 & Hmod' & Hnew)
    end.
    rewrite Hmod in Hmod'. simplify_eq.
    exists (File m template).
    split; [by rewrite (node_at_plain E _ _ _ Hplain Hp)|]. split; [done|].
    destruct template as [|c t]; [right; split; [by eexists|by split]|by left].
  - (* a directory cannot be written *)
    match type of Hmod with
    | fs.modify ?f _ _ = _ =>
        rewrite (modify_refused f p (root s1) _ EISDIR Hn eq_refl) in Hmod
    end.
    done.
Qed.

Lemma createDefaultFile_settled name template dir s :
  WtfConfigDir (env_user E) = (dir, None) →
  plain_path (dir +:+ "/" +:+ name) →
  settled_file E (dir +:+ "/" +:+ name) template s →
  createDefaultFile E name template s = Ret tt s.
Proof.
  intros Hdir Hplain (n & Hn & Pstat & Hsettled).
  unfold createDefaultFile, CreateFile. rewrite Hdir.
  unfold bind, os_Stat, ret.
  rewrite (stat_found E _ _ _ Pstat Hn). cbn [error_of].
  rewrite (stat_found E _ _ _ Pstat Hn).
  destruct Hsettled as [Hsize|([m ->] & -> & Pwrite)].
  { by destruct (Z.eqb_spec (Size (file_info (env_dirsize E) n)) 0). }
  simpl. unfold ioutil_WriteFile, update.
  destruct (resolve E (dir +:+ "/" +:+ name)) as [p|] eqn:Hp;
    [|by unfold node_at in Hn; rewrite Hp in Hn].
  rewrite (creat_plain _ _ Hplain), (on_path_plain E _ _ _ _ _ _ _ Hplain Hp).
  unfold permits in Pwrite. rewrite Pwrite.
  rewrite (node_at_plain E _ _ _ Hplain Hp) in Hn.
  match goal with
  | |- context [fs.modify ?f p (root s)] =>
      rewrite (modify_same f p (root s) (File m "") Hn eq_refl)
  end.
  by rewrite state_eta.
Qed.

(** *** The modes *)

Lemma chmod_at_settles path s s' :
  (let* st := os_Stat E path in
   if os_IsNotExist (error_of st) then ret tt
   else let* err := os_Chmod E path mode_0600 in
        match err with Some _ => ret tt | None => ret tt end) s = Ret tt s' →
  settled_mode E path s'.
Proof.
  unfold bind, os_Stat, ret.
  destruct (os_IsNotExist (error_of (stat E s path))) eqn:Hne.
  { apply stat_IsNotExist_inv in Hne as [_ Habsent].
    intros [= <-] n Hn. congruence. }
  unfold os_Chmod, update, on_path.
  destruct (env_denied E SysChmod path) eqn:Hden.
  { intros [= <-] n _ Hperm. unfold permits in Hperm. congruence. }
  intros Hrun n Hn _. unfold node_at in Hn.
  destruct (resolve E path) as [p|]; [|done].
  destruct (walk E false (root s) path) eqn:Hw.
  { injection Hrun as <-. by rewrite Hw in Hn. }
  destruct (walk E false (root s') path); [done|].
  destruct (fs.modify _ p (root s)) as [r'|e] eqn:Hmod.
  - simplify_eq. simpl in Hn.
    destruct (modify_lookup _ _ _ _ Hmod) as (o & n' & Ho & Hn');
      [by intros [[]|]|].
    rewrite Hn in Hn'. simplify_eq.
    by destruct o as [[]|]; simplify_eq.
  - injection Hrun as <-.
    match type of Hmod with
    | fs.modify ?f _ _ = _ =>
        destruct (modify_found f p (root s) n
                    (match n with
                     | File _ data => File mode_0600 data
                     | Dir _ es => Dir mode_0600 es
                     end) Hn) as (r' & Hmod' & _); [by destruct n|]
    end.
    congruence.
Qed.

Lemma chmod_at_settled path s :
  settled_mode E path s →
  (let* st := os_Stat E path in
   if os_IsNotExist (error_of st) then ret tt
   else let* err := os_Chmod E path mode_0600 in
        match err with Some _ => ret tt | None => ret tt end) s = Ret tt s.
Proof.
  intros Hsettled. unfold bind, os_Stat, ret.
  destruct (os_IsNotExist (error_of (stat E s path))); [done|].
  unfold os_Chmod, update, on_path.
  destruct (env_denied E SysChmod path) eqn:Hden; [done|].
  unfold settled_mode, node_at in Hsettled.
  destruct (resolve E path) as [p|]; [|done].
  destruct (walk E false (root s) path); [done|].
  destruct (fs.lookup p (root s)) as [n|e] eqn:Hn.
  - specialize (Hsettled n eq_refl Hden).
    match goal with
    | |- context [fs.modify ?f p (root s)] =>
        rewrite (modify_same f p (root s) n Hn);
          [by rewrite state_eta|]
    end.
    destruct n; simpl in Hsettled; by subst.
  - destruct (modify_missing
                (λ o, match o with
                      | None => Fails ENOENT
                      | Some (File _ data) => Found (Some (File mode_0600 data))
                      | Some (Dir _ es) => Found (Some (Dir mode_0600 es))
                      end) p (root s) e Hn) as [e' ->]; [by eexists|done].
Qed.

End Settled.

(** ** What the later steps keep of the earlier ones *)

(** A mode change keeps a found node found, a file's content, and every
    mode but the one it sets. *)
Lemma chmod_keeps_content mode p2 r r' p n :
  fs.modify (λ o, match o with
                  | None => Fails ENOENT
                  | Some (File _ data) => Found (Some (File mode data))
                  | Some (Dir _ es) => Found (Some (Dir mode es))
                  end) p2 r = Found r' →
  fs.lookup p r = Found n →
  ∃ n', fs.lookup p r' = Found n'
        ∧ same_kind n n'
        ∧ ∀ m data, n = File m data → ∃ m', n' = File m' data.
Proof.
  intros Hmod Hn. destruct n as [m data|m es].
  - destruct (decide (p = p2)) as [->|Hne].
    + match type of Hmod with
      | fs.modify ?f _ _ = _ =>
          destruct (modify_found f p2 r _ (File mode data) Hn eq_refl)
            as (r2 & Hmod' & Hnew)
      end.
      rewrite Hmod in Hmod'. simplify_eq.
      exists (File mode data). split; [done|]. split; [done|].
      intros ? ? [= <- <-]. by eexists.
    + exists (File m data). split; [|split; [done|by eauto]].
      eapply modify_other_files; [|exact Hmod|done|done].
      intros m0 es o [= <-]. by eexists.
  - destruct (grows_found r r' p _ (modify_grows _ _ _ _ (gentle_chmod mode) Hmod) Hn)
      as (n' & Hn' & Hkind).
    exists n'. by repeat split.
Qed.

Lemma chmod_mode_elsewhere mode p2 r r' p n' :
  fs.modify (λ o, match o with
                  | None => Fails ENOENT
                  | Some (File _ data) => Found (Some (File mode data))
                  | Some (Dir _ es) => Found (Some (Dir mode es))
                  end) p2 r = Found r' →
  p ≠ p2 →
  fs.lookup p r' = Found n' →
  ∃ n, fs.lookup p r = Found n ∧ node_mode n = node_mode n'.
Proof.
  revert r r' p. induction p2 as [|c p2 IH]; intros r r' p Hmod Hne Hn';
    simpl in Hmod.
  - destruct p as [|c2 q]; [done|].
    destruct r as [m data|m es]; simplify_eq; simpl in *; try done.
    by exists n'.
  - destruct r as [|m es]; [done|].
    destruct p2 as [|c' p2].
    + destruct (es !! c) as [n0|] eqn:Hc; [|done].
      destruct p as [|c2 q];
        [exists (Dir m es); simpl in Hn'; by destruct n0; simplify_eq|].
      assert (r' = Dir m (<[c := match n0 with
                                 | File _ data => File mode data
                                 | Dir _ es0 => Dir mode es0
                                 end]> es)) as -> by by destruct n0; simplify_eq.
      simpl in *. destruct (decide (c = c2)) as [->|Hc2].
      * rewrite lookup_insert_eq in Hn'. rewrite Hc.
        destruct q as [|c3 q]; [done|].
        destruct n0 as [|m0 es0]; [done|]. by exists n'.
      * rewrite lookup_insert_ne in Hn' by done. by exists n'.
    + destruct (es !! c) as [ch|] eqn:Hc; [|done].
      destruct (fs.modify _ (c' :: p2) ch) as [ch'|] eqn:Hch; simplify_eq.
      destruct p as [|c2 q];
        [exists (Dir m es); simpl in Hn'; by simplify_eq|].
      simpl in *. destruct (decide (c = c2)) as [->|Hc2].
      * rewrite lookup_insert_eq in Hn'. rewrite Hc.
        eapply IH; [done| |done]. congruence.
      * rewrite lookup_insert_ne in Hn' by done. by exists n'.
Qed.

Section Later.

Variable E : env.

(** What a mode change does to the state. *)
Lemma chmod_at_inv path s s' :
  (let* st := os_Stat E path in
   if os_IsNotExist (error_of st) then ret tt
   else let* err := os_Chmod E path mode_0600 in
        match err with Some _ => ret tt | None => ret tt end) s = Ret tt s' →
  s' = s
  ∨ ∃ p, resolve E path = Some p
         ∧ stdout s' = stdout s
         ∧ fs.modify (λ o, match o with
                           | None => Fails ENOENT
                           | Some (File _ data) =>
                               Found (Some (File mode_0600 data))
                           | Some (Dir _ es) => Found (Some (Dir mode_0600 es))
                           end) p (root s) = Found (root s').
Proof.
  unfold bind, os_Stat, ret.
  destruct (os_IsNotExist (error_of (stat E s path))); [by intros [= <-]; left|].
  unfold os_Chmod, update, on_path.
  destruct (env_denied E SysChmod path); [by intros [= <-]; left|].
  destruct (resolve E path) as [p|]; [|by intros [= <-]; left].
  destruct (walk E false (root s) path); [by intros [= <-]; left|].
  destruct (fs.modify _ p (root s)) as [r'|] eqn:Hmod;
    [|by intros [= <-]; left].
  intros [= <-]. right. by exists p.
Qed.

Lemma settled_file_chmod path template path2 s s' :
  (let* st := os_Stat E path2 in
   if os_IsNotExist (error_of st) then ret tt
   else let* err := os_Chmod E path2 mode_0600 in
        match err with Some _ => ret tt | None => ret tt end) s = Ret tt s' →
  plain_path path →
  settled_file E path template s → settled_file E path template s'.
Proof.
  intros [->|(p2 & Hp2 & _ & Hmod)]%chmod_at_inv Hplain; [done|].
  intros (n & Hn & Pstat & Hsettled).
  destruct (resolve E path) as [p|] eqn:Hp;
    [|by unfold node_at in Hn; rewrite Hp in Hn].
  rewrite (node_at_plain E _ _ _ Hplain Hp) in Hn.
  destruct (chmod_keeps_content _ _ _ _ _ _ Hmod Hn) as (n' & Hn' & Hkind & Hfile).
  exists n'. split; [by rewrite (node_at_plain E _ _ _ Hplain Hp)|].
  split; [done|].
  destruct Hsettled as [Hsize|([m ->] & -> & Pwrite)].
  - left. destruct n as [m data|m es].
    + by destruct (Hfile m data eq_refl) as [m' ->].
    + by destruct n'.
  - right. destruct (Hfile m "" eq_refl) as [m' ->]. by eauto.
Qed.

Lemma settled_mode_chmod path path2 s s' :
  (let* st := os_Stat E path2 in
   if os_IsNotExist (error_of st) then ret tt
   else let* err := os_Chmod E path2 mode_0600 in
        match err with Some _ => ret tt | None => ret tt end) s = Ret tt s' →
  plain_path path →
  settled_mode E path s → settled_mode E path s'.
Proof.
  intros [->|(p2 & Hp2 & _ & Hmod)]%chmod_at_inv Hplain; [done|].
  intros Hsettled n' Hn' Pchmod. unfold settled_mode in *.
  destruct (resolve E path) as [p|] eqn:Hp;
    [|by unfold node_at in Hn'; rewrite Hp in Hn'].
  rewrite (node_at_plain E _ _ _ Hplain Hp) in Hn'.
  specialize (λ n, Hsettled n).
  assert (∀ n, fs.lookup p (root s) = Found n → node_mode n = mode_0600)
    as Hsettled'.
  { intros n Hn. apply Hsettled; [|done].
    by rewrite (node_at_plain E _ _ _ Hplain Hp). }
  clear Hsettled.
  destruct (decide (p = p2)) as [->|Hne].
  - destruct (modify_lookup _ _ _ _ Hmod) as (o & n & Ho & Hn);
      [by intros [[]|]|].
    rewrite Hn' in Hn. simplify_eq. by destruct o as [[]|]; simplify_eq.
  - destruct (chmod_mode_elsewhere _ _ _ _ _ _ Hmod Hne Hn') as (n & Hn & <-).
    by apply Hsettled'.
Qed.

Lemma settled_migration_moves s s' :
  tree_grows s s' →
  (∀ ps, resolve E (legacy_root E) = Some ps → leaves ps s s') →
  settled_migration E s → settled_migration E s'.
Proof.
  intros Hgrows Hleaves [Hgone|Hthere].
  - left. apply stat_IsNotExist_inv in Hgone as [Pstat Habsent].
    rewrite (stat_fails E s' _ ENOENT Pstat); [done|].
    destruct (resolve E (legacy_root E)) as [ps|] eqn:Hps;
      [|by unfold node_at; rewrite Hps].
    destruct (legacy_root_user E ps Hps) as (u & Hu & Hhome).
    pose proof (plain_legacy_root E u Hu Hhome) as Lplain.
    rewrite (node_at_plain E s' _ _ Lplain Hps).
    rewrite (node_at_plain E s _ _ Lplain Hps) in Habsent.
    by rewrite (Hleaves ps eq_refl).
  - right. by eapply stat_Ok_grows.
Qed.

Lemma migration_settled s :
  settled_migration E s → migrateOldConfig E s = Ret tt s.
Proof.
  unfold migrateOldConfig, bind, os_Stat.
  change (fst (expandHomeDir (env_user E) WtfConfigDirV1)) with (legacy_root E).
  change (fst (expandHomeDir (env_user E) WtfConfigDirV2)) with (config_root E).
  intros [->| Hthere]; [done|].
  destruct (os_IsNotExist (error_of (stat E s (legacy_root E)))); [done|].
  by rewrite Hthere.
Qed.

Lemma migration_settles s s' :
  permits E SysStat (config_root E) →
  migrateOldConfig E s = Ret tt s' →
  settled_migration E s'.
Proof.
  intros Pstat. unfold migrateOldConfig, bind, os_Stat.
  change (fst (expandHomeDir (env_user E) WtfConfigDirV1)) with (legacy_root E).
  change (fst (expandHomeDir (env_user E) WtfConfigDirV2)) with (config_root E).
  destruct (os_IsNotExist (error_of (stat E s (legacy_root E)))) eqn:Hgone.
  { intros [= <-]. by left. }
  destruct (error_of (stat E s (config_root E))) as [err|] eqn:Hthere.
  2:{ intros [= <-]. by right. }
  unfold Copy.
  destruct (env_denied E SysCopy (legacy_root E)); [done|].
  destruct (env_denied E SysCopy (config_root E)); [done|].
  destruct (resolve E (legacy_root E)) as [ps|] eqn:Hps;
    [|by destruct (resolve E (config_root E))].
  destruct (resolve E (config_root E)) as [pd|] eqn:Hpd; [|done].
  destruct (legacy_root_user E ps Hps) as (u & Hu & Hhome).
  pose proof (resolve_legacy_root E u Hu Hhome) as Hps'.
  pose proof (resolve_config_root E u Hu Hhome) as Hpd'.
  pose proof (plain_legacy_root E u Hu Hhome) as Lplain.
  pose proof (plain_config_root E u Hu Hhome) as Cplain.
  rewrite (walk_plain E _ _ _ Lplain), (walk_plain E _ _ _ Cplain).
  destruct (fs.lookup ps (root s)) as [tree|]; [|done].
  destruct (fs.place _ pd tree (root s)) as [r1|] eqn:Hplace; [|done].
  apply place_found in Hplace as Hnew.
  assert (∀ out, error_of (stat E {| root := r1; stdout := out |} (config_root E))
                 = None) as Hthere1.
  { intros out. rewrite (stat_found E _ _ tree Pstat); [done|].
    by rewrite (node_at_plain E _ _ _ Cplain Hpd). }
  rewrite (Hthere1 (stdout s)).
  rewrite (os_RemoveAll_plain E _ _ _ Lplain Hps).
  rewrite Hps in Hps'. rewrite Hpd in Hpd'. simplify_eq.
  set (H := home_elements E (HomeDir u)) in *.
  cbn [root stdout].
  destruct (env_denied E SysRemoveAll (legacy_root E)).
  { unfold fmt_Println, print. intros [= <-]. right.
    rewrite (stat_found E _ _ tree Pstat); [done|].
    rewrite (node_at_plain E _ _ _ Cplain Hpd). simpl.
    rewrite <- Hnew. by apply (without_frame H ".wtf" ".config" [] ["wtf"]). }
  destruct (fs.modify _ (H ++ [".wtf"]) r1) as [r2|e] eqn:Hrm.
  - intros [= <-]. right.
    rewrite (stat_found E _ _ tree Pstat); [done|].
    rewrite (node_at_plain E _ _ _ Cplain Hpd). simpl.
    rewrite <- Hnew. by eapply (modify_frame _ H ".wtf" ".config" [] ["wtf"]).
  - destruct e; unfold fmt_Println, print, ret; simpl; intros [= <-]; right;
      apply Hthere1.
Qed.

End Later.

(** ** The bootstrap as a whole *)

Lemma createDefaultFile_Ret_dir E name template s s' :
  createDefaultFile E name template s = Ret tt s' →
  ∃ dir, WtfConfigDir (env_user E) = (dir, None).
Proof.
  unfold createDefaultFile.
  intros ([filePath [err|]] & s1 & Hcreate & Hrest)%bind_Ret_inv.
  { by apply bind_Ret_inv in Hrest as (? & ? & _ & ?). }
  destruct (CreateFile_returns_path _ _ _ _ _ Hcreate) as (dir & Hdir & _).
  by exists dir.
Qed.

Section Bootstrap.

Variable E : env.

(** Every step after the migration makes the tree grow. *)
Lemma update_grows sc op making name f :
  gentle f → True →
  moves tree_grows (update E sc op making name (fs.modify f)).
Proof. intros Hf _. by apply moves_update_grows. Qed.

Lemma createXdgConfigDir_grows : moves tree_grows (createXdgConfigDir E).
Proof.
  apply (moves_ensure_dir E tree_grows (λ _, True) tree_grows_refl
           tree_grows_trans update_grows); done.
Qed.

Lemma createWtfConfigDir_grows : moves tree_grows (createWtfConfigDir E).
Proof.
  apply (moves_ensure_dir E tree_grows (λ _, True) tree_grows_refl
           tree_grows_trans update_grows); done.
Qed.

Lemma createWtfConfigFile_grows template :
  moves tree_grows (createWtfConfigFile E template).
Proof.
  apply (moves_createDefaultFile E tree_grows (λ _, True) tree_grows_refl
           tree_grows_trans update_grows); done.
Qed.

Lemma chmodConfigFile_grows : moves tree_grows (chmodConfigFile E).
Proof.
  apply (moves_chmod_at E tree_grows (λ _, True) tree_grows_refl
           tree_grows_trans update_grows); done.
Qed.

Lemma chmodSecretsFile_grows : moves tree_grows (chmodSecretsFile E).
Proof.
  apply (moves_chmod_at E tree_grows (λ _, True) tree_grows_refl
           tree_grows_trans update_grows); done.
Qed.

Section WithHome.

Variable u : User.
Hypothesis Huser : env_user E = Ok u.
Hypothesis Hhome : HomeDir u ≠ "".

Let H := home_elements E (HomeDir u).
Let below_config (name : string) : Prop :=
  ∃ t, resolve E name = Some (H ++ ".config" :: t)%list.
Let legacy := (H ++ ".wtf" :: [])%list.

(** Every step after the migration leaves the legacy root alone. *)
Lemma update_leaves sc op making name f :
  gentle f → below_config name →
  moves (leaves legacy) (update E sc op making name (fs.modify f)).
Proof.
  intros _ [t Hname]. by eapply moves_update_leaves.
Qed.

Lemma xdg_below : below_config (fst (expandHomeDir (env_user E) XdgConfigDir)).
Proof. exists []. apply (resolve_xdg_dir E u Huser Hhome). Qed.

Lemma config_root_below : below_config (fst (WtfConfigDir (env_user E))).
Proof.
  exists ["wtf"]. rewrite (WtfConfigDir_home E u Huser Hhome).
  apply (resolve_config_root E u Huser Hhome).
Qed.

Lemma created_config_file_below dir :
  WtfConfigDir (env_user E) = (dir, None) →
  below_config (dir +:+ "/" +:+ WtfConfigFile).
Proof.
  intros [-> _]%WtfConfigDir_Ok. exists ["wtf"; "config.yml"].
  rewrite (resolve_created_config_file E u Huser Hhome).
  by rewrite <- app_assoc.
Qed.

Lemma config_file_below : below_config (config_file E).
Proof.
  exists ["wtf"; "config.yml"]. rewrite (resolve_config_file E u Huser Hhome).
  by rewrite <- app_assoc.
Qed.

Lemma secrets_file_below : below_config (secrets_file E).
Proof.
  exists ["wtf"; "secrets.yml"]. rewrite (resolve_secrets_file E u Huser Hhome).
  by rewrite <- app_assoc.
Qed.

Lemma after_migration_leaves template :
  moves (leaves legacy)
    (run createXdgConfigDir E then
     run createWtfConfigDir E then
     run createWtfConfigFile E template then
     run chmodConfigFile E then
     chmodSecretsFile E).
Proof.
  pose proof (leaves_refl legacy) as Hrefl.
  pose proof (leaves_trans legacy) as Htrans.
  apply moves_bind; [done| |intros _].
  { apply (moves_ensure_dir E _ below_config Hrefl Htrans update_leaves).
    apply xdg_below. }
  apply moves_bind; [done| |intros _].
  { apply (moves_ensure_dir E _ below_config Hrefl Htrans update_leaves).
    apply config_root_below. }
  apply moves_bind; [done| |intros _].
  { apply (moves_createDefaultFile E _ below_config Hrefl Htrans update_leaves).
    apply created_config_file_below. }
  apply moves_bind; [done| |intros _].
  { apply (moves_chmod_at E _ below_config Hrefl Htrans update_leaves).
    apply config_file_below. }
  apply (moves_chmod_at E _ below_config Hrefl Htrans update_leaves).
  apply secrets_file_below.
Qed.

End WithHome.

Lemma after_migration_grows template :
  moves tree_grows
    (run createXdgConfigDir E then
     run createWtfConfigDir E then
     run createWtfConfigFile E template then
     run chmodConfigFile E then
     chmodSecretsFile E).
Proof.
  pose proof tree_grows_trans as Htrans.
  apply moves_bind; [done|apply createXdgConfigDir_grows|intros _].
  apply moves_bind; [done|apply createWtfConfigDir_grows|intros _].
  apply moves_bind; [done|apply createWtfConfigFile_grows|intros _].
  apply moves_bind; [done|apply chmodConfigFile_grows|intros _].
  apply chmodSecretsFile_grows.
Qed.

End Bootstrap.

Lemma bind_Ret {A B} (m : M A) (k : A → M B) s a s1 :
  m s = Ret a s1 → bind m k s = k a s1.
Proof. unfold bind. by intros ->. Qed.

(** X16.  With a custom source the bootstrap only makes directories: it
    returns or exits with status 1, and either way the files of the tree
    are the files that were there, each with its mode and content. *)
Theorem Initialize_custom_source (E : env) (defaultConfigFile : string)
    (s : state) :
  ∃ s', (Initialize E defaultConfigFile true s = Ret tt s'
         ∨ Initialize E defaultConfigFile true s = Exit 1 s')
        ∧ ∀ q m data, fs.lookup q (root s') = Found (File m data)
                      ↔ fs.lookup q (root s) = Found (File m data).
Proof.
  unfold Initialize. simpl negb. cbv iota.
  rewrite (bind_Ret (ret tt) _ s tt s eq_refl).
  destruct (createXdgConfigDir_outcome E s)
    as [(s1 & Hxdg & _ & _ & Hfiles1)|[e Hxdg]].
  2:{ eexists. split; [right; unfold bind; by rewrite Hxdg|done]. }
  rewrite (bind_Ret (createXdgConfigDir E) _ s tt s1 Hxdg).
  destruct (createWtfConfigDir_outcome E s1)
    as [(s2 & Hcfg & _ & _ & Hfiles2)|[e Hcfg]].
  - exists s2. split; [left; unfold bind; by rewrite Hcfg|].
    intros q m data. by rewrite Hfiles2, Hfiles1.
  - eexists. split; [right; unfold bind; by rewrite Hcfg|]. apply Hfiles1.
Qed.

(** X17.  When the bootstrap without a custom source returns, the default
    config file is there: something is at its path; if that is a regular
    file, it has content unless the template is empty; and it has mode
    0600 unless the system refuses the mode change. *)
Theorem Initialize_provides_config (E : env) (defaultConfigFile : string)
    (s s' : state) :
  Initialize E defaultConfigFile false s = Ret tt s' →
  ∃ n, node_at E s' (config_file E) = Found n
       ∧ (∀ m data, n = File m data → data ≠ "" ∨ defaultConfigFile = "")
       ∧ (permits E SysChmod (config_file E) → node_mode n = mode_0600).
Proof.
  unfold Initialize. simpl negb. cbv iota.
  intros ([] & s1 & Hmig & Hrun)%bind_Ret_inv.
  apply bind_Ret_inv in Hrun as ([] & s2 & Hxdg & Hrun).
  apply bind_Ret_inv in Hrun as ([] & s3 & Hcfg & Hrun).
  apply bind_Ret_inv in Hrun as ([] & s4 & Hfile & Hrun).
  apply bind_Ret_inv in Hrun as ([] & s5 & Hchc & Hchs).
  destruct (createDefaultFile_Ret_dir _ _ _ _ _ Hfile) as [dir Hdir].
  destruct (WtfConfigDir_Ok E dir Hdir) as (-> & u & Huser & Hhome).
  pose proof (plain_created_config_file E u Huser Hhome) as Fplain.
  pose proof (plain_config_file E u Huser Hhome) as Cplain.
  pose proof (createDefaultFile_settles E _ _ _ _ _ Hdir Fplain Hfile) as Sfile.
  apply (settled_file_chmod E _ _ (config_file E) _ _ Hchc Fplain) in Sfile.
  apply (settled_file_chmod E _ _ (secrets_file E) _ _ Hchs Fplain) in Sfile.
  pose proof (chmod_at_settles E (config_file E) _ _ Hchc) as Smode.
  apply (settled_mode_chmod E _ (secrets_file E) _ _ Hchs Cplain) in Smode.
  destruct Sfile as (n & Hn & _ & Hcontent).
  assert (node_at E s' (config_file E) = Found n) as Hn'.
  { rewrite (node_at_plain E _ _ _ Cplain (resolve_config_file E u Huser Hhome)).
    by rewrite (node_at_plain E _ _ _ Fplain
                  (resolve_created_config_file E u Huser Hhome)) in Hn. }
  exists n. split; [done|]. split; [|by apply Smode].
  intros m data ->. destruct Hcontent as [Hsize|(_ & -> & _)]; [|by right].
  left. intros ->. done.
Qed.

Lemma Initialize_provides_config_witness :
  ∃ n, node_at sample.quiet
         (final (Initialize sample.quiet "template" false sample.fresh))
         (config_file sample.quiet) = Found n
       ∧ (∀ m data, n = File m data → data ≠ "" ∨ "template" = "")
       ∧ (permits sample.quiet SysChmod (config_file sample.quiet) →
          node_mode n = mode_0600).
Proof.
  apply (Initialize_provides_config sample.quiet "template" sample.fresh).
  vm_compute. reflexivity.
Defined.

(** X18.  The bootstrap is idempotent: when it returns, running it again
    in the state it returned in returns in that same state, so nothing is
    migrated, made, written or printed a second time.  Without a custom
    source this needs that the system lets [os.Stat] look at the new
    configuration root. *)
Theorem Initialize_idempotent (E : env) (defaultConfigFile : string)
    (hasCustom : bool) (s s' : state) :
  (hasCustom = false → permits E SysStat (config_root E)) →
  Initialize E defaultConfigFile hasCustom s = Ret tt s' →
  Initialize E defaultConfigFile hasCustom s' = Ret tt s'.
Proof.
  intros Pstat. unfold Initialize. destruct hasCustom; simpl negb; cbv iota.
  - (* a custom source: the two directories *)
    intros ([] & s1 & Hskip & Hrun)%bind_Ret_inv.
    unfold ret in Hskip. simplify_eq.
    apply bind_Ret_inv in Hrun as ([] & s2 & Hxdg & Hrun).
    apply bind_Ret_inv in Hrun as ([] & s3 & Hcfg & Hrun).
    unfold ret in Hrun. simplify_eq.
    pose proof (ensure_dir_settles E XdgConfigDirCreateError _ _ _
                  (xdg_dir_cases E) Hxdg) as Sxdg.
    pose proof (ensure_dir_settles E WtfConfigDirCreateError _ _ _
                  (config_dir_cases E) Hcfg) as Scfg.
    apply (settled_dir_grows E _ _ _ (createWtfConfigDir_grows E _ _ _ Hcfg))
      in Sxdg.
    rewrite (bind_Ret (ret tt) _ s' tt s' eq_refl).
    rewrite (bind_Ret (createXdgConfigDir E) _ s' tt s'
               (ensure_dir_settled E XdgConfigDirCreateError _ _ Sxdg)).
    by rewrite (bind_Ret (createWtfConfigDir E) _ s' tt s'
                  (ensure_dir_settled E WtfConfigDirCreateError _ _ Scfg)).
  - (* no custom source: all six steps *)
    specialize (Pstat eq_refl).
    intros ([] & s1 & Hmig & Hrest)%bind_Ret_inv.
    pose proof Hrest as Hrun.
    apply bind_Ret_inv in Hrun as ([] & s2 & Hxdg & Hrest2).
    pose proof Hrest2 as Hrun.
    apply bind_Ret_inv in Hrun as ([] & s3 & Hcfg & Hrest3).
    pose proof Hrest3 as Hrun.
    apply bind_Ret_inv in Hrun as ([] & s4 & Hfile & Hrun).
    apply bind_Ret_inv in Hrun as ([] & s5 & Hchc & Hchs).
    destruct (createDefaultFile_Ret_dir _ _ _ _ _ Hfile) as [dir Hdir].
    destruct (WtfConfigDir_Ok E dir Hdir) as (Hdir' & u & Huser & Hhome).
    pose proof (plain_created E dir WtfConfigFile Hdir) as Fplain.
    specialize (Fplain ltac:(done) eq_refl).
    pose proof (plain_config_file E u Huser Hhome) as Cplain.
    (* the migration *)
    pose proof (migration_settles E _ _ Pstat Hmig) as Smig.
    apply (settled_migration_moves E s1 s') in Smig;
      [|by eapply after_migration_grows|].
    2:{ intros ps Hps. rewrite (resolve_legacy_root E u Huser Hhome) in Hps.
        simplify_eq.
        by eapply (after_migration_leaves E u Huser Hhome). }
    (* the directories *)
    pose proof (ensure_dir_settles E XdgConfigDirCreateError _ _ _
                  (xdg_dir_cases E) Hxdg) as Sxdg.
    pose proof (ensure_dir_settles E WtfConfigDirCreateError _ _ _
                  (config_dir_cases E) Hcfg) as Scfg.
    assert (tree_grows s3 s') as Hg3.
    { eapply tree_grows_trans; [by eapply createWtfConfigFile_grows|].
      eapply tree_grows_trans; [by eapply chmodConfigFile_grows|].
      by eapply chmodSecretsFile_grows. }
    assert (tree_grows s2 s') as Hg2.
    { eapply tree_grows_trans; [by eapply createWtfConfigDir_grows|done]. }
    apply (settled_dir_grows E _ _ _ Hg2) in Sxdg.
    apply (settled_dir_grows E _ _ _ Hg3) in Scfg.
    (* the file and the modes *)
    pose proof (createDefaultFile_settles E _ _ _ _ _ Hdir Fplain Hfile)
      as Sfile.
    apply (settled_file_chmod E _ _ (config_file E) _ _ Hchc Fplain) in Sfile.
    apply (settled_file_chmod E _ _ (secrets_file E) _ _ Hchs Fplain) in Sfile.
    pose proof (chmod_at_settles E (config_file E) _ _ Hchc) as Smode.
    apply (settled_mode_chmod E _ (secrets_file E) _ _ Hchs Cplain) in Smode.
    pose proof (chmod_at_settles E (secrets_file E) _ _ Hchs) as Smode'.
    (* the second run *)
    rewrite (bind_Ret (migrateOldConfig E) _ s' tt s'
               (migration_settled E _ Smig)).
    rewrite (bind_Ret (createXdgConfigDir E) _ s' tt s'
               (ensure_dir_settled E XdgConfigDirCreateError _ _ Sxdg)).
    rewrite (bind_Ret (createWtfConfigDir E) _ s' tt s'
               (ensure_dir_settled E WtfConfigDirCreateError _ _ Scfg)).
    rewrite (bind_Ret (createWtfConfigFile E defaultConfigFile) _ s' tt s'
               (createDefaultFile_settled E _ _ _ _ Hdir Fplain Sfile)).
    rewrite (bind_Ret (chmodConfigFile E) _ s' tt s'
               (chmod_at_settled E (config_file E) _ Smode)).
    exact (chmod_at_settled E (secrets_file E) _ Smode').
Qed.

Lemma Initialize_idempotent_witness :
  Initialize sample.no_remove "template" false
    (final (Initialize sample.no_remove "template" false sample.legacy_only))
  = Ret tt (final (Initialize sample.no_remove "template" false sample.legacy_only)).
Proof.
  apply (Initialize_idempotent sample.no_remove "template" false
           sample.legacy_only).
  - intros _. vm_compute. reflexivity.
  - vm_compute. reflexivity.
Defined.

(** ** Where the bootstrap can stop *)

Section Stops.

Variable E : env.




End Stops.






(** ** What the bootstrap never overwrites *)

Lemma content_kept_refl s : content_kept s s.
Proof. intros q m data _ Hq. by exists m. Qed.

Lemma content_kept_trans s1 s2 s3 :
  content_kept s1 s2 → content_kept s2 s3 → content_kept s1 s3.
Proof.
  intros H12 H23 q m data Hne Hq.
  destruct (H12 q m data Hne Hq) as [m' Hq']. by apply (H23 q m' data).
Qed.

Lemma content_kept_root s s' : root s' = root s → content_kept s s'.
Proof. intros Hroot q m data _ Hq. exists m. by rewrite Hroot. Qed.

Lemma final_bind {A B} (R : state → state → Prop) (m : M A) (k : A → M B) s :
  (∀ s1 s2 s3, R s1 s2 → R s2 s3 → R s1 s3) →
  R s (final (m s)) →
  (∀ a s1, m s = Ret a s1 → R s1 (final (k a s1))) →
  R s (final (bind m k s)).
Proof.
  intros Htrans Hm Hk. unfold bind.
  destruct (m s) as [a s1|code s1|v s1]; [|done..].
  exact (Htrans _ _ _ Hm (Hk a s1 eq_refl)).
Qed.

Lemma always_bind {A B} (R : state → state → Prop) (m : M A) (k : A → M B) :
  (∀ s1 s2 s3, R s1 s2 → R s2 s3 → R s1 s3) →
  always R m → (∀ a, always R (k a)) → always R (bind m k).
Proof.
  intros Htrans Hm Hk s. apply final_bind; [done|apply Hm|].
  intros a s1 _. apply Hk.
Qed.

(** A change of one entry keeps the content of every file, when it keeps
    the entries of a directory and the content of the file it is made
    on. *)
Lemma modify_content f p r r' q m data :
  (∀ m0 es o, f (Some (Dir m0 es)) = Found o → ∃ m1, o = Some (Dir m1 es)) →
  (q = p → ∀ o, f (Some (File m data)) = Found o →
               ∃ m1, o = Some (File m1 data)) →
  fs.modify f p r = Found r' →
  fs.lookup q r = Found (File m data) →
  ∃ m', fs.lookup q r' = Found (File m' data).
Proof.
  intros Hdir Hfile Hmod Hq. destruct (decide (q = p)) as [->|Hne].
  - destruct (f (Some (File m data))) as [o|e] eqn:Hf.
    + destruct (Hfile eq_refl o eq_refl) as [m1 ->].
      destruct (modify_found f p r _ _ Hq Hf) as (r'' & Hmod' & Hl).
      rewrite Hmod in Hmod'. injection Hmod' as <-. by exists m1.
    + by rewrite (modify_refused f p r _ e Hq Hf) in Hmod.
  - exists m. by apply (modify_other_files f p r r' q m data Hdir Hmod Hne).
Qed.

Section Content.

Variable E : env.

Lemma update_content sc op making name f s :
  (∀ m0 es o, f (Some (Dir m0 es)) = Found o → ∃ m1, o = Some (Dir m1 es)) →
  (∀ p m data o,
     resolve E name = Some p →
     walk E making (root s) name = None →
     fs.lookup p (root s) = Found (File m data) →
     data ≠ "" →
     f (Some (File m data)) = Found o → ∃ m1, o = Some (File m1 data)) →
  content_kept s (final (update E sc op making name (fs.modify f) s)).
Proof.
  intros Hdir Hfile. unfold update, on_path.
  destruct (env_denied E sc name); [apply content_kept_refl|].
  destruct (resolve E name) as [p|] eqn:Hp; [|apply content_kept_refl].
  destruct (walk E making (root s) name) eqn:Hw; [apply content_kept_refl|].
  destruct (fs.modify f p (root s)) as [r'|e] eqn:Hmod;
    [|apply content_kept_refl].
  intros q m data Hne Hq. simpl.
  apply (modify_content f p (root s) r' q m data Hdir); [|done..].
  intros -> o. by apply (Hfile p m data o).
Qed.

Lemma always_print line : always content_kept (print line).
Proof. intros s. by apply content_kept_root. Qed.

Lemma always_os_Stat name : always content_kept (os_Stat E name).
Proof. intros s. apply content_kept_refl. Qed.

Lemma always_os_Mkdir name perm : always content_kept (os_Mkdir E name perm).
Proof.
  intros s. unfold os_Mkdir. apply update_content; [done|].
  by intros p m data o _ _ _ _.
Qed.

Lemma always_os_Chmod name mode : always content_kept (os_Chmod E name mode).
Proof.
  intros s. unfold os_Chmod. apply update_content.
  - intros m0 es o [= <-]. by exists mode.
  - intros p m data o _ _ _ _ [= <-]. by exists mode.
Qed.

Lemma always_ensure_dir (report : error → printed) dir :
  always content_kept
    (let* st := os_Stat E dir in
     if os_IsNotExist (error_of st) then
       let* err := os_Mkdir E dir os_ModePerm in
       match err with
       | Some e => run print (report e) then os_Exit 1
       | None => ret tt
       end
     else ret tt).
Proof.
  apply always_bind; [apply content_kept_trans|apply always_os_Stat|].
  intros st. destruct (os_IsNotExist (error_of st)).
  - apply always_bind; [apply content_kept_trans|apply always_os_Mkdir|].
    intros [e|] s; [|apply content_kept_refl]. by apply content_kept_root.
  - intros s. apply content_kept_refl.
Qed.

Lemma always_chmod_at path :
  always content_kept
    (let* st := os_Stat E path in
     if os_IsNotExist (error_of st) then ret tt
     else let* err := os_Chmod E path mode_0600 in
          match err with Some _ => ret tt | None => ret tt end).
Proof.
  apply always_bind; [apply content_kept_trans|apply always_os_Stat|].
  intros st. destruct (os_IsNotExist (error_of st)).
  - intros s. apply content_kept_refl.
  - apply always_bind; [apply content_kept_trans|apply always_os_Chmod|].
    intros [e|] s; apply content_kept_refl.
Qed.

(** [os.Create] truncates, but [CreateFile] calls it only where nothing
    is. *)
Lemma always_CreateFile fileName : always content_kept (CreateFile E fileName).
Proof.
  intros s. unfold CreateFile.
  destruct (WtfConfigDir (env_user E)) as [dir [err|]];
    [apply content_kept_refl|].
  apply final_bind; [apply content_kept_trans|apply content_kept_refl|].
  intros st s1 [= <- <-].
  destruct (error_of (stat E s (dir +:+ "/" +:+ fileName))) as [err|] eqn:Herr;
    [|apply content_kept_refl].
  destruct (os_IsNotExist (Some err)) eqn:Hnone; [|apply content_kept_refl].
  rewrite <- Herr in Hnone.
  apply stat_IsNotExist_inv in Hnone as [_ Hat].
  apply final_bind; [apply content_kept_trans| |].
  - unfold os_Create. apply update_content.
    + intros m0 es o. unfold creat. by destruct (fs.trailing _).
    + intros p m data o Hp Hw Hl _ Hf. exfalso.
      unfold creat in Hf.
      destruct (fs.trailing (filepath.elements (dir +:+ "/" +:+ fileName)))
        eqn:Htr; [done|].
      unfold walk in Hw. rewrite (trimmed_not_trailing _ Htr) in Hw.
      unfold node_at in Hat. rewrite Hp in Hat.
      unfold walk in Hat. rewrite Hw, Hl in Hat. done.
  - intros [e|] s2 _; apply content_kept_refl.
Qed.

(** [ioutil.WriteFile] truncates too, but the default file is written
    only when it is empty. *)
Lemma always_createDefaultFile name template :
  always content_kept (createDefaultFile E name template).
Proof.
  intros s. unfold createDefaultFile.
  apply final_bind; [apply content_kept_trans|apply always_CreateFile|].
  intros [filePath [err|]] s1 _.
  { by apply content_kept_root. }
  apply final_bind; [apply content_kept_trans|apply content_kept_refl|].
  intros st s2 [= <- <-].
  destruct (stat E s1 filePath) as [file|e] eqn:Hstat;
    [|apply content_kept_refl].
  destruct (Size file =? 0)%Z eqn:Hsize; [|apply content_kept_refl].
  apply final_bind; [apply content_kept_trans| |].
  - unfold ioutil_WriteFile. apply update_content.
    + intros m0 es o. unfold creat. by destruct (fs.trailing _).
    + intros p m data o Hp _ Hl Hne _. exfalso. revert Hstat.
      unfold stat, on_path. destruct (env_denied E SysStat filePath); [done|].
      rewrite Hp. destruct (walk E false (root s1) filePath); [done|].
      rewrite Hl. intros [= <-]. simpl in Hsize.
      destruct data; [done|]. simpl in Hsize. lia.
  - intros [e|] s3 _; [|apply content_kept_refl]. by apply content_kept_root.
Qed.

End Content.

(** X20.  The bootstrap overwrites nothing: when there is no migration
    to do (a custom source, no legacy root, or a configuration root
    that is there), every regular file that has content keeps that
    content, however the bootstrap stops. *)
Theorem Initialize_keeps_content (E : env) (defaultConfigFile : string)
    (hasCustom : bool) (s : state) (q : list string) (m : N) (data : string) :
  (hasCustom = false →
   os_IsNotExist (error_of (stat E s (legacy_root E))) = true
   ∨ error_of (stat E s (config_root E)) = None) →
  data ≠ "" →
  fs.lookup q (root s) = Found (File m data) →
  ∃ m', fs.lookup q
          (root (final (Initialize E defaultConfigFile hasCustom s)))
        = Found (File m' data).
Proof.
  intros Hskip Hne Hq.
  assert (content_kept s (final (Initialize E defaultConfigFile hasCustom s)))
    as Hkept; [|by apply (Hkept q m data)].
  unfold Initialize.
  apply final_bind; [apply content_kept_trans| |].
  { destruct hasCustom; simpl; [apply content_kept_refl|].
    rewrite (migration_settled E s (Hskip eq_refl)). apply content_kept_refl. }
  intros [] s1 _. revert s1.
  apply always_bind; [apply content_kept_trans|apply always_ensure_dir|].
  intros [].
  apply always_bind; [apply content_kept_trans|apply always_ensure_dir|].
  intros []. destruct hasCustom; simpl; [intros s1; apply content_kept_refl|].
  apply always_bind; [apply content_kept_trans|apply always_createDefaultFile|].
  intros [].
  apply always_bind; [apply content_kept_trans|apply always_chmod_at|].
  intros []. apply always_chmod_at.
Qed.

Lemma Initialize_keeps_content_witness :
  ∃ m', fs.lookup ["home"; "alice"; ".config"; "wtf"; "notes.txt"]
          (root (final (Initialize sample.quiet "template" false
                          sample.open_config)))
        = Found (File m' "n").
Proof.
  apply (Initialize_keeps_content sample.quiet "template" false
           sample.open_config
           ["home"; "alice"; ".config"; "wtf"; "notes.txt"] 420 "n").
  - intros _. left. vm_compute. reflexivity.
  - discriminate.
  - vm_compute. reflexivity.
Defined.
